(** * pawa-frontend: the streaming consumers and the keyboard-shortcut matcher

    A shallow embedding of

    - [handleSendMessage] of [src/components/StreamingChatUI.tsx]
      (the buffered reader loop that decodes [data: ] lines carrying JSON),
    - [chatApi.streamMessage] of the API client
      (the unbuffered reader loop with the [[DONE]] / [[ERROR]] sentinels),
    - [useKeyboardShortcuts] of [src/hooks/useKeyboardShortcuts.ts],

    with the properties the specification states about them, followed by
    the code around them and what it guarantees:

    - [handleSendMessage] from its first line (guard, request, failures
      before the stream) and the badge of a tool message,
    - the shortcut lists that [UndoRedoPanel] and [App] register,
    - the search filter and the keyboard navigation of [CommandPalette],
    - the stores [useChatStore] and [useCodeStore], and
      [ChatInterface.handleSend] which records an exchange in the former.

    Conventions.  A JavaScript string is a [string] (one [ascii] per code
    unit, so the model covers text in the Latin-1 range); a call the code
    makes on its surroundings (a React state setter, a callback, the
    console) is an [Effect] appended to a trace; local [let] variables are
    a record threaded through the loop; a [throw] is a result in a sum
    type; a function handed to a state setter is kept as such, and reads
    the variables it names when it is run; objects that the code changes
    in place (the conversations of the chat store and their message
    arrays) live in a heap and are named by reference. *)

From Stdlib Require Import String Ascii List Bool Arith ZArith Lia.
Import ListNotations.
Set Warnings "-register-all".
Local Open Scope string_scope.
Local Open Scope list_scope.

(** ** JavaScript strings *)

Module JSString.

Definition LF : ascii := ascii_of_nat 10.
Definition DQUOTE : ascii := ascii_of_nat 34.

(** [s.startsWith(p)] *)
Definition startsWith (s p : string) : bool := String.prefix p s.

(** [s.slice(n)] for a non-negative literal [n]: the string without its
    first [n] code units (empty when [n] is past the end). *)
Fixpoint slice (n : nat) (s : string) : string :=
  match n, s with
  | O, _ => s
  | S _, EmptyString => EmptyString
  | S n', String _ s' => slice n' s'
  end.

(** [s.split(sep)] for a one-character separator.  The result is never
    empty: [''.split(sep)] is [['']]. *)
Fixpoint split (sep : ascii) (s : string) : list string :=
  match s with
  | EmptyString => [EmptyString]
  | String c s' =>
      if Ascii.eqb c sep then EmptyString :: split sep s'
      else match split sep s' with
           | [] => [String c EmptyString]
           | seg :: segs => String c seg :: segs
           end
  end.

(** [lines.pop()]: the array without its last element, and that element
    ([undefined], here [None], on an empty array). *)
Fixpoint pop {A : Type} (l : list A) : list A * option A :=
  match l with
  | [] => ([], None)
  | [x] => ([], Some x)
  | x :: l' => let (front, z) := pop l' in (x :: front, z)
  end.

(** [x || ''] for [x : string | undefined]. *)
Definition or_empty (x : option string) : string :=
  match x with
  | Some s => s          (* [''] is falsy, and the alternative is [''] too *)
  | None => EmptyString
  end.

(** [c.toLowerCase()] for one code unit below 256: the letters A to Z
    (65 to 90) and the Latin-1 capitals U+00C0 to U+00DE, the multiplication
    sign U+00D7 apart, have their small letter 32 places up; every other
    code unit is its own lower case. *)
Definition lower_ascii (c : ascii) : ascii :=
  let n := nat_of_ascii c in
  if (Nat.leb 65 n && Nat.leb n 90)%bool then ascii_of_nat (n + 32)
  else if (Nat.leb 192 n && Nat.leb n 222 && negb (Nat.eqb n 215))%bool
  then ascii_of_nat (n + 32)
  else c.

Fixpoint toLowerCase (s : string) : string :=
  match s with
  | EmptyString => EmptyString
  | String c s' => String (lower_ascii c) (toLowerCase s')
  end.

(** Joining chunks as the transport delivered them. *)
Fixpoint concat_chunks (cs : list string) : string :=
  match cs with
  | [] => EmptyString
  | c :: cs' => c ++ concat_chunks cs'
  end.

(** A helper to write wire text: [jsq] turns every apostrophe of a literal
    into a double quote. *)
Fixpoint jsq (s : string) : string :=
  match s with
  | EmptyString => EmptyString
  | String c s' =>
      String (if Ascii.eqb c "'"%char then DQUOTE else c) (jsq s')
  end.

Definition nl : string := String LF EmptyString.

(** A segment holds no line feed. *)
Fixpoint no_LF (s : string) : bool :=
  match s with
  | EmptyString => true
  | String c s' => negb (Ascii.eqb c LF) && no_LF s'
  end.

(** The text made of the lines [ls], each followed by a line feed. *)
Fixpoint terminated (ls : list string) : string :=
  match ls with
  | [] => EmptyString
  | l :: rest => l ++ String LF (terminated rest)
  end.

(** The complete lines of a text, and the segment after the last line
    feed, as [split] then [pop] compute them. *)
Definition complete_lines (s : string) : list string := fst (pop (split LF s)).
Definition last_segment (s : string) : string := or_empty (snd (pop (split LF s))).

End JSString.

(** ** JavaScript values, as [JSON.parse] can produce them *)

Module JS.

(** A number is kept as the JSON text that denotes it: the code under study
    never computes with numbers, it only converts them to strings. *)
Inductive value : Type :=
| Undefined
| Null
| Bool (b : bool)
| Num (lit : string)
| Str (s : string)
| Arr (elems : list value)
| Obj (fields : list (string * value)).

(** What a failing statement throws. *)
Inductive Exn : Type :=
| SyntaxError                  (* [JSON.parse] on text that is not JSON *)
| TypeError                    (* property of [null], unconvertible object *)
| Error (message : string).    (* [new Error(message)] *)

(** Own property [k] of an object, given its members in the order written;
    of duplicate keys the last one written is the one [JSON.parse] keeps. *)
Fixpoint lookup (k : string) (fields : list (string * value)) : option value :=
  match fields with
  | [] => None
  | (k', v) :: rest =>
      match lookup k rest with
      | Some v' => Some v'
      | None => if String.eqb k k' then Some v else None
      end
  end.

(** [v.k] for the property names the code reads ([type], [content],
    [tool_name], [tool_args], [result], [error], [file_path]): none of them
    is defined on a built-in prototype, so the read finds an own property of
    an object or [undefined]; on [null] and [undefined] it throws. *)
Definition prop (fields : list (string * value)) (k : string) : value :=
  match lookup k fields with
  | Some x => x
  | None => Undefined
  end.

Definition get (v : value) (k : string) : Exn + value :=
  match v with
  | Undefined | Null => inl TypeError
  | Obj fields => inr (prop fields k)
  | _ => inr Undefined
  end.

(** [v?.k] *)
Definition get_opt (v : value) (k : string) : value :=
  match get v k with
  | inr x => x
  | inl _ => Undefined
  end.

(** [v === 'literal'] *)
Definition is_str (v : value) (lit : string) : bool :=
  match v with
  | Str s => String.eqb s lit
  | _ => false
  end.

Section ToString.

(** [Number.prototype.toString] works on the double the literal denotes;
    it is a parameter here, and [JSNumber.toString] below where the code is
    evaluated. *)
Variable Number_toString : string -> string.

(** [String(v)], the conversion done by [+=] on a string and by a template
    literal.  A plain object converts to ['[object Object]'] unless an own
    [toString] property (never callable in parsed JSON) shadows the
    inherited method, in which case the conversion throws [TypeError].  An
    array converts to its elements joined by commas, [null] and [undefined]
    elements giving the empty string. *)
Fixpoint ToString (v : value) : Exn + string :=
  match v with
  | Undefined => inr "undefined"
  | Null => inr "null"
  | Bool true => inr "true"
  | Bool false => inr "false"
  | Num lit => inr (Number_toString lit)
  | Str s => inr s
  | Arr elems =>
      (fix join (l : list value) : Exn + string :=
         match l with
         | [] => inr ""
         | x :: rest =>
             let elem := match x with
                         | Undefined | Null => inr ""
                         | _ => ToString x
                         end in
             match elem with
             | inl e => inl e
             | inr sx =>
                 match rest with
                 | [] => inr sx
                 | _ :: _ =>
                     match join rest with
                     | inl e => inl e
                     | inr sr => inr (sx ++ "," ++ sr)%string
                     end
                 end
             end
         end) elems
  | Obj fields =>
      match lookup "toString" fields with
      | Some _ => inl TypeError
      | None => inr "[object Object]"
      end
  end.

(** [new Error(v)]: the error constructed, whose [message] is [String(v)],
    or empty when [v] is [undefined]; the conversion may itself throw. *)
Definition new_Error (v : value) : Exn + Exn :=
  match v with
  | Undefined => inr (Error "")
  | _ =>
      match ToString v with
      | inl e => inl e
      | inr message => inr (Error message)
      end
  end.

End ToString.

End JS.

(** ** A model of [JSON.parse]

    The reader loop is verified for an arbitrary parser (a section
    variable).  This recursive-descent parser of the JSON grammar is the
    instance at which the code is evaluated on concrete wire text.

    A text is parsed to the end whatever its [\uXXXX] escapes denote, so
    that [SyntaxError] is told apart from success exactly; the value found
    is [None] when a string of it holds a code unit above U+00FF, for which
    the strings of this model have no place ([Beyond] below). *)

Module JSON.

Import JSString.

Definition is_ws (c : ascii) : bool :=
  match nat_of_ascii c with
  | 32 | 9 | 10 | 13 => true
  | _ => false
  end.

Definition is_digit (c : ascii) : bool :=
  let n := nat_of_ascii c in (Nat.leb 48 n && Nat.leb n 57)%bool.

Fixpoint skip_ws (s : string) : string :=
  match s with
  | String c s' => if is_ws c then skip_ws s' else s
  | EmptyString => s
  end.

Definition hex_digit (c : ascii) : option nat :=
  let n := nat_of_ascii c in
  if (Nat.leb 48 n && Nat.leb n 57)%bool then Some (n - 48)
  else if (Nat.leb 65 n && Nat.leb n 70)%bool then Some (n - 55)
  else if (Nat.leb 97 n && Nat.leb n 102)%bool then Some (n - 87)
  else None.

Definition hex4 (a b c d : ascii) : option nat :=
  match hex_digit a, hex_digit b, hex_digit c, hex_digit d with
  | Some x, Some y, Some z, Some w => Some (((x * 16 + y) * 16 + z) * 16 + w)
  | _, _, _, _ => None
  end.

(** The one-character escapes: quote, backslash, slash, b, f, n, r, t. *)
Definition unescape (c : ascii) : option ascii :=
  match nat_of_ascii c with
  | 34 => Some DQUOTE
  | 92 => Some (ascii_of_nat 92)
  | 47 => Some (ascii_of_nat 47)
  | 98 => Some (ascii_of_nat 8)
  | 102 => Some (ascii_of_nat 12)
  | 110 => Some (ascii_of_nat 10)
  | 114 => Some (ascii_of_nat 13)
  | 116 => Some (ascii_of_nat 9)
  | _ => None
  end.

(** [f a b] when both are there. *)
Definition both {A B C : Type} (f : A -> B -> C) (a : option A) (b : option B)
  : option C :=
  match a, b with
  | Some x, Some y => Some (f x y)
  | _, _ => None
  end.

(** The rest of a string literal, after one more code unit: [c], or a code
    unit above U+00FF. *)
Definition cons_char (c : ascii) (r : option (option string * string))
  : option (option string * string) :=
  match r with
  | Some (body, rest) => Some (option_map (String c) body, rest)
  | None => None
  end.

Definition cons_wide (r : option (option string * string))
  : option (option string * string) :=
  match r with
  | Some (_, rest) => Some (None, rest)
  | None => None
  end.

(** A string literal after its opening quote: its value and the text after
    the closing quote; the outer [None] is a syntax error.  Raw control
    characters are not allowed. *)
Fixpoint string_body (s : string) : option (option string * string) :=
  match s with
  | EmptyString => None
  | String c s' =>
      if Ascii.eqb c DQUOTE then Some (Some EmptyString, s')
      else if Ascii.eqb c (ascii_of_nat 92) then
        match s' with
        | EmptyString => None
        | String e s'' =>
            match unescape e with
            | Some ch => cons_char ch (string_body s'')
            | None =>
                if Ascii.eqb e "u"%char then
                  match s'' with
                  | String h1 (String h2 (String h3 (String h4 s4))) =>
                      match hex4 h1 h2 h3 h4 with
                      | Some n =>
                          if Nat.ltb n 256
                          then cons_char (ascii_of_nat n) (string_body s4)
                          else cons_wide (string_body s4)
                      | None => None
                      end
                  | _ => None
                  end
                else None
            end
        end
      else if Nat.ltb (nat_of_ascii c) 32 then None
      else cons_char c (string_body s')
  end.

(** The longest prefix of digits, and the rest. *)
Fixpoint digits (s : string) : string * string :=
  match s with
  | String c s' =>
      if is_digit c then let (d, r) := digits s' in (String c d, r)
      else (EmptyString, s)
  | EmptyString => (EmptyString, s)
  end.

(** A number literal: an optional minus sign; an integer part that is a
    single 0 or starts with a nonzero digit; an optional fraction (a dot and
    one or more digits); an optional exponent (e or E, an optional sign, one
    or more digits).  The result is the literal and the text after it. *)
Definition number (s : string) : option (string * string) :=
  let (sign, s1) :=
    match s with
    | String c s' => if Ascii.eqb c "-"%char then ("-", s') else ("", s)
    | EmptyString => ("", s)
    end in
  let (int, s2) := digits s1 in
  match int with
  | EmptyString => None
  | String d more =>
      if (Ascii.eqb d "0"%char && negb (String.eqb more ""))%bool then None
      else
        let frac :=
          match s2 with
          | String c s' =>
              if Ascii.eqb c "."%char then
                let (f, r) := digits s' in
                match f with
                | EmptyString => None
                | _ => Some (String c f, r)
                end
              else Some ("", s2)
          | EmptyString => Some ("", s2)
          end in
        match frac with
        | None => None
        | Some (f, s3) =>
            let exp :=
              match s3 with
              | String c s' =>
                  if (Ascii.eqb c "e"%char || Ascii.eqb c "E"%char)%bool then
                    let (sg, s'') :=
                      match s' with
                      | String g t =>
                          if (Ascii.eqb g "+"%char || Ascii.eqb g "-"%char)%bool
                          then (String g "", t) else ("", s')
                      | EmptyString => ("", s')
                      end in
                    let (x, r) := digits s'' in
                    match x with
                    | EmptyString => None
                    | _ => Some (String c (sg ++ x), r)
                    end
                  else Some ("", s3)
              | EmptyString => Some ("", s3)
              end in
            match exp with
            | None => None
            | Some (x, s4) => Some ((sign ++ int ++ f ++ x)%string, s4)
            end
        end
  end.

Definition expect (lit : string) (s : string) : option string :=
  if String.prefix lit s then Some (slice (String.length lit) s) else None.

(** Values, array elements and object members, by recursion on a fuel that
    bounds the nesting and the number of items. *)
Fixpoint parse_value (fuel : nat) (s : string) {struct fuel}
  : option (option JS.value * string) :=
  match fuel with
  | O => None
  | S f =>
      match skip_ws s with
      | EmptyString => None
      | String c s' =>
          match nat_of_ascii c with
          | 123 (* open brace *) =>
              match skip_ws s' with
              | String c1 s1 =>
                  if Ascii.eqb c1 "}"%char then Some (Some (JS.Obj []), s1)
                  else match parse_members f (String c1 s1) with
                       | Some (ms, r) => Some (option_map JS.Obj ms, r)
                       | None => None
                       end
              | EmptyString => None
              end
          | 91 (* open bracket *) =>
              match skip_ws s' with
              | String c1 s1 =>
                  if Ascii.eqb c1 "]"%char then Some (Some (JS.Arr []), s1)
                  else match parse_elements f (String c1 s1) with
                       | Some (vs, r) => Some (option_map JS.Arr vs, r)
                       | None => None
                       end
              | EmptyString => None
              end
          | 34 (* quote *) =>
              match string_body s' with
              | Some (v, r) => Some (option_map JS.Str v, r)
              | None => None
              end
          | 116 (* t *) =>
              match expect "rue" s' with
              | Some r => Some (Some (JS.Bool true), r)
              | None => None
              end
          | 102 (* f *) =>
              match expect "alse" s' with
              | Some r => Some (Some (JS.Bool false), r)
              | None => None
              end
          | 110 (* n *) =>
              match expect "ull" s' with
              | Some r => Some (Some JS.Null, r)
              | None => None
              end
          | _ =>
              match number (String c s') with
              | Some (lit, r) => Some (Some (JS.Num lit), r)
              | None => None
              end
          end
      end
  end
with parse_elements (fuel : nat) (s : string) {struct fuel}
  : option (option (list JS.value) * string) :=
  match fuel with
  | O => None
  | S f =>
      match parse_value f s with
      | None => None
      | Some (v, r) =>
          match skip_ws r with
          | String c r' =>
              if Ascii.eqb c ","%char then
                match parse_elements f r' with
                | Some (vs, r'') => Some (both cons v vs, r'')
                | None => None
                end
              else if Ascii.eqb c "]"%char
              then Some (option_map (fun x => [x]) v, r')
              else None
          | EmptyString => None
          end
      end
  end
with parse_members (fuel : nat) (s : string) {struct fuel}
  : option (option (list (string * JS.value)) * string) :=
  match fuel with
  | O => None
  | S f =>
      match skip_ws s with
      | String c s' =>
          if Ascii.eqb c DQUOTE then
            match string_body s' with
            | None => None
            | Some (k, r) =>
                match skip_ws r with
                | String c1 r1 =>
                    if Ascii.eqb c1 ":"%char then
                      match parse_value f r1 with
                      | None => None
                      | Some (v, r2) =>
                          match skip_ws r2 with
                          | String c2 r3 =>
                              if Ascii.eqb c2 ","%char then
                                match parse_members f r3 with
                                | Some (ms, r4) =>
                                    Some (both cons (both pair k v) ms, r4)
                                | None => None
                                end
                              else if Ascii.eqb c2 "}"%char
                              then Some (option_map (fun m => [m]) (both pair k v), r3)
                              else None
                          | EmptyString => None
                          end
                      end
                    else None
                | EmptyString => None
                end
            end
          else None
      | EmptyString => None
      end
  end.

(** What [JSON.parse(text)] does. *)
Inductive Parsed : Type :=
| Value (v : JS.value)     (* it returns [v] *)
| Throws                   (* it throws a [SyntaxError] *)
| Beyond.                  (* it returns a value, and a string of the text holds a code unit above U+00FF *)

Definition parse_text (text : string) : Parsed :=
  match parse_value (2 * String.length text + 2) text with
  | Some (v, rest) =>
      match skip_ws rest with
      | EmptyString =>
          match v with
          | Some x => Value x
          | None => Beyond
          end
      | String _ _ => Throws
      end
  | None => Throws
  end.

(** The texts whose parse the model can hold. *)
Definition representable (text : string) : bool :=
  match parse_text text with
  | Beyond => false
  | _ => true
  end.

(** [JSON.parse(text)] as the reader loop takes it, for a representable
    [text]: [None] stands for the [SyntaxError] it throws.  A text that is
    not representable is outside the model: the loop would go on with a
    value that cannot be written here. *)
Definition parse (text : string) : option JS.value :=
  match parse_text text with
  | Value v => Some v
  | Throws | Beyond => None
  end.

End JSON.


(** ** [handleSendMessage]: the buffered reader loop of StreamingChatUI.tsx

    The model starts where the response body is read (the [let buffer = '']
    of the source) and ends with the [finally] block. *)

Module StreamingChatUI.

Import JSString.

Inductive Role : Type := user | assistant | thinking | tool.

Definition is_tool (r : Role) : bool :=
  match r with tool => true | _ => false end.

(** [toolCall?: { name, args, result? }]; an absent [result] is
    [JS.Undefined]. *)
Record ToolCall : Type := mkToolCall {
  name : JS.value;
  args : JS.value;
  result : JS.value
}.

(** [interface Message]; the [timestamp] ([new Date()]) is left out. *)
Record Message : Type := mkMessage {
  role : Role;
  content : string;
  toolCall : option ToolCall
}.

(** A function passed to [setMessages].  [Append m] is
    [prev => [...prev, m]] for a message [m] whose parts are fixed when the
    call is made.  The two updaters of the [done] branch name the variables
    [thinkingBuffer] and [contentBuffer] in their bodies: they read them
    when React runs the updater, not when [setMessages] is called. *)
Inductive Updater : Type :=
| Append (m : Message)
| AppendThinking       (* [{ role: 'thinking', content: thinkingBuffer, ... }] *)
| AppendAssistant      (* [{ role: 'assistant', content: contentBuffer, ... }] *)
| StoreToolResult (r : JS.value).

(** The calls the loop makes on its surroundings, in the order made. *)
Inductive Effect : Type :=
| SetCurrentThinking (s : string)
| SetCurrentContent (s : string)
| SetMessages (u : Updater)
| OnFileModified (path : JS.value)
| ConsoleError (label : string) (e : JS.Exn)
| SetIsStreaming (b : bool).

(** The local variables declared before the loop. *)
Record Locals : Type := mkLocals {
  buffer : string;
  thinkingBuffer : string;
  contentBuffer : string;
  inThinking : bool;
  inAnswer : bool
}.

Definition initial : Locals := mkLocals "" "" "" false false.

Definition set_buffer (b : string) (st : Locals) : Locals :=
  mkLocals b (thinkingBuffer st) (contentBuffer st) (inThinking st) (inAnswer st).
Definition set_thinkingBuffer (b : string) (st : Locals) : Locals :=
  mkLocals (buffer st) b (contentBuffer st) (inThinking st) (inAnswer st).
Definition set_contentBuffer (b : string) (st : Locals) : Locals :=
  mkLocals (buffer st) (thinkingBuffer st) b (inThinking st) (inAnswer st).
Definition set_inThinking (b : bool) (st : Locals) : Locals :=
  mkLocals (buffer st) (thinkingBuffer st) (contentBuffer st) b (inAnswer st).
Definition set_inAnswer (b : bool) (st : Locals) : Locals :=
  mkLocals (buffer st) (thinkingBuffer st) (contentBuffer st) (inThinking st) b.

(** *** A statement: it updates the locals, makes calls, and either
    completes or throws. *)

Definition M (A : Type) : Type := Locals -> Locals * list Effect * (JS.Exn + A).

Definition ret {A : Type} (a : A) : M A := fun st => (st, [], inr a).

Definition bind {A B : Type} (m : M A) (k : A -> M B) : M B :=
  fun st =>
    match m st with
    | (st1, out1, inl e) => (st1, out1, inl e)
    | (st1, out1, inr a) =>
        match k a st1 with
        | (st2, out2, r) => (st2, out1 ++ out2, r)
        end
    end.

Definition throw {A : Type} (e : JS.Exn) : M A := fun st => (st, [], inl e).

Definition lift {A : Type} (r : JS.Exn + A) : M A := fun st => (st, [], r).

Definition emit (e : Effect) : M unit := fun st => (st, [e], inr tt).

Definition modify (f : Locals -> Locals) : M unit := fun st => (f st, [], inr tt).

Definition read {A : Type} (f : Locals -> A) : M A := fun st => (st, [], inr (f st)).

(** [try { m } catch (e) { h e }] *)
Definition try_catch (m : M unit) (h : JS.Exn -> M unit) : M unit :=
  fun st =>
    match m st with
    | (st1, out1, inl e) =>
        match h e st1 with
        | (st2, out2, r) => (st2, out1 ++ out2, r)
        end
    | done => done
    end.

Definition when (b : bool) (m : M unit) : M unit := if b then m else ret tt.

Notation "x <- m ;; k" := (bind m (fun x => k))
  (at level 61, m at next level, right associativity).
Notation "m ;; k" := (bind m (fun _ => k))
  (at level 61, right associativity).

(** [for (const line of lines) body(line)] *)
Fixpoint forEach (lines : list string) (body : string -> M unit) : M unit :=
  match lines with
  | [] => ret tt
  | line :: rest => body line ;; forEach rest body
  end.

Definition nonempty (s : string) : bool := negb (String.eqb s "").

(** *** The updater of the [tool_result] branch *)

(** [findLastIndex]; [None] stands for [-1]. *)
Fixpoint findLastIndex {A : Type} (p : A -> bool) (l : list A) : option nat :=
  match l with
  | [] => None
  | x :: rest =>
      match findLastIndex p rest with
      | Some i => Some (S i)
      | None => if p x then Some 0 else None
      end
  end.

Fixpoint update_nth {A : Type} (i : nat) (f : A -> A) (l : list A) : list A :=
  match i, l with
  | _, [] => []
  | O, x :: rest => f x :: rest
  | S i', x :: rest => x :: update_nth i' f rest
  end.

Definition with_result (r : JS.value) (m : Message) : Message :=
  match toolCall m with
  | Some tc => mkMessage (role m) (content m) (Some (mkToolCall (name tc) (args tc) r))
  | None => m
  end.

Definition tool_result_updater (r : JS.value) (prev : list Message) : list Message :=
  match findLastIndex (fun m => is_tool (role m)) prev with
  | Some lastToolIndex => update_nth lastToolIndex (with_result r) prev
  | None => prev
  end.

(** React runs an updater on the previous message list; [now] holds the
    values the loop's variables have at that moment. *)
Definition run_updater (now : Locals) (u : Updater) (prev : list Message)
  : list Message :=
  match u with
  | Append m => prev ++ [m]
  | AppendThinking => prev ++ [mkMessage thinking (thinkingBuffer now) None]
  | AppendAssistant => prev ++ [mkMessage assistant (contentBuffer now) None]
  | StoreToolResult r => tool_result_updater r prev
  end.

Definition apply_effect (now : Locals) (msgs : list Message) (e : Effect)
  : list Message :=
  match e with
  | SetMessages u => run_updater now u msgs
  | _ => msgs
  end.

(** What the [setMessages] calls of a trace do to the message list when
    React runs them all at the moment [now]. *)
Definition messages_after (now : Locals) (trace : list Effect)
    (msgs : list Message) : list Message :=
  fold_left (apply_effect now) trace msgs.

Definition map_state {A : Type} (f : Locals -> Locals)
    (r : Locals * list Effect * (JS.Exn + A)) : Locals * list Effect * (JS.Exn + A) :=
  match r with (st, out, x) => (f st, out, x) end.

(** A statement that neither reads nor writes [buffer]. *)
Definition buffer_free {A : Type} (m : M A) : Prop :=
  forall b st, m (set_buffer b st) = map_state (set_buffer b) (m st).

(** How the transport ends: [reader.read()] reports [done], or rejects with
    an [Error] carrying a message. *)
Inductive Ending : Type := Eof | Rejected (message : string).

Section Loop.

Variable JSON_parse : string -> option JS.value.
Variable Number_toString : string -> string.
(** [showThinking], as captured when the handler runs. *)
Variable showThinking : bool.
(** Whether the optional prop [onFileModified] is given. *)
Variable onFileModified : bool.

Definition ToString (v : JS.value) : M string :=
  lift (JS.ToString Number_toString v).

Definition parseJSON (text : string) : M JS.value :=
  match JSON_parse text with
  | Some v => ret v
  | None => throw JS.SyntaxError
  end.

(** The body of the [try] for one [data: ] line. *)
Definition dispatch (line : string) : M unit :=
  data <- parseJSON (slice 6 line) ;;
  type <- lift (JS.get data "type") ;;
  if JS.is_str type "thinking" then
    modify (set_inThinking true) ;;
    c <- lift (JS.get data "content") ;;
    s <- ToString c ;;
    tb <- read thinkingBuffer ;;
    modify (set_thinkingBuffer (tb ++ s)) ;;
    emit (SetCurrentThinking (tb ++ s))
  else if JS.is_str type "content" then
    modify (set_inThinking false) ;;
    modify (set_inAnswer true) ;;
    c <- lift (JS.get data "content") ;;
    s <- ToString c ;;
    cb <- read contentBuffer ;;
    modify (set_contentBuffer (cb ++ s)) ;;
    emit (SetCurrentContent (cb ++ s))
  else if JS.is_str type "tool_call" then
    n <- lift (JS.get data "tool_name") ;;
    label <- ToString n ;;
    a <- lift (JS.get data "tool_args") ;;
    emit (SetMessages
            (Append (mkMessage tool ("Executing: " ++ label)
                               (Some (mkToolCall n a JS.Undefined)))))
  else if JS.is_str type "tool_result" then
    r <- lift (JS.get data "result") ;;
    emit (SetMessages (StoreToolResult r)) ;;
    n <- lift (JS.get data "tool_name") ;;
    when (JS.is_str n "write_file" || JS.is_str n "edit_file")
      (when onFileModified
         (a <- lift (JS.get data "tool_args") ;;
          emit (OnFileModified (JS.get_opt a "file_path"))))
  else if JS.is_str type "done" then
    tb <- read thinkingBuffer ;;
    when (nonempty tb && showThinking)
      (emit (SetMessages AppendThinking)) ;;
    cb <- read contentBuffer ;;
    when (nonempty cb)
      (emit (SetMessages AppendAssistant)) ;;
    emit (SetCurrentThinking "") ;;
    emit (SetCurrentContent "")
  else if JS.is_str type "error" then
    e <- lift (JS.get data "error") ;;
    error <- lift (JS.new_Error Number_toString e) ;;
    throw error
  else ret tt.

(** What a [thinking] or [content] event carries: for a line that is an
    event of the given kind, the string of its [content] field (empty for
    any other line, and when the field cannot be converted). *)
Definition delta (kind : string) (line : string) : string :=
  if startsWith line "data: " then
    match JSON_parse (slice 6 line) with
    | Some (JS.Obj fields) =>
        if JS.is_str (JS.prop fields "type") kind then
          match JS.ToString Number_toString (JS.prop fields "content") with
          | inr s => s
          | inl _ => ""
          end
        else ""
    | _ => ""
    end
  else "".

(** The deltas of the events of one kind, concatenated in line order. *)
Definition deltas (kind : string) (lines : list string) : string :=
  concat_chunks (map (delta kind) lines).

(** The calls of the [done] branch, given the two accumulated texts at
    the time of the event. *)
Definition finalize (thinkingText contentText : string) : list Effect :=
  (if nonempty thinkingText && showThinking
   then [SetMessages AppendThinking] else [])
  ++ (if nonempty contentText then [SetMessages AppendAssistant] else [])
  ++ [SetCurrentThinking ""; SetCurrentContent ""].

(** One iteration of [for (const line of lines)]. *)
Definition processLine (line : string) : M unit :=
  when (startsWith line "data: ")
    (try_catch (dispatch line)
       (fun e => emit (ConsoleError "Error parsing SSE data:" e))).

(** The locals and the calls after one line, and after a list of lines. *)
Definition step (line : string) (st : Locals) : Locals * list Effect :=
  fst (processLine line st).

Fixpoint steps (lines : list string) (st : Locals) : Locals * list Effect :=
  match lines with
  | [] => (st, [])
  | line :: rest =>
      let (st1, out1) := step line st in
      let (st2, out2) := steps rest st1 in
      (st2, out1 ++ out2)
  end.

(** The message list after the lines of a stream, when React runs the
    updaters queued while line [i] is handled after [delay i] further lines
    have been handled ([delay i = 0]: at the call). *)
Fixpoint render (delay : nat -> nat) (i : nat) (lines : list string)
    (st : Locals) (msgs : list Message) : list Message :=
  match lines with
  | [] => msgs
  | line :: rest =>
      let (st1, out) := step line st in
      let now := fst (steps (firstn (delay i) rest) st1) in
      render delay (S i) rest st1 (messages_after now out msgs)
  end.

(** One iteration of [while (true)] after a successful read. *)
Definition processChunk (chunk : string) : M unit :=
  b <- read buffer ;;
  modify (set_buffer (b ++ chunk)) ;;
  b' <- read buffer ;;
  let (lines, last) := pop (split LF b') in
  modify (set_buffer (or_empty last)) ;;
  forEach lines processLine.

(** [while (true)]: the chunks the transport delivers, then its ending. *)
Fixpoint readLoop (chunks : list string) (ending : Ending) : M unit :=
  match chunks with
  | [] =>
      match ending with
      | Eof => ret tt                                (* [if (done) break] *)
      | Rejected message => throw (JS.Error message)
      end
  | chunk :: rest => processChunk chunk ;; readLoop rest ending
  end.

(** The outer [try]/[catch]/[finally] around the loop: the final locals and
    the trace of calls.  Only a rejected read reaches the [catch], with an
    [Error] and its message (the per-line handler lets nothing escape). *)
Definition run (chunks : list string) (ending : Ending) : Locals * list Effect :=
  match readLoop chunks ending initial with
  | (st, out, inr _) => (st, out ++ [SetIsStreaming false])
  | (st, out, inl error) =>
      (st, out ++ [ConsoleError "Streaming error:" error;
                   SetMessages (Append
                     (mkMessage assistant
                        ("Error: " ++ match error with
                                      | JS.Error message => message
                                      | _ => "Failed to get response"
                                      end)
                        None));
                   SetIsStreaming false])
  end.

Definition handleSendMessage (chunks : list string) (ending : Ending) : list Effect :=
  snd (run chunks ending).

(** The messages on screen once the transport has ended normally and React
    has run every updater, under a given timing of the updaters. *)
Definition rendered_messages (delay : nat -> nat) (chunks : list string)
    (msgs : list Message) : list Message :=
  render delay 0 (complete_lines (concat_chunks chunks)) initial msgs.

End Loop.

End StreamingChatUI.

(** ** [chatApi.streamMessage]: the unbuffered reader loop of the API client

    The model starts at the [while (true)] loop; the three callbacks are
    assumed to return normally. *)

Module ChatApi.

Import JSString.

(** The callbacks the loop invokes, in the order invoked. *)
Inductive Callback : Type :=
| OnChunk (data : string)
| OnComplete
| OnError (message : string).     (* [onError(new Error(message))] *)

(** Whether the [for] body fell through to the next line or executed
    [return]. *)
Inductive Flow : Type := Continue | Return.

Inductive Ending : Type := Eof | Rejected (message : string).

(** The body of [for (const line of lines)]. *)
Definition processLine (line : string) : list Callback * Flow :=
  if startsWith line "data: " then
    let data := slice 6 line in
    if String.eqb data "[DONE]" then ([OnComplete], Return)
    else if startsWith data "[ERROR]" then ([OnError (slice 8 data)], Return)
    else ([OnChunk data], Continue)
  else ([], Continue).

Fixpoint forLines (lines : list string) : list Callback * Flow :=
  match lines with
  | [] => ([], Continue)
  | line :: rest =>
      match processLine line with
      | (out, Return) => (out, Return)
      | (out, Continue) =>
          let (out', flow) := forLines rest in (out ++ out', flow)
      end
  end.

(** [while (true)] inside [try]/[catch]. *)
Fixpoint streamMessage (chunks : list string) (ending : Ending) : list Callback :=
  match chunks with
  | [] =>
      match ending with
      | Eof => [OnComplete]                  (* [if (done) { onComplete(); break }] *)
      | Rejected message => [OnError message]   (* [catch (error) { onError(error) }] *)
      end
  | chunk :: rest =>
      match forLines (split LF chunk) with
      | (out, Return) => out
      | (out, Continue) => out ++ streamMessage rest ending
      end
  end.

End ChatApi.

(** ** [useKeyboardShortcuts]: the [keydown] handler *)

Module Shortcuts.

Import JSString.

(** [document.activeElement], as far as the handler looks at it. *)
Record Element : Type := mkElement {
  tagName : string;
  contenteditable : option string     (* [getAttribute('contenteditable')] *)
}.

Record KeyboardEvent : Type := mkEvent {
  ev_key : string;
  ctrlKey : bool;
  shiftKey : bool;
  altKey : bool;
  metaKey : bool
}.

Section Handlers.

(** The callbacks registered as handlers. *)
Variable Handler : Type.

(** [type KeyboardShortcut]; an optional flag left out is [None]. *)
Record KeyboardShortcut : Type := mkShortcut {
  key : string;
  ctrl : option bool;
  shift : option bool;
  alt : option bool;
  meta : option bool;
  description : string;
  handler : Handler;
  preventDefault : option bool
}.

Inductive Effect : Type :=
| PreventDefault                 (* [event.preventDefault()] *)
| Invoke (h : Handler).          (* [shortcut.handler()] *)

(** [flag === undefined || flag === held] *)
Definition matchesFlag (flag : option bool) (held : bool) : bool :=
  match flag with
  | None => true
  | Some b => Bool.eqb b held
  end.

(** Truthiness of an optional flag. *)
Definition truthy (flag : option bool) : bool :=
  match flag with
  | Some true => true
  | _ => false
  end.

Definition isInputField (activeElement : option Element) : bool :=
  match activeElement with
  | None => false
  | Some el =>
      String.eqb (tagName el) "INPUT"
      || String.eqb (tagName el) "TEXTAREA"
      || match contenteditable el with
         | Some v => String.eqb v "true"
         | None => false
         end
  end.

Definition matchesKey (event : KeyboardEvent) (shortcut : KeyboardShortcut) : bool :=
  String.eqb (toLowerCase (ev_key event)) (toLowerCase (key shortcut)).

Definition cmdOrCtrl (event : KeyboardEvent) : bool :=
  ctrlKey event || metaKey event.

Definition matchesModifier (event : KeyboardEvent) (shortcut : KeyboardShortcut) : bool :=
  let matchesCtrl := matchesFlag (ctrl shortcut) (ctrlKey event) in
  let matchesShift := matchesFlag (shift shortcut) (shiftKey event) in
  let matchesAlt := matchesFlag (alt shortcut) (altKey event) in
  let matchesMeta := matchesFlag (meta shortcut) (metaKey event) in
  if truthy (ctrl shortcut) || truthy (meta shortcut)
  then cmdOrCtrl event && matchesShift && matchesAlt
  else matchesCtrl && matchesShift && matchesAlt && matchesMeta.

(** The guard of the [continue] inside a match. *)
Definition suppressed (inInput : bool) (event : KeyboardEvent)
    (shortcut : KeyboardShortcut) : bool :=
  inInput && negb (String.eqb (key shortcut) "Escape") && negb (cmdOrCtrl event).

(** A shortcut that passes every test of the loop body: key, modifiers and
    the input-field guard. *)
Definition eligible (inInput : bool) (event : KeyboardEvent)
    (shortcut : KeyboardShortcut) : bool :=
  matchesKey event shortcut && matchesModifier event shortcut
  && negb (suppressed inInput event shortcut).

(** The [for (const shortcut of shortcutsRef.current)] loop. *)
Fixpoint scan (inInput : bool) (event : KeyboardEvent)
    (shortcuts : list KeyboardShortcut) : list Effect :=
  match shortcuts with
  | [] => []
  | shortcut :: rest =>
      if matchesKey event shortcut && matchesModifier event shortcut then
        if suppressed inInput event shortcut then
          scan inInput event rest                                 (* [continue] *)
        else
          (match preventDefault shortcut with
           | Some false => []
           | _ => [PreventDefault]
           end) ++ [Invoke (handler shortcut)]                    (* [break] *)
      else scan inInput event rest
  end.

Definition handleKeyDown (activeElement : option Element)
    (shortcuts : list KeyboardShortcut) (event : KeyboardEvent) : list Effect :=
  scan (isInputField activeElement) event shortcuts.

(** The handlers a trace invokes. *)
Fixpoint invoked (trace : list Effect) : list Handler :=
  match trace with
  | [] => []
  | Invoke h :: rest => h :: invoked rest
  | PreventDefault :: rest => invoked rest
  end.

End Handlers.

Arguments mkShortcut {Handler}.
Arguments key {Handler}.
Arguments ctrl {Handler}.
Arguments shift {Handler}.
Arguments alt {Handler}.
Arguments meta {Handler}.
Arguments description {Handler}.
Arguments handler {Handler}.
Arguments preventDefault {Handler}.
Arguments PreventDefault {Handler}.
Arguments Invoke {Handler}.
Arguments matchesKey {Handler}.
Arguments matchesModifier {Handler}.
Arguments suppressed {Handler}.
Arguments eligible {Handler}.
Arguments scan {Handler}.
Arguments handleKeyDown {Handler}.
Arguments invoked {Handler}.

End Shortcuts.

(** ** The matching rule, in the words of the specification

    What it is for a descriptor to satisfy the constraints of the rule,
    written from the sentences of the specification and not from the code,
    to be compared with the tests of [handleKeyDown]; then the guard that
    the handler adds for input fields, as a proposition. *)

Module MatchingRule.

Import JSString Shortcuts.

(** An unset flag means don't care for that modifier; a flag that is set
    asks for that state of the modifier. *)
Definition flag_allows (flag : option bool) (held : bool) : Prop :=
  flag = None \/ flag = Some held.

(** The focus is inside a text input, a textarea or a content-editable
    element. *)
Definition in_input_field (activeElement : option Element) : Prop :=
  exists el,
    activeElement = Some el
    /\ (tagName el = "INPUT" \/ tagName el = "TEXTAREA"
        \/ contenteditable el = Some "true").

Section Rule.

Variable Handler : Type.
Implicit Types (event : KeyboardEvent) (shortcut : KeyboardShortcut Handler).

(** Key comparison is case-insensitive. *)
Definition same_key event shortcut : Prop :=
  toLowerCase (ev_key event) = toLowerCase (key shortcut).

(** A descriptor requesting ctrl or meta. *)
Definition requests_ctrl_or_meta shortcut : Prop :=
  ctrl shortcut = Some true \/ meta shortcut = Some true.

(** Shift and alt follow their flags.  A descriptor requesting ctrl or
    meta is satisfied by either of those keys being held, whatever its two
    flags say otherwise; for any other descriptor ctrl and meta follow
    their flags too. *)
Definition modifiers_allow event shortcut : Prop :=
  flag_allows (shift shortcut) (shiftKey event)
  /\ flag_allows (alt shortcut) (altKey event)
  /\ ((requests_ctrl_or_meta shortcut
       /\ (ctrlKey event = true \/ metaKey event = true))
      \/ (~ requests_ctrl_or_meta shortcut
          /\ flag_allows (ctrl shortcut) (ctrlKey event)
          /\ flag_allows (meta shortcut) (metaKey event))).

(** A descriptor that satisfies all constraints of the matching rule. *)
Definition satisfies event shortcut : Prop :=
  same_key event shortcut /\ modifiers_allow event shortcut.

(** A descriptor held back while the focus is in an input field, as the
    handler does it: its key is not written [Escape] and the event has
    neither ctrl nor meta. *)
Definition held_back (inInput : bool) event shortcut : Prop :=
  inInput = true /\ key shortcut <> "Escape"
  /\ ctrlKey event = false /\ metaKey event = false.

(** A descriptor that satisfies the rule and is not held back. *)
Definition fires (inInput : bool) event shortcut : Prop :=
  satisfies event shortcut /\ ~ held_back inInput event shortcut.

End Rule.

Arguments same_key {Handler}.
Arguments requests_ctrl_or_meta {Handler}.
Arguments modifiers_allow {Handler}.
Arguments satisfies {Handler}.
Arguments held_back {Handler}.
Arguments fires {Handler}.

End MatchingRule.

(** ** [Number.prototype.toString] of a JSON number

    [JSON.parse] turns a number literal into the double nearest to it
    (ties to the even significand), and [String] prints a double with the
    fewest digits that denote it, in positional form when the decimal
    point falls within 21 digits before or 6 zeros after it and in
    exponent form otherwise.  All of it is exact integer arithmetic. *)

Module JSNumber.

(** The literal [-]int[.frac][e[+|-]digits] denotes
    [coefficient * 10 ^ exponent10], negated when [negative]. *)
Record Literal : Type := mkLiteral {
  negative : bool;
  coefficient : Z;
  exponent10 : Z
}.

Fixpoint digits_value (acc : Z) (s : string) : Z :=
  match s with
  | EmptyString => acc
  | String c rest =>
      digits_value (10 * acc + Z.of_nat (nat_of_ascii c - 48)) rest
  end.

Definition read (lit : string) : Literal :=
  let (neg, s1) :=
    match lit with
    | String c rest => if Ascii.eqb c "-"%char then (true, rest) else (false, lit)
    | EmptyString => (false, lit)
    end in
  let (int, s2) := JSON.digits s1 in
  let (frac, s3) :=
    match s2 with
    | String c rest =>
        if Ascii.eqb c "."%char then JSON.digits rest else (EmptyString, s2)
    | EmptyString => (EmptyString, s2)
    end in
  let x :=
    match s3 with
    | String _ rest =>                       (* [e] or [E] *)
        match rest with
        | String g t =>
            if Ascii.eqb g "-"%char then (- digits_value 0 (fst (JSON.digits t)))%Z
            else if Ascii.eqb g "+"%char then digits_value 0 (fst (JSON.digits t))
            else digits_value 0 (fst (JSON.digits rest))
        | EmptyString => 0%Z
        end
    | EmptyString => 0%Z
    end in
  mkLiteral neg (digits_value 0 (int ++ frac))
            (x - Z.of_nat (String.length frac))%Z.

(** A double that is not negative: zero, infinity, or [m * 2 ^ e] with
    [m] below [2 ^ 53], [e] from -1074 to 971, and [m] at least [2 ^ 52]
    unless [e] is -1074 (the subnormal numbers). *)
Inductive Double : Type :=
| Zero
| Finite (m e : Z)
| Infinity.

Definition Double_eqb (x y : Double) : bool :=
  match x, y with
  | Zero, Zero => true
  | Infinity, Infinity => true
  | Finite m e, Finite m' e' => (Z.eqb m m' && Z.eqb e e')%bool
  | _, _ => false
  end.

(** [n / d] rounded to the nearest integer, a tie going to the even one. *)
Definition round_div (n d : Z) : Z :=
  let q := (n / d)%Z in
  let r := (n mod d)%Z in
  if (2 * r <? d)%Z then q
  else if (d <? 2 * r)%Z then (q + 1)%Z
  else if Z.even q then q else (q + 1)%Z.

(** Numerator and denominator of [num / (den * base ^ e)]. *)
Definition scaled (base num den e : Z) : Z * Z :=
  if (0 <=? e)%Z then (num, (den * base ^ e)%Z)
  else ((num * base ^ (- e))%Z, den).

(** The double nearest to [c * 10 ^ e10], for [c] not negative. *)
Definition to_double (c e10 : Z) : Double :=
  if (c =? 0)%Z then Zero
  else
    let (num, den) := scaled 10 c 1 (- e10) in
    (* [2 ^ 51 < num / (den * 2 ^ e0) < 2 ^ 53] *)
    let e0 := (Z.log2 num - Z.log2 den - 52)%Z in
    let q0 := let (n, d) := scaled 2 num den e0 in (n / d)%Z in
    let e1 := if (q0 <? 2 ^ 52)%Z then (e0 - 1)%Z else e0 in
    let e2 := Z.max e1 (-1074) in
    let m := let (n, d) := scaled 2 num den e2 in round_div n d in
    let (m', e') := if (m =? 2 ^ 53)%Z then ((2 ^ 52)%Z, (e2 + 1)%Z) else (m, e2) in
    if (m' =? 0)%Z then Zero
    else if (971 <? e')%Z then Infinity
    else Finite m' e'.

(** Whether [a / b < 10 ^ n]. *)
Definition below_pow10 (a b n : Z) : bool :=
  let (x, y) := scaled 10 a b n in (x <? y)%Z.

Fixpoint search_down (fuel : nat) (a b n : Z) : Z :=
  match fuel with
  | O => n
  | S f => if below_pow10 a b (n - 1) then search_down f a b (n - 1)%Z else n
  end.

Fixpoint search_up (fuel : nat) (a b n : Z) : Z :=
  match fuel with
  | O => n
  | S f => if below_pow10 a b n then n else search_up f a b (n + 1)%Z
  end.

(** The [n] with [10 ^ (n - 1) <= a / b < 10 ^ n], for [a / b] in the
    range of the doubles. *)
Definition magnitude (a b : Z) : Z :=
  search_down 700 a b (search_up 700 a b 0).

(** The digits [s] (a number of [k] digits, or [10 ^ k]) for which
    [s * 10 ^ (n - k)] is nearest to [a / b] among those that denote the
    double [x], if there is one. *)
Definition nearest (x : Double) (a b n k : Z) : option Z :=
  let (num, den) := scaled 10 a b (n - k) in
  let low := (num / den)%Z in
  let r := (num mod den)%Z in
  let ok s := Double_eqb (to_double s (n - k)) x in
  match ok low, ok (low + 1)%Z with
  | true, true =>
      if (2 * r <? den)%Z then Some low
      else if (den <? 2 * r)%Z then Some (low + 1)%Z
      else if Z.even low then Some low else Some (low + 1)%Z
  | true, false => Some low
  | false, true => Some (low + 1)%Z
  | false, false => None
  end.

(** The fewest digits: [k] from 1 up. *)
Fixpoint shortest (fuel : nat) (x : Double) (a b n k : Z) : Z * Z * Z :=
  match fuel with
  | O => (0, 1, n)%Z
  | S f =>
      match nearest x a b n k with
      | Some s =>
          if (s =? 10 ^ k)%Z then ((10 ^ (k - 1))%Z, k, (n + 1)%Z) else (s, k, n)
      | None => shortest f x a b n (k + 1)%Z
      end
  end.

Fixpoint decimal (fuel : nat) (z : Z) (acc : string) : string :=
  match fuel with
  | O => acc
  | S f =>
      let acc' := String (ascii_of_nat (48 + Z.to_nat (z mod 10))) acc in
      if (z <? 10)%Z then acc' else decimal f (z / 10)%Z acc'
  end.

(** The decimal digits of a number that is not negative. *)
Definition digits_of (z : Z) : string :=
  decimal (S (Z.to_nat (Z.log2 z))) z EmptyString.

Fixpoint zeros (n : nat) : string :=
  match n with
  | O => EmptyString
  | S n' => String "0"%char (zeros n')
  end.

(** [Number::toString] for the digits [ds] (there are [k]) and the
    position [n] of the decimal point. *)
Definition layout (ds : string) (k n : Z) : string :=
  if ((-5 <=? n) && (n <=? 21))%Z%bool then
    if (k <=? n)%Z then (ds ++ zeros (Z.to_nat (n - k)))%string
    else if (0 <? n)%Z then
      (substring 0 (Z.to_nat n) ds ++ "."
       ++ substring (Z.to_nat n) (Z.to_nat (k - n)) ds)%string
    else ("0." ++ zeros (Z.to_nat (- n)) ++ ds)%string
  else
    let e := (n - 1)%Z in
    let sign := if (e <? 0)%Z then "-" else "+" in
    let exponent := ("e" ++ sign ++ digits_of (Z.abs e))%string in
    if (k =? 1)%Z then (ds ++ exponent)%string
    else (substring 0 1 ds ++ "."
          ++ substring 1 (Z.to_nat (k - 1)) ds ++ exponent)%string.

(** [String(JSON.parse(lit))] for a number literal [lit]. *)
Definition toString (lit : string) : string :=
  let l := read lit in
  let sign := if negative l then "-" else "" in
  match to_double (coefficient l) (exponent10 l) with
  | Zero => "0"
  | Infinity => (sign ++ "Infinity")%string
  | Finite m e =>
      let (a, b) := scaled 2 m 1 (- e) in
      let n := magnitude a b in
      match shortest 17 (Finite m e) a b n 1 with
      | (s, k, n') => (sign ++ layout (digits_of s) k n')%string
      end
  end.

End JSNumber.

(** ** The code at concrete wire text

    The reader loop with the parser and the number printer above. *)

Module Concrete.

Import JSString.

(** One line of the wire format: [data: ], the payload, a line feed. *)
Definition sse (payload : string) : string := "data: " ++ payload ++ nl.

(** [String(n)] for the number that the literal [lit] denotes. *)
Definition number_text (lit : string) : string := JSNumber.toString lit.

(** A line without its line feed, a [content] event and the typed [done]
    event. *)
Definition data (payload : string) : string := "data: " ++ payload.
Definition content_line (text : string) : string :=
  sse (jsq "{'type':'content','content':'" ++ text ++ jsq "'}").
Definition done_line : string := sse (jsq "{'type':'done'}").

Definition handleSendMessage (showThinking onFileModified : bool)
    (chunks : list string) (ending : StreamingChatUI.Ending)
  : list StreamingChatUI.Effect :=
  StreamingChatUI.handleSendMessage JSON.parse number_text
    showThinking onFileModified chunks ending.

Definition processLine (showThinking onFileModified : bool) (line : string)
  : StreamingChatUI.M unit :=
  StreamingChatUI.processLine JSON.parse number_text
    showThinking onFileModified line.

Definition rendered_messages (showThinking onFileModified : bool)
    (delay : nat -> nat) (chunks : list string)
    (msgs : list StreamingChatUI.Message) : list StreamingChatUI.Message :=
  StreamingChatUI.rendered_messages JSON.parse number_text
    showThinking onFileModified delay chunks msgs.

End Concrete.

(** ** The events of the stream

    What one line of the stream is to [handleSendMessage], read off the
    line alone, and what the loop does with it. *)

Module Events.

Import JSString StreamingChatUI.

Inductive Decoded : Type :=
| Ignored                               (* no [data: ] prefix, or no branch taken *)
| Logged (e : JS.Exn)                   (* the per-line [catch] logs [e] *)
| ThinkingEvent (text : JS.Exn + string)
| ContentEvent (text : JS.Exn + string)
| ToolCallEvent (name args : JS.value) (label : string)
| ToolResultEvent (name args result : JS.value)
| DoneEvent.

Section Decode.

Variable JSON_parse : string -> option JS.value.
Variable Number_toString : string -> string.
Variable showThinking : bool.
Variable onFileModified : bool.

Definition decode (line : string) : Decoded :=
  if startsWith line "data: " then
    match JSON_parse (slice 6 line) with
    | None => Logged JS.SyntaxError
    | Some (JS.Obj fields) =>
        let type := JS.prop fields "type" in
        if JS.is_str type "thinking" then
          ThinkingEvent (JS.ToString Number_toString (JS.prop fields "content"))
        else if JS.is_str type "content" then
          ContentEvent (JS.ToString Number_toString (JS.prop fields "content"))
        else if JS.is_str type "tool_call" then
          match JS.ToString Number_toString (JS.prop fields "tool_name") with
          | inr label =>
              ToolCallEvent (JS.prop fields "tool_name")
                            (JS.prop fields "tool_args") label
          | inl e => Logged e
          end
        else if JS.is_str type "tool_result" then
          ToolResultEvent (JS.prop fields "tool_name")
                          (JS.prop fields "tool_args")
                          (JS.prop fields "result")
        else if JS.is_str type "done" then DoneEvent
        else if JS.is_str type "error" then
          match JS.new_Error Number_toString (JS.prop fields "error") with
          | inr error => Logged error
          | inl e => Logged e
          end
        else Ignored
    | Some JS.Null | Some JS.Undefined => Logged JS.TypeError
    | Some _ => Ignored
    end
  else Ignored.

Definition log (e : JS.Exn) : Effect := ConsoleError "Error parsing SSE data:" e.

Definition apply (d : Decoded) (st : Locals) : Locals * list Effect :=
  match d with
  | Ignored => (st, [])
  | Logged e => (st, [log e])
  | ThinkingEvent (inr s) =>
      (set_thinkingBuffer (thinkingBuffer st ++ s) (set_inThinking true st),
       [SetCurrentThinking (thinkingBuffer st ++ s)])
  | ThinkingEvent (inl e) => (set_inThinking true st, [log e])
  | ContentEvent (inr s) =>
      (set_contentBuffer (contentBuffer st ++ s)
         (set_inAnswer true (set_inThinking false st)),
       [SetCurrentContent (contentBuffer st ++ s)])
  | ContentEvent (inl e) => (set_inAnswer true (set_inThinking false st), [log e])
  | ToolCallEvent name args label =>
      (st, [SetMessages
              (Append (mkMessage tool ("Executing: " ++ label)
                                 (Some (mkToolCall name args JS.Undefined))))])
  | ToolResultEvent name args result =>
      (st,
       SetMessages (StoreToolResult result)
       :: (if (JS.is_str name "write_file" || JS.is_str name "edit_file")
              && onFileModified
           then [OnFileModified (JS.get_opt args "file_path")]
           else []))
  | DoneEvent => (st, finalize showThinking (thinkingBuffer st) (contentBuffer st))
  end.

End Decode.

End Events.

(** ** [renderMessage]: the badge of a tool message

    Of the markup of the [tool] branch, the two conditions that depend on
    the result of the tool call. *)

Module ToolBadge.

Import StreamingChatUI.

Section Truthiness.

(** Whether a number literal denotes zero (the only falsy number that
    [JSON.parse] can produce); floating point is outside the model. *)
Variable Number_is_zero : string -> bool.

(** [!!v] *)
Definition truthy (v : JS.value) : bool :=
  match v with
  | JS.Undefined | JS.Null => false
  | JS.Bool b => b
  | JS.Num lit => negb (Number_is_zero lit)
  | JS.Str s => nonempty s
  | JS.Arr _ | JS.Obj _ => true
  end.

(** [message.toolCall?.result] *)
Definition optional_result (m : Message) : JS.value :=
  match toolCall m with
  | Some tc => result tc
  | None => JS.Undefined
  end.

(** [{!message.toolCall?.result && <Loader2 ... animate-spin />}] *)
Definition showsSpinner (m : Message) : bool := negb (truthy (optional_result m)).

(** [{message.toolCall?.result && (... Complete ...)}] *)
Definition showsComplete (m : Message) : bool := truthy (optional_result m).

End Truthiness.

End ToolBadge.

(** ** [handleSendMessage], whole: the guard, the request, the stream

    [StreamingChatUI.handleSendMessage] above starts at the read loop; here
    the function is taken from its first line, with what [fetch] answers as
    an input. *)

Module SendMessage.

Import JSString StreamingChatUI.

(** White space and line terminators among the code units of the model:
    TAB, LF, VT, FF, CR, SP and NBSP. *)
Definition is_space (c : ascii) : bool :=
  let n := nat_of_ascii c in
  (Nat.leb 9 n && Nat.leb n 13) || Nat.eqb n 32 || Nat.eqb n 160.

Fixpoint trimStart (s : string) : string :=
  match s with
  | EmptyString => EmptyString
  | String c rest => if is_space c then trimStart rest else s
  end.

Fixpoint trimEnd (s : string) : string :=
  match s with
  | EmptyString => EmptyString
  | String c rest =>
      match trimEnd rest with
      | EmptyString => if is_space c then EmptyString else String c EmptyString
      | rest' => String c rest'
      end
  end.

(** [String.prototype.trim] *)
Definition trim (s : string) : string := trimEnd (trimStart s).

(** A text made of white space only. *)
Fixpoint blank (s : string) : bool :=
  match s with
  | EmptyString => true
  | String c rest => is_space c && blank rest
  end.

(** What [fetch] and the response give the handler. *)
Inductive Response : Type :=
| FetchRejected (message : string)   (* [fetch] rejects with an [Error] *)
| NotOk (status : string)            (* [!response.ok]; the text of [response.status] *)
| NoBody                             (* [response.body?.getReader()] is undefined *)
| Body (chunks : list string) (ending : Ending).

(** The calls of the whole handler, in the order made. *)
Inductive Call : Type :=
| SetInput (s : string)
| Fetch (messages : list (string * string))   (* the [messages] of the body: role, content *)
| UI (e : Effect).

Definition role_name (r : Role) : string :=
  match r with
  | user => "user"
  | assistant => "assistant"
  | thinking => "thinking"
  | tool => "tool"
  end.

(** [m.role === 'thinking' || m.role === 'tool' ? 'assistant' : m.role] *)
Definition request_role (r : Role) : string :=
  match r with
  | thinking | tool => "assistant"
  | _ => role_name r
  end.

(** The outer [catch] and [finally] for [throw new Error(message)]. *)
Definition failed (message : string) : list Effect :=
  [ConsoleError "Streaming error:" (JS.Error message);
   SetMessages (Append (mkMessage assistant ("Error: " ++ message) None));
   SetIsStreaming false].

(** The calls on the component's state among the calls of a trace, and the
    bodies of its requests. *)
Fixpoint ui (calls : list Call) : list Effect :=
  match calls with
  | [] => []
  | UI e :: rest => e :: ui rest
  | _ :: rest => ui rest
  end.

Fixpoint requests (calls : list Call) : list (list (string * string)) :=
  match calls with
  | [] => []
  | Fetch body :: rest => body :: requests rest
  | _ :: rest => requests rest
  end.

Section Handler.

Variable JSON_parse : string -> option JS.value.
Variable Number_toString : string -> string.
Variable showThinking : bool.
Variable onFileModified : bool.

(** What the handler does once [fetch] has answered. *)
Definition answered (response : Response) : list Effect :=
  match response with
  | FetchRejected message => failed message
  | NotOk status => failed ("HTTP error! status: " ++ status)%string
  | NoBody => failed "No response body"
  | Body chunks ending =>
      StreamingChatUI.handleSendMessage
        JSON_parse Number_toString showThinking onFileModified chunks ending
  end.

(** [input], [isStreaming] and [messages] are the state the handler
    closes over. *)
Definition handleSendMessage (input : string) (isStreaming : bool)
    (messages : list Message) (response : Response) : list Call :=
  if negb (nonempty (trim input)) || isStreaming then []
  else
    let userMessage := mkMessage user (trim input) None in
    [UI (SetMessages (Append userMessage));
     SetInput "";
     UI (SetIsStreaming true);
     UI (SetCurrentThinking "");
     UI (SetCurrentContent "");
     Fetch (map (fun m => (request_role (role m), content m))
                (messages ++ [userMessage]))]
    ++ map UI (answered response).

End Handler.

(** The message of the [Error] that reaches the outer [catch], if any. *)
Definition failure (response : Response) : option string :=
  match response with
  | FetchRejected message => Some message
  | NotOk status => Some ("HTTP error! status: " ++ status)%string
  | NoBody => Some "No response body"
  | Body _ (Rejected message) => Some message
  | Body _ Eof => None
  end.

(** Whether a call appends an assistant message. *)
Definition appends_assistant (c : Call) : bool :=
  match c with
  | UI (SetMessages (Append m)) =>
      match role m with assistant => true | _ => false end
  | _ => false
  end.

Definition sets_streaming (c : Call) : bool :=
  match c with
  | UI (SetIsStreaming _) => true
  | _ => false
  end.

End SendMessage.

(** ** Payloads of [data: ] lines *)

Module Payload.

Import JSString.

(** A payload that fits on one line and is neither of the two sentinels of
    [chatApi.streamMessage]. *)
Definition ordinary (p : string) : bool :=
  no_LF p && negb (String.eqb p "[DONE]") && negb (startsWith p "[ERROR]").

(** The chunk made of one [data: ] line per payload. *)
Definition lines_of (payloads : list string) : string :=
  terminated (map Concrete.data payloads).

(** The two kinds of callback of [chatApi.streamMessage]. *)
Definition is_chunk (cb : ChatApi.Callback) : Prop :=
  exists data, cb = ChatApi.OnChunk data.

Definition is_terminal (cb : ChatApi.Callback) : Prop :=
  cb = ChatApi.OnComplete \/ exists message, cb = ChatApi.OnError message.

End Payload.

(** ** The shortcut lists the components register *)

(** [UndoRedoPanel]: [useKeyboardShortcuts([{ key: 'z', ctrl: true, ... },
    { key: 'z', ctrl: true, shift: true, ... }])]. *)
Module UndoRedoPanel.

Inductive Handler : Type := handleUndo | handleRedo.

Definition shortcuts : list (Shortcuts.KeyboardShortcut Handler) :=
  [Shortcuts.mkShortcut "z" (Some true) None None None "Undo" handleUndo None;
   Shortcuts.mkShortcut "z" (Some true) (Some true) None None "Redo" handleRedo None].

End UndoRedoPanel.

(** [App]: the command palette, the chat toggle and [Escape]. *)
Module App.

Inductive Handler : Type :=
| openCommandPalette      (* [() => setShowCommandPalette(true)] *)
| toggleChat              (* [() => setActiveView(activeView === 'chat' ? 'code' : 'chat')] *)
| closeModals.            (* the three [set...(false)] calls *)

Definition shortcuts : list (Shortcuts.KeyboardShortcut Handler) :=
  [Shortcuts.mkShortcut "k" (Some true) None None None
     "Open command palette" openCommandPalette None;
   Shortcuts.mkShortcut "/" (Some true) None None None
     "Toggle AI chat" toggleChat None;
   Shortcuts.mkShortcut "Escape" None None None None
     "Close modals" closeModals None].

End App.

(** ** [CommandPalette]: the search filter and the keyboard navigation *)

Module CommandPalette.

Import JSString.

(** [s.includes(t)] *)
Fixpoint includes (s t : string) : bool :=
  String.prefix t s
  || match s with
     | EmptyString => false
     | String _ s' => includes s' t
     end.

(** A function passed to [setSelectedIndex]; the length of
    [filteredCommands] is that of the render whose handler made the call. *)
Inductive IndexUpdater : Type :=
| Next (length : nat)     (* [prev => Math.min(prev + 1, filteredCommands.length - 1)] *)
| Previous.               (* [prev => Math.max(prev - 1, 0)] *)

Definition run_index (u : IndexUpdater) (prev : Z) : Z :=
  match u with
  | Next length => Z.min (prev + 1) (Z.of_nat length - 1)
  | Previous => Z.max (prev - 1) 0
  end.

Section Palette.

(** The [action] callbacks of the commands. *)
Variable Action : Type.

(** [interface CommandItem]; [icon] and [shortcut] only matter to the
    layout. *)
Record CommandItem : Type := mkCommand {
  id : string;
  label : string;
  description : option string;
  category : option string;
  action : Action
}.

(** [field?.toLowerCase().includes(search.toLowerCase())], as a condition. *)
Definition optional_includes (field : option string) (search : string) : bool :=
  match field with
  | Some text => includes (toLowerCase text) (toLowerCase search)
  | None => false
  end.

Definition matches (search : string) (cmd : CommandItem) : bool :=
  includes (toLowerCase (label cmd)) (toLowerCase search)
  || optional_includes (description cmd) search
  || optional_includes (category cmd) search.

Definition filteredCommands (commands : list CommandItem) (search : string)
  : list CommandItem :=
  filter (matches search) commands.

Inductive Effect : Type :=
| OnClose
| PreventDefault
| SetSelectedIndex (u : IndexUpdater)
| RunAction (a : Action).

(** [filteredCommands[selectedIndex]] for an integer index. *)
Definition at_index (commands : list CommandItem) (i : Z) : option CommandItem :=
  if (i <? 0)%Z then None else nth_error commands (Z.to_nat i).

(** The [keydown] listener of the render with the given [isOpen],
    [filteredCommands] and [selectedIndex]. *)
Definition handleKeyDown (isOpen : bool) (filtered : list CommandItem)
    (selectedIndex : Z) (key : string) : list Effect :=
  if negb isOpen then []
  else if String.eqb key "Escape" then [OnClose]
  else if String.eqb key "ArrowDown" then
    [PreventDefault; SetSelectedIndex (Next (length filtered))]
  else if String.eqb key "ArrowUp" then
    [PreventDefault; SetSelectedIndex Previous]
  else if String.eqb key "Enter" then
    PreventDefault
    :: match at_index filtered selectedIndex with
       | Some selectedCommand => [RunAction (action selectedCommand); OnClose]
       | None => []
       end
  else [].

(** The state of the open palette, and what the user does to it: a key
    press, or an edit of the search box ([onChange], which also resets the
    selection).  Every event is handled by the listener of the latest
    render. *)
Record State : Type := mkState {
  search : string;
  selectedIndex : Z
}.

Inductive Event : Type :=
| KeyDown (key : string)
| Change (value : string).

Definition apply_effect (i : Z) (e : Effect) : Z :=
  match e with
  | SetSelectedIndex u => run_index u i
  | _ => i
  end.

Definition step (commands : list CommandItem) (st : State) (ev : Event) : State :=
  match ev with
  | KeyDown key =>
      mkState (search st)
        (fold_left apply_effect
           (handleKeyDown true (filteredCommands commands (search st))
              (selectedIndex st) key)
           (selectedIndex st))
  | Change value => mkState value 0
  end.

(** [setSearch(''); setSelectedIndex(0)] when the palette opens. *)
Definition opened : State := mkState "" 0.

(** The events that leave the palette open. *)
Definition stays_open (ev : Event) : bool :=
  match ev with
  | KeyDown key => negb (String.eqb key "Escape") && negb (String.eqb key "Enter")
  | Change _ => true
  end.

(** The selection is on the list: inside it when it has entries, at 0 or
    -1 when it has none. *)
Definition selection_ok (commands : list CommandItem) (st : State) : Prop :=
  let n := Z.of_nat (length (filteredCommands commands (search st))) in
  (0 <= selectedIndex st < n)%Z
  \/ (n = 0%Z /\ (-1 <= selectedIndex st <= 0)%Z).

End Palette.

Arguments selection_ok {Action}.
Arguments mkCommand {Action}.
Arguments id {Action}.
Arguments label {Action}.
Arguments description {Action}.
Arguments category {Action}.
Arguments action {Action}.
Arguments matches {Action}.
Arguments filteredCommands {Action}.
Arguments OnClose {Action}.
Arguments PreventDefault {Action}.
Arguments SetSelectedIndex {Action}.
Arguments RunAction {Action}.
Arguments at_index {Action}.
Arguments handleKeyDown {Action}.
Arguments apply_effect {Action}.
Arguments step {Action}.

End CommandPalette.

(** ** [Map] with string keys

    The entries in insertion order, one per key. *)

Module JSMap.

Section Entries.

Variable V : Type.

Definition t : Type := list (string * V).

(** [m.get(k)] *)
Fixpoint get (k : string) (m : t) : option V :=
  match m with
  | [] => None
  | (k', v) :: rest => if String.eqb k' k then Some v else get k rest
  end.

(** [m.set(k, v)]: an existing key keeps its place, a new one goes last. *)
Fixpoint set (k : string) (v : V) (m : t) : t :=
  match m with
  | [] => [(k, v)]
  | (k', v') :: rest =>
      if String.eqb k' k then (k, v) :: rest else (k', v') :: set k v rest
  end.

(** [m.delete(k)] *)
Definition delete (k : string) (m : t) : t :=
  filter (fun entry => negb (String.eqb (fst entry) k)) m.

(** [Array.from(m.keys())] *)
Definition keys (m : t) : list string := map fst m.

(** [m.has(k)] *)
Definition has (k : string) (m : t) : bool :=
  match get k m with
  | Some _ => true
  | None => false
  end.

End Entries.

Arguments get {V}.
Arguments set {V}.
Arguments delete {V}.
Arguments keys {V}.
Arguments has {V}.

End JSMap.

(** ** [useChatStore]: the conversations

    [addMessage] changes the conversation object it finds in the current
    state and pushes onto its [messages] array before it stores a copy, so
    objects and arrays are kept in a heap and named by reference.  The ids
    that [createConversation] makes from the clock and [Math.random] are
    an argument; dates, message ids and [metadata] are left out. *)

Module ChatStore.

Inductive Role : Type := user | assistant | system.

Definition is_user (r : Role) : bool :=
  match r with user => true | _ => false end.

Record Message : Type := mkMessage {
  role : Role;
  content : string
}.

Definition Ref : Type := nat.

Record Conversation : Type := mkConversation {
  id : string;
  title : string;
  messages : Ref            (* the array of messages *)
}.

Record Heap : Type := mkHeap {
  objects : list Conversation;
  arrays : list (list Message)
}.

(** [Map<string, Conversation>] *)
Definition Map : Type := JSMap.t Ref.
Abbreviation Map_get := (@JSMap.get Ref).
Abbreviation Map_set := (@JSMap.set Ref).
Abbreviation Map_delete := (@JSMap.delete Ref).
Abbreviation Map_keys := (@JSMap.keys Ref).

Record State : Type := mkState {
  conversations : Map;
  currentConversationId : option string;
  isLoading : bool
}.

Record Store : Type := mkStore {
  heap : Heap;
  state : State
}.

Definition empty : Store := mkStore (mkHeap [] []) (mkState [] None false).

Fixpoint replace_nth {A : Type} (i : nat) (x : A) (l : list A) : list A :=
  match i, l with
  | _, [] => []
  | O, _ :: rest => x :: rest
  | S i', y :: rest => y :: replace_nth i' x rest
  end.

Definition get_object (h : Heap) (r : Ref) : option Conversation :=
  nth_error (objects h) r.
Definition get_array (h : Heap) (r : Ref) : option (list Message) :=
  nth_error (arrays h) r.
Definition set_object (r : Ref) (c : Conversation) (h : Heap) : Heap :=
  mkHeap (replace_nth r c (objects h)) (arrays h).
Definition set_array (r : Ref) (a : list Message) (h : Heap) : Heap :=
  mkHeap (objects h) (replace_nth r a (arrays h)).
Definition new_object (c : Conversation) (h : Heap) : Heap * Ref :=
  (mkHeap (objects h ++ [c]) (arrays h), length (objects h)).
Definition new_array (a : list Message) (h : Heap) : Heap * Ref :=
  (mkHeap (objects h) (arrays h ++ [a]), length (arrays h)).

Definition createConversation (fresh : string) (s : Store) : Store :=
  let (h1, array) := new_array [] (heap s) in
  let (h2, conversation) :=
    new_object (mkConversation fresh "New Conversation" array) h1 in
  mkStore h2
    (mkState (Map_set fresh conversation (conversations (state s)))
             (Some fresh)
             (isLoading (state s))).

(** [content.substring(0, 50) + (content.length > 50 ? '...' : '')] *)
Definition summary (content : string) : string :=
  (substring 0 50 content
   ++ if Nat.ltb 50 (String.length content) then "..." else "")%string.

Definition addMessage (conversationId : string) (message : Message) (s : Store)
  : Store :=
  match Map_get conversationId (conversations (state s)) with
  | None => s                                       (* [if (!conversation) return] *)
  | Some r =>
      match get_object (heap s) r with
      | None => s
      | Some conversation =>
          match get_array (heap s) (messages conversation) with
          | None => s
          | Some msgs =>
              let conversation' :=
                if Nat.eqb (length msgs) 0 && is_user (role message)
                then mkConversation (id conversation) (summary (content message))
                                    (messages conversation)
                else conversation in
              (* [conversation.title = ...] *)
              let h1 := set_object r conversation' (heap s) in
              (* [conversation.messages.push(newMessage)] *)
              let h2 := set_array (messages conversation) (msgs ++ [message]) h1 in
              (* [{ ...conversation }] *)
              let (h3, copy) := new_object conversation' h2 in
              mkStore h3
                (mkState (Map_set conversationId copy (conversations (state s)))
                         (currentConversationId (state s))
                         (isLoading (state s)))
          end
      end
  end.

(** The store [addMessage] makes once it has found the conversation [c] at
    [r] with the messages [msgs]. *)
Definition added (s : Store) (k : string) (r : Ref) (c : Conversation)
    (msgs : list Message) (m : Message) : Store :=
  let c' :=
    if Nat.eqb (length msgs) 0 && is_user (role m)
    then mkConversation (id c) (summary (content m)) (messages c)
    else c in
  mkStore
    (mkHeap (replace_nth r c' (objects (heap s)) ++ [c'])
            (replace_nth (messages c) (msgs ++ [m]) (arrays (heap s))))
    (mkState (Map_set k (length (objects (heap s))) (conversations (state s)))
             (currentConversationId (state s))
             (isLoading (state s))).

Definition setCurrentConversation (id : string) (s : Store) : Store :=
  mkStore (heap s)
    (mkState (conversations (state s)) (Some id) (isLoading (state s))).

Definition deleteConversation (id : string) (s : Store) : Store :=
  let newConversations := Map_delete id (conversations (state s)) in
  let newCurrentId :=
    match currentConversationId (state s) with
    | Some current =>
        if String.eqb current id
        then hd_error (Map_keys newConversations)
        else Some current
    | None => None
    end in
  mkStore (heap s) (mkState newConversations newCurrentId (isLoading (state s))).

Definition setLoading (loading : bool) (s : Store) : Store :=
  mkStore (heap s)
    (mkState (conversations (state s)) (currentConversationId (state s)) loading).

Definition clearConversations (s : Store) : Store :=
  mkStore (heap s) (mkState [] None (isLoading (state s))).

(** The actions of the store, and a history of them from the empty store. *)
Inductive Action : Type :=
| CreateConversation (fresh : string)
| AddMessage (conversationId : string) (message : Message)
| SetCurrentConversation (id : string)
| DeleteConversation (id : string)
| SetLoading (loading : bool)
| ClearConversations.

Definition act (s : Store) (a : Action) : Store :=
  match a with
  | CreateConversation fresh => createConversation fresh s
  | AddMessage conversationId message => addMessage conversationId message s
  | SetCurrentConversation id => setCurrentConversation id s
  | DeleteConversation id => deleteConversation id s
  | SetLoading loading => setLoading loading s
  | ClearConversations => clearConversations s
  end.

Definition run (actions : list Action) : Store := fold_left act actions empty.

(** What a component sees of conversation [id] when it holds the state
    [st] and the heap is [h]: the title and the messages. *)
Definition view (h : Heap) (st : State) (id : string)
  : option (string * list Message) :=
  match Map_get id (conversations st) with
  | None => None
  | Some r =>
      match get_object h r with
      | None => None
      | Some conversation =>
          match get_array h (messages conversation) with
          | None => None
          | Some msgs => Some (title conversation, msgs)
          end
      end
  end.

(** The array that [conversations.get(id)?.messages] denotes. *)
Definition messages_of (h : Heap) (st : State) (id : string) : option Ref :=
  match Map_get id (conversations st) with
  | None => None
  | Some r => option_map messages (get_object h r)
  end.

(** The title the code gives a conversation with the given messages. *)
Definition title_for (msgs : list Message) : string :=
  match msgs with
  | first :: _ =>
      if is_user (role first) then summary (content first) else "New Conversation"
  | [] => "New Conversation"
  end.

(** An action that selects a conversation names one that exists. *)
Definition selects_existing (s : Store) (a : Action) : bool :=
  match a with
  | SetCurrentConversation id =>
      match Map_get id (conversations (state s)) with
      | Some _ => true
      | None => false
      end
  | _ => true
  end.

Fixpoint well_used (s : Store) (actions : list Action) : bool :=
  match actions with
  | [] => true
  | a :: rest => selects_existing s a && well_used (act s a) rest
  end.

(** The shape of the heap that every history keeps: references lead
    somewhere, a title is the one its messages call for, and two objects
    share an array of messages only once it holds a message. *)
Definition wf (s : Store) : Prop :=
  (forall r c, get_object (heap s) r = Some c ->
               messages c < length (arrays (heap s)))
  /\ (forall k r, Map_get k (conversations (state s)) = Some r ->
                  r < length (objects (heap s)))
  /\ (forall r c msgs,
        get_object (heap s) r = Some c ->
        get_array (heap s) (messages c) = Some msgs ->
        title c = title_for msgs)
  /\ (forall r1 r2 c1 c2,
        r1 <> r2 ->
        get_object (heap s) r1 = Some c1 ->
        get_object (heap s) r2 = Some c2 ->
        messages c1 = messages c2 ->
        get_array (heap s) (messages c1) <> Some []).

(** The selected conversation, if any, exists. *)
Definition current_exists (s : Store) : Prop :=
  match currentConversationId (state s) with
  | Some id => Map_get id (conversations (state s)) <> None
  | None => True
  end.

End ChatStore.

(** ** [ChatInterface.handleSend]: one exchange with the non-streaming API *)

Module ChatInterface.

Import StreamingChatUI.

(** How [chatApi.sendMessage] settles: with [response.response], or with
    a rejection whose [message] is given. *)
Inductive Reply : Type :=
| Replied (response : string)
| Failed (message : string).

Inductive Call : Type :=
| Store (a : ChatStore.Action)              (* an action of [useChatStore] *)
| SetInput (s : string)
| SetIsStreaming (b : bool)
| SendMessage (message conversation_id : string)
| ConsoleError (message : string).          (* [console.error('Send error:', error)] *)

(** [conversationId], [input], [isLoading] and [isStreaming] are what the
    handler closes over; [fresh] is the id [createConversation] makes. *)
Definition handleSend (input : string) (isLoading isStreaming : bool)
    (conversationId : option string) (fresh : string) (reply : Reply)
  : list Call :=
  if negb (nonempty (SendMessage.trim input)) || isLoading || isStreaming then []
  else
    let create :=
      match conversationId with
      | Some id => negb (nonempty id)             (* [if (!convId)] *)
      | None => true
      end in
    let convId :=
      match conversationId with
      | Some id => if nonempty id then id else fresh
      | None => fresh
      end in
    let userInput := SendMessage.trim input in
    (if create then [Store (ChatStore.CreateConversation fresh)] else [])
    ++ [Store (ChatStore.AddMessage convId
                 (ChatStore.mkMessage ChatStore.user userInput));
        SetInput "";
        SetIsStreaming true;
        SendMessage userInput convId]
    ++ match reply with
       | Replied response =>
           [Store (ChatStore.AddMessage convId
                     (ChatStore.mkMessage ChatStore.assistant response));
            SetIsStreaming false]
       | Failed message =>
           [ConsoleError message;
            Store (ChatStore.AddMessage convId
                     (ChatStore.mkMessage ChatStore.assistant
                        ("Error: " ++ message)));
            SetIsStreaming false]
       end.

(** The actions a trace performs on the store, and the store after them. *)
Fixpoint store_actions (calls : list Call) : list ChatStore.Action :=
  match calls with
  | [] => []
  | Store a :: rest => a :: store_actions rest
  | _ :: rest => store_actions rest
  end.

Definition store_after (calls : list Call) (s : ChatStore.Store) : ChatStore.Store :=
  fold_left ChatStore.act (store_actions calls) s.

(** The assistant's turn the handler records for a reply. *)
Definition answer (reply : Reply) : ChatStore.Message :=
  match reply with
  | Replied response => ChatStore.mkMessage ChatStore.assistant response
  | Failed message =>
      ChatStore.mkMessage ChatStore.assistant ("Error: " ++ message)
  end.

End ChatInterface.

(** ** [useCodeStore]: the open files and the expanded folders *)

Module CodeStore.

Record State : Type := mkState {
  openFiles : JSMap.t string;
  currentFile : option string;
  expandedFolders : list string          (* a [Set], in insertion order *)
}.

Definition initial : State := mkState [] None [].

Definition setOpenFiles (files : JSMap.t string) (s : State) : State :=
  mkState files (currentFile s) (expandedFolders s).

Definition addOpenFile (path content : string) (s : State) : State :=
  mkState (JSMap.set path content (openFiles s)) (Some path) (expandedFolders s).

Definition updateFileContent (path content : string) (s : State) : State :=
  mkState (JSMap.set path content (openFiles s)) (currentFile s)
          (expandedFolders s).

Definition closeFile (path : string) (s : State) : State :=
  let newFiles := JSMap.delete path (openFiles s) in
  let newCurrentFile :=
    match currentFile s with
    | Some current =>
        if String.eqb current path
        then hd_error (JSMap.keys newFiles)   (* [remainingFiles[0]] or [null] *)
        else Some current
    | None => None
    end in
  mkState newFiles newCurrentFile (expandedFolders s).

Definition setCurrentFile (path : option string) (s : State) : State :=
  mkState (openFiles s) path (expandedFolders s).

Definition Set_has (x : string) (l : list string) : bool :=
  existsb (String.eqb x) l.

Definition toggleFolder (path : string) (s : State) : State :=
  mkState (openFiles s) (currentFile s)
    (if Set_has path (expandedFolders s)
     then filter (fun x => negb (String.eqb x path)) (expandedFolders s)
     else expandedFolders s ++ [path]).

Definition clearAll (s : State) : State := initial.

Inductive Action : Type :=
| SetOpenFiles (files : JSMap.t string)
| AddOpenFile (path content : string)
| UpdateFileContent (path content : string)
| CloseFile (path : string)
| SetCurrentFile (path : option string)
| ToggleFolder (path : string)
| ClearAll.

Definition act (s : State) (a : Action) : State :=
  match a with
  | SetOpenFiles files => setOpenFiles files s
  | AddOpenFile path content => addOpenFile path content s
  | UpdateFileContent path content => updateFileContent path content s
  | CloseFile path => closeFile path s
  | SetCurrentFile path => setCurrentFile path s
  | ToggleFolder path => toggleFolder path s
  | ClearAll => clearAll s
  end.

Definition run (actions : list Action) : State := fold_left act actions initial.

(** The current file, if any, is among the open files. *)
Definition current_is_open (s : State) : Prop :=
  match currentFile s with
  | Some path => JSMap.has path (openFiles s) = true
  | None => True
  end.

(** The two setters that take the state from outside are given values
    that fit: a current file that is open, a set of files that holds the
    current one. *)
Definition fits (s : State) (a : Action) : bool :=
  match a with
  | SetCurrentFile (Some path) => JSMap.has path (openFiles s)
  | SetOpenFiles files =>
      match currentFile s with
      | Some path => JSMap.has path files
      | None => true
      end
  | _ => true
  end.

Fixpoint well_used (s : State) (actions : list Action) : bool :=
  match actions with
  | [] => true
  | a :: rest => fits s a && well_used (act s a) rest
  end.

End CodeStore.

(** * Properties *)

(** ** Splitting text into lines *)

Module SplitFacts.

Import JSString.

Lemma append_empty_r (s : string) : (s ++ "")%string = s.
Proof. induction s as [|c s IH]; simpl; [reflexivity | now rewrite IH]. Qed.

Lemma append_assoc (a b c : string) :
  ((a ++ b) ++ c)%string = (a ++ (b ++ c))%string.
Proof. induction a as [|x a IH]; simpl; [reflexivity | now rewrite IH]. Qed.

Lemma pop_snoc {A : Type} (l : list A) (x : A) : pop (l ++ [x]) = (l, Some x).
Proof.
  induction l as [|y l IH]; simpl; [reflexivity|].
  rewrite IH. destruct (l ++ [x]) eqn:E; [|reflexivity].
  destruct l; discriminate.
Qed.

Lemma split_no_LF (s : string) : no_LF s = true -> split LF s = [s].
Proof.
  induction s as [|c s IH]; simpl; intros H; [reflexivity|].
  apply andb_prop in H as [Hc Hs].
  destruct (Ascii.eqb c LF); [discriminate|].
  now rewrite (IH Hs).
Qed.

Lemma split_line (l rest : string) :
  no_LF l = true -> split LF (l ++ String LF rest) = l :: split LF rest.
Proof.
  induction l as [|c l IH]; simpl; intros H.
  - reflexivity.
  - apply andb_prop in H as [Hc Hl].
    destruct (Ascii.eqb c LF); [discriminate|].
    now rewrite (IH Hl).
Qed.

(** Text made of terminated lines and a last segment splits back into
    exactly these. *)
Lemma split_terminated (ls : list string) (t : string) :
  forallb no_LF ls = true -> no_LF t = true ->
  split LF (terminated ls ++ t) = ls ++ [t].
Proof.
  induction ls as [|l ls IH]; simpl; intros Hls Ht.
  - now apply split_no_LF.
  - apply andb_prop in Hls as [Hl Hls].
    rewrite append_assoc. simpl. rewrite split_line by assumption.
    now rewrite IH.
Qed.

(** Every text is its complete lines, terminated, followed by its last
    segment; none of them holds a line feed. *)
Lemma split_decompose (s : string) :
  exists ls t,
    split LF s = ls ++ [t] /\ s = (terminated ls ++ t)%string
    /\ forallb no_LF ls = true /\ no_LF t = true.
Proof.
  induction s as [|c s (ls & t & Hsplit & Hs & Hls & Ht)].
  - exists [], EmptyString. repeat split; reflexivity.
  - simpl. destruct (Ascii.eqb c LF) eqn:Ec.
    + apply Ascii.eqb_eq in Ec. subst c.
      exists (EmptyString :: ls), t. rewrite Hsplit. simpl.
      repeat split; try assumption. now rewrite <- Hs.
    + rewrite Hsplit. destruct ls as [|l ls]; simpl in *.
      * exists [], (String c t). simpl. rewrite Ec, Ht.
        repeat split. now rewrite Hs.
      * exists (String c l :: ls), t. simpl. rewrite Ec.
        repeat split; try assumption. now rewrite Hs.
Qed.

Lemma complete_lines_terminated (ls : list string) (t : string) :
  forallb no_LF ls = true -> no_LF t = true ->
  complete_lines (terminated ls ++ t) = ls.
Proof.
  intros Hls Ht. unfold complete_lines.
  now rewrite split_terminated, pop_snoc.
Qed.

Lemma last_segment_terminated (ls : list string) (t : string) :
  forallb no_LF ls = true -> no_LF t = true ->
  last_segment (terminated ls ++ t) = t.
Proof.
  intros Hls Ht. unfold last_segment.
  now rewrite split_terminated, pop_snoc.
Qed.

Lemma pop_split (s : string) :
  pop (split LF s) = (complete_lines s, Some (last_segment s)).
Proof.
  unfold complete_lines, last_segment.
  destruct (split_decompose s) as (ls & t & -> & _).
  now rewrite pop_snoc.
Qed.

Lemma terminated_app (l1 l2 : list string) :
  terminated (l1 ++ l2) = (terminated l1 ++ terminated l2)%string.
Proof.
  induction l1 as [|l l1 IH]; simpl; [reflexivity|].
  now rewrite IH, append_assoc.
Qed.

Lemma forallb_no_LF_complete_lines (s : string) :
  forallb no_LF (complete_lines s) = true.
Proof.
  unfold complete_lines.
  destruct (split_decompose s) as (ls & t & -> & _ & H & _).
  now rewrite pop_snoc.
Qed.

Lemma no_LF_last_segment (s : string) : no_LF (last_segment s) = true.
Proof.
  unfold last_segment.
  destruct (split_decompose s) as (ls & t & -> & _ & _ & H).
  now rewrite pop_snoc.
Qed.

Lemma text_decompose (s : string) :
  s = (terminated (complete_lines s) ++ last_segment s)%string.
Proof.
  unfold complete_lines, last_segment.
  destruct (split_decompose s) as (ls & t & -> & H & _).
  now rewrite pop_snoc.
Qed.

Lemma split_merge (l1 l2 : list string) (t1 t2 b : string) :
  forallb no_LF l1 = true -> forallb no_LF l2 = true -> no_LF t2 = true ->
  (t1 ++ b)%string = (terminated l2 ++ t2)%string ->
  split LF ((terminated l1 ++ t1) ++ b) = (l1 ++ l2) ++ [t2].
Proof.
  intros H1 H2 Ht2 E.
  rewrite append_assoc, E, <- append_assoc, <- terminated_app.
  apply split_terminated; [|assumption].
  now rewrite forallb_app, H1, H2.
Qed.

(** The lines of a text that arrives in two pieces: the lines of the first
    piece, then the lines of what the first piece left over followed by the
    second piece. *)
Lemma split_app (a b : string) :
  split LF (a ++ b)
  = (complete_lines a ++ complete_lines (last_segment a ++ b))
      ++ [last_segment (last_segment a ++ b)].
Proof.
  pose proof (text_decompose a) as Ha.
  rewrite Ha at 1.
  apply split_merge.
  - apply forallb_no_LF_complete_lines.
  - apply forallb_no_LF_complete_lines.
  - apply no_LF_last_segment.
  - apply text_decompose.
Qed.

Lemma complete_lines_app (a b : string) :
  complete_lines (a ++ b)
  = complete_lines a ++ complete_lines (last_segment a ++ b).
Proof.
  unfold complete_lines at 1. now rewrite split_app, pop_snoc.
Qed.

Lemma last_segment_app (a b : string) :
  last_segment (a ++ b) = last_segment (last_segment a ++ b).
Proof.
  unfold last_segment at 1. now rewrite split_app, pop_snoc.
Qed.

End SplitFacts.

(** ** The parser model: fuel, and text that is not JSON *)

Module JSONFacts.

Import JSON.

(** The sentinels are rejected by the grammar, whatever the fuel. *)
Lemma sentinel_is_not_JSON (fuel : nat) : parse_value fuel "[DONE]" = None.
Proof.
  destruct fuel as [|[|[|fuel]]]; reflexivity.
Qed.

Lemma error_sentinel_is_not_JSON (fuel : nat) (message : string) :
  parse_value fuel ("[ERROR]" ++ message) = None.
Proof.
  destruct fuel as [|[|[|fuel]]]; reflexivity.
Qed.

Ltac fuel_step IHv IHe IHm :=
  match goal with
  | |- None = Some _ -> _ => discriminate
  | |- ?x = Some _ -> ?x = Some _ => exact (fun h => h)
  | |- context [parse_value ?f ?s] =>
      is_var f;
      let E := fresh "E" in
      destruct (parse_value f s) as [[? ?]|] eqn:E;
      [rewrite (IHv _ _ E) | discriminate]
  | |- context [parse_elements ?f ?s] =>
      is_var f;
      let E := fresh "E" in
      destruct (parse_elements f s) as [[? ?]|] eqn:E;
      [rewrite (IHe _ _ E) | discriminate]
  | |- context [parse_members ?f ?s] =>
      is_var f;
      let E := fresh "E" in
      destruct (parse_members f s) as [[? ?]|] eqn:E;
      [rewrite (IHm _ _ E) | discriminate]
  | |- (match ?t with _ => _ end) = _ -> _ => destruct t
  end.

(** A result, once found, is the same with more fuel. *)
Lemma parse_fuel_step (fuel : nat) :
  (forall s r, parse_value fuel s = Some r -> parse_value (S fuel) s = Some r)
  /\ (forall s r, parse_elements fuel s = Some r -> parse_elements (S fuel) s = Some r)
  /\ (forall s r, parse_members fuel s = Some r -> parse_members (S fuel) s = Some r).
Proof.
  induction fuel as [|f (IHv & IHe & IHm)].
  - repeat split; intros s r H; discriminate H.
  - remember (S f) as g eqn:Eg.
    repeat split; intros s r H; rewrite Eg in H; revert H.
    + cbn [parse_value]. repeat fuel_step IHv IHe IHm.
    + cbn [parse_elements]. repeat fuel_step IHv IHe IHm.
    + cbn [parse_members]. repeat fuel_step IHv IHe IHm.
Qed.

Lemma parse_value_fuel_le (fuel fuel' : nat) (s : string)
    (r : option JS.value * string) :
  fuel <= fuel' -> parse_value fuel s = Some r -> parse_value fuel' s = Some r.
Proof.
  induction 1 as [|fuel' _ IH]; intros H; [exact H|].
  apply parse_fuel_step. now apply IH.
Qed.

End JSONFacts.

(** ** The reader loop of [handleSendMessage] *)

Module LoopFacts.

Import JSString StreamingChatUI SplitFacts.

Lemma buffer_free_ret {A : Type} (a : A) : buffer_free (ret a).
Proof. intros b st. reflexivity. Qed.

Lemma buffer_free_throw {A : Type} (e : JS.Exn) : buffer_free (@throw A e).
Proof. intros b st. reflexivity. Qed.

Lemma buffer_free_lift {A : Type} (r : JS.Exn + A) : buffer_free (lift r).
Proof. intros b st. reflexivity. Qed.

Lemma buffer_free_emit (e : Effect) : buffer_free (emit e).
Proof. intros b st. reflexivity. Qed.

Lemma buffer_free_modify (f : Locals -> Locals) :
  (forall b st, f (set_buffer b st) = set_buffer b (f st)) ->
  buffer_free (modify f).
Proof. intros H b st. unfold modify. simpl. now rewrite H. Qed.

Lemma buffer_free_read {A : Type} (f : Locals -> A) :
  (forall b st, f (set_buffer b st) = f st) -> buffer_free (read f).
Proof. intros H b st. unfold read. simpl. now rewrite H. Qed.

Lemma buffer_free_bind {A B : Type} (m : M A) (k : A -> M B) :
  buffer_free m -> (forall a, buffer_free (k a)) -> buffer_free (bind m k).
Proof.
  intros Hm Hk b st. unfold bind. rewrite Hm.
  destruct (m st) as [[st1 out1] [e|a]]; simpl; [reflexivity|].
  rewrite Hk. destruct (k a st1) as [[st2 out2] r]. reflexivity.
Qed.

Lemma buffer_free_try_catch (m : M unit) (h : JS.Exn -> M unit) :
  buffer_free m -> (forall e, buffer_free (h e)) -> buffer_free (try_catch m h).
Proof.
  intros Hm Hh b st. unfold try_catch. rewrite Hm.
  destruct (m st) as [[st1 out1] [e|a]]; simpl; [|reflexivity].
  rewrite Hh. destruct (h e st1) as [[st2 out2] r]. reflexivity.
Qed.

Lemma buffer_free_when (c : bool) (m : M unit) :
  buffer_free m -> buffer_free (when c m).
Proof. intros H. destruct c; simpl; [assumption | apply buffer_free_ret]. Qed.

Ltac buffer_free_step :=
  match goal with
  | |- buffer_free (bind _ _) => apply buffer_free_bind; [|intros ?]
  | |- buffer_free (when _ _) => apply buffer_free_when
  | |- buffer_free (try_catch _ _) => apply buffer_free_try_catch; [|intros ?]
  | |- buffer_free (ret _) => apply buffer_free_ret
  | |- buffer_free (throw _) => apply buffer_free_throw
  | |- buffer_free (lift _) => apply buffer_free_lift
  | |- buffer_free (emit _) => apply buffer_free_emit
  | |- buffer_free (modify _) => apply buffer_free_modify; reflexivity
  | |- buffer_free (read _) => apply buffer_free_read; reflexivity
  | |- buffer_free (if ?c then _ else _) => destruct c
  | |- buffer_free (match ?x with _ => _ end) => destruct x
  end.

Section Loop.

Variable JSON_parse : string -> option JS.value.
Variable Number_toString : string -> string.
Variable showThinking : bool.
Variable onFileModified : bool.

Abbreviation dispatch := (dispatch JSON_parse Number_toString showThinking onFileModified).
Abbreviation processLine := (processLine JSON_parse Number_toString showThinking onFileModified).
Abbreviation processChunk := (processChunk JSON_parse Number_toString showThinking onFileModified).
Abbreviation readLoop := (readLoop JSON_parse Number_toString showThinking onFileModified).
Abbreviation run := (run JSON_parse Number_toString showThinking onFileModified).
Abbreviation step := (step JSON_parse Number_toString showThinking onFileModified).
Abbreviation steps := (steps JSON_parse Number_toString showThinking onFileModified).
Abbreviation handleSendMessage :=
  (handleSendMessage JSON_parse Number_toString showThinking onFileModified).

Lemma buffer_free_dispatch (line : string) : buffer_free (dispatch line).
Proof.
  unfold StreamingChatUI.dispatch, parseJSON, ToString.
  repeat buffer_free_step.
Qed.

Lemma buffer_free_processLine (line : string) : buffer_free (processLine line).
Proof.
  unfold StreamingChatUI.processLine.
  repeat buffer_free_step. apply buffer_free_dispatch.
Qed.

(** The per-line [try]/[catch] lets nothing escape. *)
Lemma processLine_returns (line : string) (st : Locals) :
  snd (processLine line st) = inr tt.
Proof.
  unfold StreamingChatUI.processLine, when.
  destruct (startsWith line "data: "); [|reflexivity].
  unfold try_catch, emit.
  destruct (dispatch line st) as [[st1 out1] [e|[]]]; reflexivity.
Qed.

Lemma forEach_steps (lines : list string) (st : Locals) :
  forEach lines processLine st = (steps lines st, inr tt).
Proof.
  revert st. induction lines as [|line rest IH]; intros st; simpl.
  - reflexivity.
  - unfold bind, StreamingChatUI.step. pose proof (processLine_returns line st) as H.
    destruct (processLine line st) as [[st1 out1] r]. simpl in *. subst r.
    rewrite IH. destruct (steps rest st1). reflexivity.
Qed.

Lemma steps_app (l1 l2 : list string) (st : Locals) :
  steps (l1 ++ l2) st
  = let (st1, out1) := steps l1 st in
    let (st2, out2) := steps l2 st1 in
    (st2, out1 ++ out2).
Proof.
  revert st. induction l1 as [|line l1 IH]; intros st; simpl.
  - destruct (steps l2 st). reflexivity.
  - destruct (step line st) as [sa oa]. rewrite IH.
    destruct (steps l1 sa) as [sb ob]. destruct (steps l2 sb) as [sc oc].
    now rewrite app_assoc.
Qed.

Lemma step_set_buffer (b : string) (line : string) (st : Locals) :
  step line (set_buffer b st)
  = let (st1, out1) := step line st in (set_buffer b st1, out1).
Proof.
  unfold StreamingChatUI.step. rewrite buffer_free_processLine.
  destruct (processLine line st) as [[st1 out1] r]. reflexivity.
Qed.

Lemma steps_set_buffer (b : string) (lines : list string) (st : Locals) :
  steps lines (set_buffer b st)
  = let (st1, out1) := steps lines st in (set_buffer b st1, out1).
Proof.
  revert st. induction lines as [|line rest IH]; intros st; simpl.
  - reflexivity.
  - rewrite step_set_buffer. destruct (step line st) as [sa oa].
    rewrite IH. destruct (steps rest sa). reflexivity.
Qed.

Lemma processChunk_steps (chunk : string) (st : Locals) :
  processChunk chunk st
  = let text := (buffer st ++ chunk)%string in
    let (st1, out1) := steps (complete_lines text) st in
    (set_buffer (last_segment text) st1, out1, inr tt).
Proof.
  unfold StreamingChatUI.processChunk, bind, read, modify. simpl.
  rewrite pop_split. simpl. rewrite forEach_steps.
  change (set_buffer (last_segment (buffer st ++ chunk))
            (set_buffer (buffer st ++ chunk) st))
    with (set_buffer (last_segment (buffer st ++ chunk)) st).
  rewrite steps_set_buffer.
  destruct (steps (complete_lines (buffer st ++ chunk)) st). reflexivity.
Qed.

Lemma lines_no_LF (b : string) :
  no_LF b = true -> complete_lines b = [] /\ last_segment b = b.
Proof.
  intros H. unfold complete_lines, last_segment.
  rewrite (split_no_LF b H). split; reflexivity.
Qed.

Lemma set_buffer_same (st : Locals) : set_buffer (buffer st) st = st.
Proof. destruct st. reflexivity. Qed.

(** The whole loop: it runs the complete lines of the text received, in
    order, keeps the unterminated rest in [buffer], and ends as the
    transport ends. *)
Lemma readLoop_steps (chunks : list string) (ending : Ending) (st : Locals) :
  no_LF (buffer st) = true ->
  readLoop chunks ending st
  = let text := (buffer st ++ concat_chunks chunks)%string in
    let (st1, out1) := steps (complete_lines text) st in
    (set_buffer (last_segment text) st1, out1,
     match ending with
     | Eof => inr tt
     | Rejected message => inl (JS.Error message)
     end).
Proof.
  revert st. induction chunks as [|chunk rest IH]; intros st Hb; simpl.
  - rewrite append_empty_r.
    destruct (lines_no_LF _ Hb) as [-> ->]. simpl.
    rewrite set_buffer_same. destruct ending; reflexivity.
  - unfold bind. rewrite processChunk_steps. simpl.
    destruct (steps (complete_lines (buffer st ++ chunk)) st) as [s1 o1] eqn:E1.
    rewrite IH by apply no_LF_last_segment.
    simpl. rewrite steps_set_buffer.
    rewrite <- append_assoc.
    rewrite (complete_lines_app (buffer st ++ chunk)).
    rewrite (last_segment_app (buffer st ++ chunk)).
    rewrite steps_app, E1.
    destruct (steps (complete_lines (last_segment (buffer st ++ chunk)
                                     ++ concat_chunks rest)) s1) as [s2 o2].
    reflexivity.
Qed.

(** The trace of a whole run is that of the complete lines of the text
    received, then what the [catch] and [finally] blocks add. *)
Lemma handleSendMessage_lines (chunks : list string) (ending : Ending) :
  handleSendMessage chunks ending
  = snd (steps (complete_lines (concat_chunks chunks)) initial)
    ++ match ending with
       | Eof => [SetIsStreaming false]
       | Rejected message =>
           [ConsoleError "Streaming error:" (JS.Error message);
            SetMessages
              (Append (mkMessage assistant ("Error: " ++ message) None));
            SetIsStreaming false]
       end.
Proof.
  unfold StreamingChatUI.handleSendMessage, StreamingChatUI.run.
  rewrite readLoop_steps by reflexivity. simpl.
  destruct (steps (complete_lines (concat_chunks chunks)) initial) as [s1 o1].
  destruct ending; reflexivity.
Qed.

(** Chunk boundaries do not matter to [handleSendMessage]: two deliveries
    of the same text give the same trace. *)
Lemma handleSendMessage_chunking (chunks1 chunks2 : list string) (ending : Ending) :
  concat_chunks chunks1 = concat_chunks chunks2 ->
  handleSendMessage chunks1 ending = handleSendMessage chunks2 ending.
Proof.
  intros H. now rewrite !handleSendMessage_lines, H.
Qed.

Lemma handleSendMessage_single_chunk (chunks : list string) (ending : Ending) :
  handleSendMessage chunks ending
  = handleSendMessage [concat_chunks chunks] ending.
Proof.
  apply handleSendMessage_chunking. simpl. now rewrite append_empty_r.
Qed.

End Loop.

End LoopFacts.

(** * The claims *)

Import JSString.

(** ** Chunk boundaries *)

(** C1 (chunk-boundary invariance and ordering).  The buffered loop of
    [handleSendMessage] gives, for every delivery of a text in chunks, the
    trace it gives for the text delivered in one chunk.
    [chatApi.streamMessage] does not: it splits every chunk on its own and
    keeps no remainder, so a line cut by a chunk boundary is decoded as two
    broken lines.  The stream [data: {"type":"content","content":"Hello"}]
    delivered in two chunks yields the truncated payload, delivered in one
    chunk the whole payload. *)
Theorem streamMessage_breaks_line_at_chunk_boundary :
  (forall JSON_parse Number_toString showThinking onFileModified chunks ending,
     StreamingChatUI.handleSendMessage JSON_parse Number_toString
       showThinking onFileModified chunks ending
     = StreamingChatUI.handleSendMessage JSON_parse Number_toString
         showThinking onFileModified [concat_chunks chunks] ending)
  /\ let chunk1 := jsq "data: {'type':'content'," in
     let chunk2 := (jsq "'content':'Hello'}" ++ nl)%string in
     ChatApi.streamMessage [chunk1; chunk2] ChatApi.Eof
     = [ChatApi.OnChunk (jsq "{'type':'content',"); ChatApi.OnComplete]
     /\ ChatApi.streamMessage [(chunk1 ++ chunk2)%string] ChatApi.Eof
        = [ChatApi.OnChunk (jsq "{'type':'content','content':'Hello'}");
           ChatApi.OnComplete].
Proof.
  split.
  - intros. apply LoopFacts.handleSendMessage_single_chunk.
  - repeat split; vm_compute; reflexivity.
Qed.

(** ** End of stream *)

Module StreamFacts.

Import ChatApi.

Lemma processLine_continue (line : string) (out : list Callback) :
  processLine line = (out, Continue) ->
  Forall (fun cb => exists data, cb = OnChunk data) out.
Proof.
  unfold processLine.
  destruct (startsWith line "data: ").
  - destruct (String.eqb (slice 6 line) "[DONE]"); [discriminate|].
    destruct (startsWith (slice 6 line) "[ERROR]"); [discriminate|].
    intros [= <-]. repeat constructor. now eexists.
  - intros [= <-]. constructor.
Qed.

Lemma forLines_continue (lines : list string) (out : list Callback) :
  forLines lines = (out, Continue) ->
  Forall (fun cb => exists data, cb = OnChunk data) out.
Proof.
  revert out. induction lines as [|line rest IH]; simpl; intros out.
  - intros [= <-]. constructor.
  - destruct (processLine line) as [o1 [|]] eqn:E1; [|discriminate].
    destruct (forLines rest) as [o2 f2]. intros [= <- ->].
    apply Forall_app. split.
    + now apply processLine_continue with (line := line).
    + now apply IH.
Qed.

(** While no chunk executes [return], the loop keeps reading; at the end of
    the transport it calls [onComplete], once. *)
Lemma streamMessage_eof (chunks : list string) :
  Forall (fun chunk => snd (forLines (split LF chunk)) = Continue) chunks ->
  exists out,
    streamMessage chunks Eof = out ++ [OnComplete]
    /\ Forall (fun cb => exists data, cb = OnChunk data) out.
Proof.
  induction 1 as [|chunk rest Hc _ (out & E & Hout)]; simpl.
  - exists []. split; [reflexivity | constructor].
  - destruct (forLines (split LF chunk)) as [o1 f1] eqn:E1. simpl in Hc. subst f1.
    exists (o1 ++ out). rewrite E, app_assoc. split; [reflexivity|].
    apply Forall_app. split; [|assumption].
    now apply forLines_continue with (lines := split LF chunk).
Qed.

(** Once a chunk executes [return], nothing that the transport delivers
    afterwards is looked at. *)
Lemma streamMessage_return (chunk : string) (rest : list string) (ending : Ending) :
  snd (forLines (split LF chunk)) = Return ->
  streamMessage (chunk :: rest) ending = fst (forLines (split LF chunk)).
Proof.
  simpl. destruct (forLines (split LF chunk)) as [o1 f1]. simpl.
  now intros ->.
Qed.

End StreamFacts.

Section EndOfStream.

Import StreamingChatUI SplitFacts LoopFacts.

Variable JSON_parse : string -> option JS.value.
Variable Number_toString : string -> string.
Variable showThinking : bool.
Variable onFileModified : bool.

Abbreviation handleSendMessage :=
  (handleSendMessage JSON_parse Number_toString showThinking onFileModified).
Abbreviation steps :=
  (steps JSON_parse Number_toString showThinking onFileModified).

Lemma complete_lines_tail (text tail : string) :
  no_LF tail = true -> complete_lines (text ++ tail) = complete_lines text.
Proof.
  intros H. rewrite complete_lines_app.
  assert (Ht : no_LF (last_segment text ++ tail) = true).
  { pose proof (no_LF_last_segment text) as Hl.
    induction (last_segment text) as [|c s IH]; simpl in *; [assumption|].
    apply andb_prop in Hl as [-> Hs]. simpl. now apply IH. }
  destruct (lines_no_LF _ Ht) as [-> _]. apply app_nil_r.
Qed.

Lemma concat_chunks_app (l1 l2 : list string) :
  concat_chunks (l1 ++ l2) = (concat_chunks l1 ++ concat_chunks l2)%string.
Proof.
  induction l1 as [|c l1 IH]; simpl; [reflexivity|].
  now rewrite IH, append_assoc.
Qed.

(** C6, as the code has it.  When the transport ends, [handleSendMessage]
    has run the complete lines only and adds nothing but
    [setIsStreaming(false)]: text after the last line feed is dropped and no
    error is made up, whether or not a [done] event was seen.
    [chatApi.streamMessage] calls [onComplete] once when the transport ends
    and no sentinel made it return; when a sentinel did, it stopped there. *)
Theorem end_of_stream_adds_no_error :
  (forall chunks,
     handleSendMessage chunks Eof
     = snd (steps (complete_lines (concat_chunks chunks)) initial)
       ++ [SetIsStreaming false])
  /\ (forall chunks tail,
        no_LF tail = true ->
        handleSendMessage (chunks ++ [tail]) Eof = handleSendMessage chunks Eof)
  /\ (forall chunks,
        Forall (fun chunk => snd (ChatApi.forLines (split LF chunk)) = ChatApi.Continue)
               chunks ->
        exists out,
          ChatApi.streamMessage chunks ChatApi.Eof = out ++ [ChatApi.OnComplete]
          /\ Forall (fun cb => exists data, cb = ChatApi.OnChunk data) out)
  /\ (forall chunk rest ending,
        snd (ChatApi.forLines (split LF chunk)) = ChatApi.Return ->
        ChatApi.streamMessage (chunk :: rest) ending
        = fst (ChatApi.forLines (split LF chunk))).
Proof.
  split; [|split; [|split]].
  - intros chunks. apply handleSendMessage_lines.
  - intros chunks tail H. rewrite !handleSendMessage_lines.
    rewrite concat_chunks_app. simpl. rewrite append_empty_r.
    now rewrite complete_lines_tail.
  - apply StreamFacts.streamMessage_eof.
  - apply StreamFacts.streamMessage_return.
Qed.

End EndOfStream.

(** C6 at concrete streams: an unterminated tail after one content line; a
    stream without sentinel; a stream that goes on after [[DONE]]. *)
Lemma end_of_stream_adds_no_error_witness :
  Concrete.handleSendMessage true false
    [Concrete.content_line "partial"; "data: {"] StreamingChatUI.Eof
  = Concrete.handleSendMessage true false
      [Concrete.content_line "partial"] StreamingChatUI.Eof
  /\ (exists out,
        ChatApi.streamMessage [Concrete.sse "abc"] ChatApi.Eof
        = out ++ [ChatApi.OnComplete]
        /\ Forall (fun cb => exists data, cb = ChatApi.OnChunk data) out)
  /\ ChatApi.streamMessage [Concrete.sse "[DONE]"; Concrete.sse "late"] ChatApi.Eof
     = [ChatApi.OnComplete].
Proof.
  destruct (end_of_stream_adds_no_error JSON.parse Concrete.number_text true false)
    as (_ & H2 & H3 & H4).
  split; [|split].
  - apply (H2 [Concrete.content_line "partial"] "data: {"). reflexivity.
  - apply H3. repeat constructor.
  - apply (H4 (Concrete.sse "[DONE]") [Concrete.sse "late"] ChatApi.Eof).
    reflexivity.
Defined.

(** C6 as stated fails: for the stream of the specification's own scenario
    (one content line, then the transport ends with no terminal event) the
    claim requires a synthesized error after the content; the buffered loop
    ends with no error at all and [streamMessage] reports completion. *)
Lemma finish_synthesizes_no_error :
  let chunk := Concrete.content_line "partial" in
  Concrete.handleSendMessage true false [chunk] StreamingChatUI.Eof
  = [StreamingChatUI.SetCurrentContent "partial";
     StreamingChatUI.SetIsStreaming false]
  /\ ChatApi.streamMessage [chunk] ChatApi.Eof
     = [ChatApi.OnChunk (jsq "{'type':'content','content':'partial'}");
        ChatApi.OnComplete]
  /\ forall message,
       ~ In (ChatApi.OnError message) (ChatApi.streamMessage [chunk] ChatApi.Eof).
Proof.
  repeat split; try (vm_compute; reflexivity).
  intros message. vm_compute. intros [H|[H|[]]]; discriminate.
Qed.

(** ** One line of the stream in [handleSendMessage] *)

Module LineFacts.

Import StreamingChatUI SplitFacts LoopFacts.

Ltac run_line :=
  cbv [when try_catch bind lift modify read emit ret throw ToString JS.get JS.prop].

Lemma is_str_unique (v : JS.value) (a b : string) :
  JS.is_str v a = true -> JS.is_str v b = true -> a = b.
Proof.
  destruct v; simpl; try discriminate.
  intros Ha Hb. apply String.eqb_eq in Ha, Hb. congruence.
Qed.

Lemma is_str_other (v : JS.value) (a b : string) :
  JS.is_str v a = true -> String.eqb a b = false -> JS.is_str v b = false.
Proof.
  intros Ha Hab. destruct (JS.is_str v b) eqn:Hb; [|reflexivity].
  rewrite (is_str_unique v a b Ha Hb), String.eqb_refl in Hab. discriminate.
Qed.

Section Lines.

Variable JSON_parse : string -> option JS.value.
Variable Number_toString : string -> string.
Variable showThinking : bool.
Variable onFileModified : bool.

Abbreviation processLine :=
  (processLine JSON_parse Number_toString showThinking onFileModified).
Abbreviation step := (step JSON_parse Number_toString showThinking onFileModified).
Abbreviation steps := (steps JSON_parse Number_toString showThinking onFileModified).
Abbreviation delta := (delta JSON_parse Number_toString).
Abbreviation deltas := (deltas JSON_parse Number_toString).
Abbreviation finalize := (finalize showThinking).

(** A payload that is not JSON: the [catch] logs it, nothing else happens. *)
Lemma processLine_malformed (line : string) (st : Locals) :
  startsWith line "data: " = true ->
  JSON_parse (slice 6 line) = None ->
  processLine line st
  = (st, [ConsoleError "Error parsing SSE data:" JS.SyntaxError], inr tt).
Proof.
  intros Hd Hp.
  unfold StreamingChatUI.processLine, StreamingChatUI.dispatch, parseJSON.
  rewrite Hd, Hp. reflexivity.
Qed.

(** The [done] branch. *)
Lemma processLine_done (line : string) (fields : list (string * JS.value))
    (st : Locals) :
  startsWith line "data: " = true ->
  JSON_parse (slice 6 line) = Some (JS.Obj fields) ->
  JS.lookup "type" fields = Some (JS.Str "done") ->
  processLine line st
  = (st, finalize (thinkingBuffer st) (contentBuffer st), inr tt).
Proof.
  intros Hd Hp Ht.
  unfold StreamingChatUI.processLine, StreamingChatUI.dispatch, parseJSON.
  rewrite Hd, Hp. run_line. rewrite Ht. simpl.
  unfold StreamingChatUI.finalize.
  destruct (nonempty (thinkingBuffer st) && showThinking),
           (nonempty (contentBuffer st)); reflexivity.
Qed.

(** The [tool_call] branch: whatever the state, a tool message is appended. *)
Lemma processLine_tool_call (line : string) (fields : list (string * JS.value))
    (label : string) (st : Locals) :
  startsWith line "data: " = true ->
  JSON_parse (slice 6 line) = Some (JS.Obj fields) ->
  JS.lookup "type" fields = Some (JS.Str "tool_call") ->
  JS.ToString Number_toString (JS.prop fields "tool_name") = inr label ->
  processLine line st
  = (st,
     [SetMessages
        (Append
           (mkMessage tool ("Executing: " ++ label)
              (Some (mkToolCall (JS.prop fields "tool_name")
                                (JS.prop fields "tool_args") JS.Undefined))))],
     inr tt).
Proof.
  intros Hd Hp Ht Hl.
  unfold StreamingChatUI.processLine, StreamingChatUI.dispatch, parseJSON.
  rewrite Hd, Hp. unfold JS.prop in Hl. run_line. rewrite Ht. simpl.
  rewrite Hl. reflexivity.
Qed.

(** The [tool_result] branch: whatever the state and the tool named, the
    result updater is queued. *)
Lemma processLine_tool_result (line : string) (fields : list (string * JS.value))
    (st : Locals) :
  startsWith line "data: " = true ->
  JSON_parse (slice 6 line) = Some (JS.Obj fields) ->
  JS.lookup "type" fields = Some (JS.Str "tool_result") ->
  processLine line st
  = (st,
     SetMessages (StoreToolResult (JS.prop fields "result"))
     :: (if (JS.is_str (JS.prop fields "tool_name") "write_file"
             || JS.is_str (JS.prop fields "tool_name") "edit_file")
            && onFileModified
         then [OnFileModified (JS.get_opt (JS.prop fields "tool_args") "file_path")]
         else []),
     inr tt).
Proof.
  intros Hd Hp Ht.
  unfold StreamingChatUI.processLine, StreamingChatUI.dispatch, parseJSON.
  rewrite Hd, Hp. run_line. rewrite Ht. simpl.
  destruct (_ || _); [destruct onFileModified|]; reflexivity.
Qed.

(** What one line does to the two accumulators. *)
Lemma step_buffers (line : string) (st : Locals) :
  thinkingBuffer (fst (step line st))
  = (thinkingBuffer st ++ delta "thinking" line)%string
  /\ contentBuffer (fst (step line st))
     = (contentBuffer st ++ delta "content" line)%string.
Proof.
  unfold StreamingChatUI.step, StreamingChatUI.processLine, StreamingChatUI.delta.
  destruct (startsWith line "data: ");
    [|simpl; now rewrite !append_empty_r].
  unfold StreamingChatUI.dispatch, parseJSON.
  destruct (JSON_parse (slice 6 line)) as [data|];
    [|simpl; now rewrite !append_empty_r].
  destruct data as [| |b|lit|s|elems|fields];
    try (simpl; now rewrite !append_empty_r).
  run_line.
  destruct (JS.is_str _ "thinking") eqn:E1.
  { rewrite (is_str_other _ _ "content" E1 eq_refl).
    destruct (JS.ToString Number_toString _); simpl; now rewrite !append_empty_r. }
  destruct (JS.is_str _ "content") eqn:E2.
  { destruct (JS.ToString Number_toString _); simpl; now rewrite !append_empty_r. }
  rewrite !append_empty_r.
  destruct (JS.is_str _ "tool_call").
  { destruct (JS.ToString Number_toString _); simpl; auto. }
  destruct (JS.is_str _ "tool_result").
  { destruct (_ || _); [destruct onFileModified|]; simpl; auto. }
  destruct (JS.is_str _ "done").
  { destruct (nonempty (thinkingBuffer st) && showThinking),
             (nonempty (contentBuffer st)); simpl; auto. }
  destruct (JS.is_str _ "error").
  { destruct (JS.new_Error Number_toString _); simpl; auto. }
  simpl. auto.
Qed.

(** The accumulators hold every delta, in line order. *)
Lemma steps_buffers (lines : list string) (st : Locals) :
  thinkingBuffer (fst (steps lines st))
  = (thinkingBuffer st ++ deltas "thinking" lines)%string
  /\ contentBuffer (fst (steps lines st))
     = (contentBuffer st ++ deltas "content" lines)%string.
Proof.
  revert st. induction lines as [|line rest IH]; intros st.
  - simpl. now rewrite !append_empty_r.
  - simpl. destruct (step_buffers line st) as [Ht Hc].
    destruct (step line st) as [s1 o1]. simpl in Ht, Hc.
    destruct (IH s1) as [Ht' Hc'].
    destruct (steps rest s1) as [s2 o2]. simpl in *.
    unfold StreamingChatUI.deltas in *. simpl.
    now rewrite Ht', Hc', Ht, Hc, !append_assoc.
Qed.

End Lines.

End LineFacts.

(** ** Accumulated text, malformed lines, tool events, terminal forms *)

Module UpdaterFacts.

Import StreamingChatUI.

Lemma findLastIndex_none {A : Type} (p : A -> bool) (l : list A) :
  forallb (fun x => negb (p x)) l = true -> findLastIndex p l = None.
Proof.
  induction l as [|x l IH]; simpl; [reflexivity|].
  intros H. apply andb_prop in H as [Hx Hl].
  rewrite (IH Hl). now destruct (p x).
Qed.

Lemma findLastIndex_last {A : Type} (p : A -> bool) (before after : list A) (m : A) :
  p m = true -> forallb (fun x => negb (p x)) after = true ->
  findLastIndex p (before ++ m :: after) = Some (length before).
Proof.
  intros Hm Ha. induction before as [|x before IH]; simpl.
  - now rewrite (findLastIndex_none p after Ha), Hm.
  - now rewrite IH.
Qed.

Lemma update_nth_middle {A : Type} (f : A -> A) (before after : list A) (m : A) :
  update_nth (length before) f (before ++ m :: after) = before ++ f m :: after.
Proof.
  induction before as [|x before IH]; simpl; [reflexivity | now rewrite IH].
Qed.

(** The updater writes the result into the last tool message, whichever
    tool it names. *)
Lemma tool_result_updater_last (r : JS.value) (before after : list Message)
    (m : Message) :
  is_tool (role m) = true ->
  forallb (fun x => negb (is_tool (role x))) after = true ->
  tool_result_updater r (before ++ m :: after) = before ++ with_result r m :: after.
Proof.
  intros Hm Ha. unfold tool_result_updater.
  rewrite (findLastIndex_last (fun x => is_tool (role x)) before after m Hm Ha).
  apply update_nth_middle.
Qed.

(** With no tool message the updater changes nothing. *)
Lemma tool_result_updater_none (r : JS.value) (msgs : list Message) :
  forallb (fun x => negb (is_tool (role x))) msgs = true ->
  tool_result_updater r msgs = msgs.
Proof.
  intros H. unfold tool_result_updater.
  now rewrite (findLastIndex_none (fun x => is_tool (role x)) msgs H).
Qed.

End UpdaterFacts.

Section Decoding.

Import StreamingChatUI SplitFacts LoopFacts LineFacts.

Variable JSON_parse : string -> option JS.value.
Variable Number_toString : string -> string.
Variable showThinking : bool.
Variable onFileModified : bool.

Abbreviation handleSendMessage :=
  (handleSendMessage JSON_parse Number_toString showThinking onFileModified).
Abbreviation processLine :=
  (StreamingChatUI.processLine JSON_parse Number_toString showThinking onFileModified).
Abbreviation step :=
  (StreamingChatUI.step JSON_parse Number_toString showThinking onFileModified).
Abbreviation steps :=
  (StreamingChatUI.steps JSON_parse Number_toString showThinking onFileModified).
Abbreviation deltas := (StreamingChatUI.deltas JSON_parse Number_toString).
Abbreviation finalize := (StreamingChatUI.finalize showThinking).

(** What the updaters of a [done] event append when React runs them at the
    moment [now]. *)
Lemma messages_after_finalize (now : Locals) (thinkingText contentText : string)
    (msgs : list Message) :
  messages_after now (finalize thinkingText contentText) msgs
  = msgs
    ++ (if nonempty thinkingText && showThinking
        then [mkMessage thinking (thinkingBuffer now) None] else [])
    ++ (if nonempty contentText
        then [mkMessage assistant (contentBuffer now) None] else []).
Proof.
  unfold StreamingChatUI.finalize, messages_after.
  destruct (nonempty thinkingText && showThinking), (nonempty contentText);
    simpl; rewrite ?app_nil_r, <- ?app_assoc; reflexivity.
Qed.

(** The texts a [done] event finalizes.  In a stream whose lines are
    [before], a [done] line and [after], the [done] branch queues its
    updaters according to the texts accumulated from [before]; when React
    runs them after [k] further lines have been handled, they read those
    texts followed by the deltas of the first [k] lines of [after]. *)
Lemma finalized_text_at (before after : list string) (done_line : string)
    (fields : list (string * JS.value)) (k : nat) :
  startsWith done_line "data: " = true ->
  JSON_parse (slice 6 done_line) = Some (JS.Obj fields) ->
  JS.lookup "type" fields = Some (JS.Str "done") ->
  let st := fst (steps before initial) in
  let now := fst (steps (firstn k after) (fst (step done_line st))) in
  snd (step done_line st)
  = finalize (deltas "thinking" before) (deltas "content" before)
  /\ thinkingBuffer now
     = (deltas "thinking" before ++ deltas "thinking" (firstn k after))%string
  /\ contentBuffer now
     = (deltas "content" before ++ deltas "content" (firstn k after))%string.
Proof.
  intros Hd Hp Ht st now. subst st now.
  destruct (steps_buffers JSON_parse Number_toString showThinking onFileModified
              before initial) as [Hth Hco].
  simpl in Hth, Hco.
  unfold StreamingChatUI.step at 1 2 3.
  rewrite (processLine_done _ _ _ _ done_line fields _ Hd Hp Ht). simpl.
  destruct (steps_buffers JSON_parse Number_toString showThinking onFileModified
              (firstn k after) (fst (steps before initial))) as [Hth' Hco'].
  rewrite Hth', Hco', Hth, Hco. repeat split.
Qed.

(** When the [done] event is the last line that adds text, the finalized
    messages carry exactly the text accumulated before it, whenever React
    runs the updaters. *)
Lemma finalized_text_when_done_is_last (before after : list string)
    (done_line : string) (fields : list (string * JS.value)) (k : nat) :
  startsWith done_line "data: " = true ->
  JSON_parse (slice 6 done_line) = Some (JS.Obj fields) ->
  JS.lookup "type" fields = Some (JS.Str "done") ->
  deltas "thinking" (firstn k after) = "" ->
  deltas "content" (firstn k after) = "" ->
  forall msgs,
    let st := fst (steps before initial) in
    let now := fst (steps (firstn k after) (fst (step done_line st))) in
    messages_after now (snd (step done_line st)) msgs
    = msgs
      ++ (if nonempty (deltas "thinking" before) && showThinking
          then [mkMessage thinking (deltas "thinking" before) None] else [])
      ++ (if nonempty (deltas "content" before)
          then [mkMessage assistant (deltas "content" before) None] else []).
Proof.
  intros Hd Hp Ht Hth Hco msgs st now.
  destruct (finalized_text_at before after done_line fields k Hd Hp Ht)
    as (E & Eth & Eco).
  fold st in E. fold st now in Eth, Eco.
  rewrite E, messages_after_finalize, Eth, Eco, Hth, Hco.
  now rewrite !append_empty_r.
Qed.

(** C4, as the code has it.  A [data: ] line whose payload fails
    [JSON.parse] is logged with [console.error('Error parsing SSE data:', e)]
    and has no other effect; the lines before and after it are decoded
    exactly as in the stream without it. *)
Theorem malformed_line_is_logged_and_skipped
    (chunks chunks' before after : list string) (line : string) :
  startsWith line "data: " = true ->
  JSON_parse (slice 6 line) = None ->
  complete_lines (concat_chunks chunks) = before ++ line :: after ->
  complete_lines (concat_chunks chunks') = before ++ after ->
  let rest := snd (steps after (fst (steps before initial)))
              ++ [SetIsStreaming false] in
  handleSendMessage chunks Eof
  = snd (steps before initial)
    ++ [ConsoleError "Error parsing SSE data:" JS.SyntaxError] ++ rest
  /\ handleSendMessage chunks' Eof = snd (steps before initial) ++ rest.
Proof.
  intros Hd Hp H1 H2 rest. subst rest.
  rewrite !handleSendMessage_lines, H1, H2, !steps_app.
  destruct (steps before initial) as [s1 o1]. simpl.
  unfold StreamingChatUI.step.
  rewrite (processLine_malformed _ _ _ _ line s1 Hd Hp). simpl.
  destruct (steps after s1) as [s2 o2]. simpl.
  now rewrite <- !app_assoc.
Qed.

(** C5, as the code has it.  The loop keeps no record of an open tool call
    and reports no protocol error.  A [tool_call] event appends a tool
    message without result, whatever came before; a [tool_result] event
    queues the result updater, whatever tool it names; neither changes the
    locals.  The updater stores the result in the last tool message that
    carries a tool call, and changes nothing when there is no tool
    message. *)
Theorem tool_events_are_not_checked :
  (forall line fields label st,
     startsWith line "data: " = true ->
     JSON_parse (slice 6 line) = Some (JS.Obj fields) ->
     JS.lookup "type" fields = Some (JS.Str "tool_call") ->
     JS.ToString Number_toString (JS.prop fields "tool_name") = inr label ->
     processLine line st
     = (st,
        [SetMessages
           (Append
              (mkMessage tool ("Executing: " ++ label)
                 (Some (mkToolCall (JS.prop fields "tool_name")
                                   (JS.prop fields "tool_args") JS.Undefined))))],
        inr tt))
  /\ (forall line fields st,
        startsWith line "data: " = true ->
        JSON_parse (slice 6 line) = Some (JS.Obj fields) ->
        JS.lookup "type" fields = Some (JS.Str "tool_result") ->
        processLine line st
        = (st,
           SetMessages (StoreToolResult (JS.prop fields "result"))
           :: (if (JS.is_str (JS.prop fields "tool_name") "write_file"
                   || JS.is_str (JS.prop fields "tool_name") "edit_file")
                  && onFileModified
               then [OnFileModified
                       (JS.get_opt (JS.prop fields "tool_args") "file_path")]
               else []),
           inr tt))
  /\ (forall now r before m after,
        is_tool (role m) = true ->
        forallb (fun x => negb (is_tool (role x))) after = true ->
        run_updater now (StoreToolResult r) (before ++ m :: after)
        = before ++ with_result r m :: after)
  /\ (forall now r msgs,
        forallb (fun x => negb (is_tool (role x))) msgs = true ->
        run_updater now (StoreToolResult r) msgs = msgs).
Proof.
  split; [|split; [|split]].
  - intros. now apply processLine_tool_call.
  - intros. now apply processLine_tool_result.
  - intros. now apply UpdaterFacts.tool_result_updater_last.
  - intros. now apply UpdaterFacts.tool_result_updater_none.
Qed.

(** C2, as the code has it.  [chatApi.streamMessage] accepts the two
    sentinels: the payload [[DONE]] calls [onComplete] and returns; a
    payload starting with [[ERROR]] calls [onError] with the payload less
    its first eight characters (the tag and the character after it, with no
    trimming) and returns.  [handleSendMessage] accepts the typed form: a
    JSON object whose [type] is ["done"] queues the finalization of the
    accumulated texts. *)
Theorem terminal_forms_accepted :
  ChatApi.processLine "data: [DONE]" = ([ChatApi.OnComplete], ChatApi.Return)
  /\ (forall rest,
        ChatApi.processLine ("data: [ERROR]" ++ rest)
        = ([ChatApi.OnError (slice 1 rest)], ChatApi.Return))
  /\ (forall line fields st,
        startsWith line "data: " = true ->
        JSON_parse (slice 6 line) = Some (JS.Obj fields) ->
        JS.lookup "type" fields = Some (JS.Str "done") ->
        processLine line st
        = (st, finalize (thinkingBuffer st) (contentBuffer st), inr tt))
  /\ (forall now thinkingText contentText msgs,
        messages_after now (finalize thinkingText contentText) msgs
        = msgs
          ++ (if nonempty thinkingText && showThinking
              then [mkMessage thinking (thinkingBuffer now) None] else [])
          ++ (if nonempty contentText
              then [mkMessage assistant (contentBuffer now) None] else [])).
Proof.
  split; [reflexivity|]. split; [|split].
  - intros rest. destruct rest; reflexivity.
  - intros line fields st Hd Hp Ht. now apply processLine_done with (fields := fields).
  - intros. apply messages_after_finalize.
Qed.

End Decoding.

(** ** The decoding theorems at concrete streams *)

Section Instances.

Import StreamingChatUI Concrete.

(** C7 (accumulated text at [done]).  The updater that finalizes the
    assistant message reads [contentBuffer] when React runs it, and the
    loop goes on decoding after a [done] event (see C3).  For the stream
    [Hi], [done], [ again] in one chunk: run at the call, the updater would
    finalize the text before the [done] event, [Hi]; run once the chunk has
    been handled, as batched state updates are, it finalizes [Hi again],
    which holds a content event decoded after the [done] event. *)
Theorem finalized_text_includes_content_after_done :
  let chunk := (content_line "Hi" ++ done_line ++ content_line " again")%string in
  Concrete.handleSendMessage true false [chunk] Eof
  = [SetCurrentContent "Hi";
     SetMessages AppendAssistant;
     SetCurrentThinking ""; SetCurrentContent "";
     SetCurrentContent "Hi again";
     SetIsStreaming false]
  /\ Concrete.rendered_messages true false (fun _ => 0) [chunk] []
     = [mkMessage assistant "Hi" None]
  /\ Concrete.rendered_messages true false (fun _ => 2) [chunk] []
     = [mkMessage assistant "Hi again" None].
Proof. repeat split; vm_compute; reflexivity. Qed.

(** On the stream [Hello], [, world], [done], where nothing follows the
    [done] event, the finalized text is the whole content. *)
Lemma finalized_text_when_done_is_last_example :
  let before := [data (jsq "{'type':'content','content':'Hello'}");
                 data (jsq "{'type':'content','content':', world'}")] in
  let done_event := data (jsq "{'type':'done'}") in
  let st := fst (StreamingChatUI.steps JSON.parse number_text true false
                   before initial) in
  messages_after
    (fst (StreamingChatUI.step JSON.parse number_text true false done_event st))
    (snd (StreamingChatUI.step JSON.parse number_text true false done_event st))
    []
  = [mkMessage assistant "Hello, world" None].
Proof.
  exact (finalized_text_when_done_is_last JSON.parse number_text true false
           [data (jsq "{'type':'content','content':'Hello'}");
            data (jsq "{'type':'content','content':', world'}")]
           [] (data (jsq "{'type':'done'}")) [("type", JS.Str "done")] 0
           eq_refl eq_refl eq_refl eq_refl eq_refl []).
Defined.

(** C4 on a stream with one broken line between a content line and the
    [done] line. *)
Lemma malformed_line_is_logged_and_skipped_witness :
  Concrete.handleSendMessage true false
    [content_line "a"; Concrete.sse "{oops"; done_line] Eof
  = [SetCurrentContent "a";
     ConsoleError "Error parsing SSE data:" JS.SyntaxError;
     SetMessages AppendAssistant;
     SetCurrentThinking ""; SetCurrentContent "";
     SetIsStreaming false]
  /\ Concrete.handleSendMessage true false [content_line "a"; done_line] Eof
     = [SetCurrentContent "a";
        SetMessages AppendAssistant;
        SetCurrentThinking ""; SetCurrentContent "";
        SetIsStreaming false].
Proof.
  refine (malformed_line_is_logged_and_skipped
            JSON.parse Concrete.number_text true false
            [content_line "a"; Concrete.sse "{oops"; done_line]
            [content_line "a"; done_line]
            [data (jsq "{'type':'content','content':'a'}")]
            [data (jsq "{'type':'done'}")]
            (data "{oops")
            _ _ _ _); vm_compute; reflexivity.
Defined.

(** C4 as stated fails: the broken line produces a console log carrying the
    parser's exception; no error with the message the claim names is put in
    the message list or logged. *)
Lemma malformed_line_emits_no_error_event :
  let trace := Concrete.handleSendMessage true false
                 [content_line "a"; Concrete.sse "{oops"; done_line] Eof in
  trace = [SetCurrentContent "a";
           ConsoleError "Error parsing SSE data:" JS.SyntaxError;
           SetMessages AppendAssistant;
           SetCurrentThinking ""; SetCurrentContent "";
           SetIsStreaming false]
  /\ (forall m, In (SetMessages (Append m)) trace -> False)
  /\ forall label e,
       In (ConsoleError label e) trace ->
       label <> "malformed event payload"
       /\ e <> JS.Error "malformed event payload".
Proof.
  vm_compute. split; [reflexivity|]. split.
  - intros m H. repeat (destruct H as [H|H]; [discriminate|]). exact H.
  - intros label e H.
    repeat (destruct H as [H|H];
            [try discriminate; injection H as <- <-; split; discriminate|]).
    destruct H.
Qed.

(** C5 at a [tool_call] line, a [tool_result] line and two message lists. *)
Lemma tool_events_are_not_checked_witness :
  Concrete.processLine true false
    (data (jsq "{'type':'tool_call','tool_name':'read_file','tool_args':{'path':'a.ts'}}"))
    initial
  = (initial,
     [SetMessages
        (Append
           (mkMessage tool "Executing: read_file"
              (Some (mkToolCall (JS.Str "read_file")
                                (JS.Obj [("path", JS.Str "a.ts")])
                                JS.Undefined))))],
     inr tt)
  /\ Concrete.processLine true false
       (data (jsq "{'type':'tool_result','tool_name':'read_file','result':{'ok':true}}"))
       initial
     = (initial,
        [SetMessages (StoreToolResult (JS.Obj [("ok", JS.Bool true)]))],
        inr tt)
  /\ run_updater initial (StoreToolResult (JS.Bool true))
       [mkMessage tool "Executing: read_file"
          (Some (mkToolCall (JS.Str "read_file") JS.Undefined JS.Undefined));
        mkMessage assistant "ok" None]
     = [mkMessage tool "Executing: read_file"
          (Some (mkToolCall (JS.Str "read_file") JS.Undefined (JS.Bool true)));
        mkMessage assistant "ok" None]
  /\ run_updater initial (StoreToolResult (JS.Bool true))
       [mkMessage assistant "ok" None]
     = [mkMessage assistant "ok" None].
Proof.
  destruct (tool_events_are_not_checked
              JSON.parse Concrete.number_text true false) as (H1 & H2 & H3 & H4).
  split; [|split; [|split]].
  - refine (H1 (data (jsq "{'type':'tool_call','tool_name':'read_file','tool_args':{'path':'a.ts'}}"))
              [("type", JS.Str "tool_call"); ("tool_name", JS.Str "read_file");
               ("tool_args", JS.Obj [("path", JS.Str "a.ts")])]
              "read_file" initial _ _ _ _); vm_compute; reflexivity.
  - refine (H2 (data (jsq "{'type':'tool_result','tool_name':'read_file','result':{'ok':true}}"))
              [("type", JS.Str "tool_result"); ("tool_name", JS.Str "read_file");
               ("result", JS.Obj [("ok", JS.Bool true)])]
              initial _ _ _); vm_compute; reflexivity.
  - refine (H3 initial (JS.Bool true) []
              (mkMessage tool "Executing: read_file"
                 (Some (mkToolCall (JS.Str "read_file") JS.Undefined JS.Undefined)))
              [mkMessage assistant "ok" None] _ _); reflexivity.
  - refine (H4 initial (JS.Bool true) [mkMessage assistant "ok" None] _). reflexivity.
Defined.

(** C5 as stated fails: a second [tool_call] arriving while the first has
    no result is accepted like the first, a [tool_result] naming the first
    tool is stored in the second tool's message, and a [tool_result] with no
    tool call at all passes silently; no error appears in either trace. *)
Lemma nested_and_unmatched_tool_events_pass :
  let call1 := Concrete.sse
    (jsq "{'type':'tool_call','tool_name':'read_file','tool_args':{'path':'a.ts'}}") in
  let call2 := Concrete.sse
    (jsq "{'type':'tool_call','tool_name':'write_file','tool_args':{'file_path':'b.ts'}}") in
  let result1 := Concrete.sse
    (jsq "{'type':'tool_result','tool_name':'read_file','result':{'ok':true}}") in
  let message1 := mkMessage tool "Executing: read_file"
    (Some (mkToolCall (JS.Str "read_file") (JS.Obj [("path", JS.Str "a.ts")])
                      JS.Undefined)) in
  let message2 (r : JS.value) := mkMessage tool "Executing: write_file"
    (Some (mkToolCall (JS.Str "write_file")
                      (JS.Obj [("file_path", JS.Str "b.ts")]) r)) in
  Concrete.handleSendMessage true false [call1; call2; result1] Eof
  = [SetMessages (Append message1);
     SetMessages (Append (message2 JS.Undefined));
     SetMessages (StoreToolResult (JS.Obj [("ok", JS.Bool true)]));
     SetIsStreaming false]
  /\ Concrete.rendered_messages true false (fun _ => 0) [call1; call2; result1] []
     = [message1; message2 (JS.Obj [("ok", JS.Bool true)])]
  /\ Concrete.handleSendMessage true false [result1] Eof
     = [SetMessages (StoreToolResult (JS.Obj [("ok", JS.Bool true)]));
        SetIsStreaming false].
Proof. repeat split; vm_compute; reflexivity. Qed.

(** C2 at the typed [done] line. *)
Lemma terminal_forms_accepted_witness :
  Concrete.processLine true false (data (jsq "{'type':'done'}"))
    (mkLocals "" "" "Hi" false true)
  = (mkLocals "" "" "Hi" false true,
     [SetMessages AppendAssistant;
      SetCurrentThinking ""; SetCurrentContent ""],
     inr tt).
Proof.
  refine (proj1 (proj2 (proj2 (terminal_forms_accepted
                                 JSON.parse Concrete.number_text true false)))
            (data (jsq "{'type':'done'}")) [("type", JS.Str "done")]
            (mkLocals "" "" "Hi" false true) _ _ _); vm_compute; reflexivity.
Defined.

(** C2 as stated fails: no loop accepts all four forms.  In
    [handleSendMessage] the sentinel [[DONE]] fails [JSON.parse] and is only
    logged, so the content before it is never finalized; in [streamMessage]
    a typed [done] payload is handed to [onChunk] and the stream goes on;
    and the message of an [[ERROR]] line is cut after eight characters, not
    trimmed. *)
Lemma terminal_forms_not_all_accepted :
  Concrete.handleSendMessage true false
    [content_line "Hi"; Concrete.sse "[DONE]"] Eof
  = [SetCurrentContent "Hi";
     ConsoleError "Error parsing SSE data:" JS.SyntaxError;
     SetIsStreaming false]
  /\ ChatApi.streamMessage [done_line; Concrete.sse "late"] ChatApi.Eof
     = [ChatApi.OnChunk (jsq "{'type':'done'}"); ChatApi.OnChunk "late";
        ChatApi.OnComplete]
  /\ ChatApi.streamMessage [Concrete.sse "[ERROR]  boom "] ChatApi.Eof
     = [ChatApi.OnError " boom "]
  /\ ChatApi.streamMessage [Concrete.sse "[ERROR]boom"] ChatApi.Eof
     = [ChatApi.OnError "oom"].
Proof. repeat split; vm_compute; reflexivity. Qed.

(** C3 (terminal idempotence).  [handleSendMessage] has no [break] or
    [return] in its [done] branch and catches the exception of its [error]
    branch per line, so it goes on decoding: a second chunk delivered after
    a [done] event sets the content again and finalizes a second message
    (holding the first text once more), and a content line after an [error]
    event is decoded.  The sibling loop [streamMessage] returns at its
    sentinel and ignores what follows. *)
Theorem handleSendMessage_decodes_after_terminal_event :
  let chunk1 := (content_line "Hi" ++ done_line)%string in
  let chunk2 := (content_line " again" ++ done_line)%string in
  Concrete.handleSendMessage true false [chunk1] Eof
  = [SetCurrentContent "Hi";
     SetMessages AppendAssistant;
     SetCurrentThinking ""; SetCurrentContent "";
     SetIsStreaming false]
  /\ Concrete.handleSendMessage true false [chunk1; chunk2] Eof
     = [SetCurrentContent "Hi";
        SetMessages AppendAssistant;
        SetCurrentThinking ""; SetCurrentContent "";
        SetCurrentContent "Hi again";
        SetMessages AppendAssistant;
        SetCurrentThinking ""; SetCurrentContent "";
        SetIsStreaming false]
  /\ Concrete.rendered_messages true false (fun _ => 0) [chunk1; chunk2] []
     = [mkMessage assistant "Hi" None; mkMessage assistant "Hi again" None]
  /\ Concrete.handleSendMessage true false
       [Concrete.sse (jsq "{'type':'error','error':'boom'}"); content_line "x"] Eof
     = [ConsoleError "Error parsing SSE data:" (JS.Error "boom");
        SetCurrentContent "x"; SetIsStreaming false]
  /\ ChatApi.streamMessage
       [Concrete.sse "[DONE]"; Concrete.sse "late"] ChatApi.Eof
     = [ChatApi.OnComplete].
Proof. repeat split; vm_compute; reflexivity. Qed.

End Instances.

(** ** The keyboard-shortcut matcher *)

Module ShortcutFacts.

Import Shortcuts.

Section Scan.

Variable Handler : Type.
Implicit Types (shortcut : KeyboardShortcut Handler)
               (shortcuts : list (KeyboardShortcut Handler)).

(** The loop invokes the first shortcut that passes all its tests, and no
    other. *)
Lemma scan_first_eligible (inInput : bool) (event : KeyboardEvent) shortcuts :
  invoked (scan inInput event shortcuts)
  = match find (eligible inInput event) shortcuts with
    | Some shortcut => [handler shortcut]
    | None => []
    end.
Proof.
  induction shortcuts as [|sc rest IH]; simpl; [reflexivity|].
  unfold eligible at 1.
  destruct (matchesKey event sc && matchesModifier event sc); simpl;
    [|exact IH].
  destruct (suppressed inInput event sc); simpl; [exact IH|].
  destruct (preventDefault sc) as [[|]|]; reflexivity.
Qed.

Lemma invoked_at_most_once (inInput : bool) (event : KeyboardEvent) shortcuts :
  length (invoked (scan inInput event shortcuts)) <= 1.
Proof.
  rewrite scan_first_eligible.
  destruct (find _ _); simpl; lia.
Qed.

(** The event's key enters the loop only through its lower-case form. *)
Lemma scan_key_case (inInput : bool) (k k' : string) (c s a m : bool) shortcuts :
  toLowerCase k = toLowerCase k' ->
  scan inInput (mkEvent k c s a m) shortcuts
  = scan inInput (mkEvent k' c s a m) shortcuts.
Proof.
  intros H. induction shortcuts as [|sc rest IH]; simpl; [reflexivity|].
  unfold matchesKey, matchesModifier, suppressed, cmdOrCtrl. simpl.
  now rewrite H, IH.
Qed.

Lemma suppressed_no_cmdOrCtrl (inInput : bool) (event : KeyboardEvent) shortcut :
  suppressed inInput event shortcut = true ->
  inInput = true /\ key shortcut <> "Escape" /\ cmdOrCtrl event = false.
Proof.
  unfold suppressed. intros H.
  apply andb_prop in H as [H Hc]. apply andb_prop in H as [Hi Hk].
  repeat split.
  - exact Hi.
  - intros E. rewrite E in Hk. discriminate.
  - now destruct (cmdOrCtrl event).
Qed.

Lemma requesting_needs_cmdOrCtrl (event : KeyboardEvent) shortcut :
  truthy (ctrl shortcut) || truthy (meta shortcut) = true ->
  matchesModifier event shortcut = true -> cmdOrCtrl event = true.
Proof.
  unfold matchesModifier. intros ->.
  destruct (cmdOrCtrl event); [reflexivity | discriminate].
Qed.

Lemma find_eligible_in (inInput : bool) (event : KeyboardEvent) shortcuts shortcut :
  find (eligible inInput event) shortcuts = Some shortcut ->
  In shortcut shortcuts
  /\ matchesKey event shortcut = true
  /\ matchesModifier event shortcut = true
  /\ suppressed inInput event shortcut = false.
Proof.
  intros H. apply find_some in H as [Hin He].
  unfold eligible in He.
  apply andb_prop in He as [He Hs]. apply andb_prop in He as [Hk Hm].
  repeat split; try assumption. now destruct (suppressed inInput event shortcut).
Qed.

End Scan.

End ShortcutFacts.

Module RuleFacts.

Import JSString Shortcuts ShortcutFacts MatchingRule.

Lemma matchesFlag_spec (flag : option bool) (held : bool) :
  matchesFlag flag held = true <-> flag_allows flag held.
Proof.
  unfold matchesFlag, flag_allows. destruct flag as [b|].
  - rewrite Bool.eqb_true_iff. split.
    + intros ->. now right.
    + intros [H|H]; [discriminate | now injection H].
  - split; [now left | reflexivity].
Qed.

Lemma truthy_spec (flag : option bool) : truthy flag = true <-> flag = Some true.
Proof. destruct flag as [[|]|]; simpl; split; congruence. Qed.

Lemma isInputField_spec (activeElement : option Element) :
  isInputField activeElement = true <-> in_input_field activeElement.
Proof.
  unfold isInputField, in_input_field. destruct activeElement as [el|].
  - rewrite !orb_true_iff, !String.eqb_eq. split.
    + intros H. exists el. split; [reflexivity|].
      destruct H as [[H|H]|H]; [now left | now right; left |].
      right. right. destruct (contenteditable el) as [v|]; [|discriminate].
      apply String.eqb_eq in H. now subst v.
    + intros (el' & [= <-] & [H|[H|H]]); [now left; left | now left; right |].
      right. rewrite H. apply String.eqb_refl.
  - split; [discriminate | intros (el & H & _); discriminate].
Qed.

Section Rule.

Variable Handler : Type.
Implicit Types (event : KeyboardEvent) (shortcut : KeyboardShortcut Handler)
               (shortcuts : list (KeyboardShortcut Handler)).

Lemma matchesKey_spec event shortcut :
  matchesKey event shortcut = true <-> same_key event shortcut.
Proof. unfold matchesKey, same_key. apply String.eqb_eq. Qed.

Lemma requests_spec shortcut :
  truthy (ctrl shortcut) || truthy (meta shortcut) = true
  <-> requests_ctrl_or_meta shortcut.
Proof.
  unfold requests_ctrl_or_meta. now rewrite orb_true_iff, !truthy_spec.
Qed.

Lemma matchesModifier_spec event shortcut :
  matchesModifier event shortcut = true <-> modifiers_allow event shortcut.
Proof.
  unfold matchesModifier, modifiers_allow.
  destruct (truthy (ctrl shortcut) || truthy (meta shortcut)) eqn:R.
  - apply requests_spec in R.
    rewrite !andb_true_iff, !matchesFlag_spec. unfold cmdOrCtrl.
    rewrite orb_true_iff. split.
    + intros [[Hc Hs] Ha]. split; [exact Hs|]. split; [exact Ha|].
      left. split; assumption.
    + intros (Hs & Ha & [[_ Hc]|[N _]]); [|contradiction].
      repeat split; assumption.
  - assert (N : ~ requests_ctrl_or_meta shortcut).
    { intros H. apply requests_spec in H. congruence. }
    rewrite !andb_true_iff, !matchesFlag_spec. split.
    + intros [[[Hc Hs] Ha] Hm]. split; [exact Hs|]. split; [exact Ha|].
      right. repeat split; assumption.
    + intros (Hs & Ha & [[H _]|(_ & Hc & Hm)]); [contradiction|].
      repeat split; assumption.
Qed.

Lemma suppressed_spec (inInput : bool) event shortcut :
  suppressed inInput event shortcut = true <-> held_back inInput event shortcut.
Proof.
  unfold suppressed, held_back, cmdOrCtrl.
  rewrite !andb_true_iff, !negb_true_iff, orb_false_iff.
  split.
  - intros [[Hi Hk] [Hc Hm]]. repeat split; try assumption.
    intros E. rewrite E in Hk. discriminate.
  - intros (Hi & Hk & Hc & Hm). repeat split; try assumption.
    destruct (String.eqb (key shortcut) "Escape") eqn:E; [|reflexivity].
    apply String.eqb_eq in E. contradiction.
Qed.

Lemma eligible_spec (inInput : bool) event shortcut :
  eligible inInput event shortcut = true <-> fires inInput event shortcut.
Proof.
  unfold eligible, fires, satisfies.
  rewrite !andb_true_iff, negb_true_iff, matchesKey_spec, matchesModifier_spec.
  rewrite <- suppressed_spec. split.
  - intros [H Hs]. split; [exact H | congruence].
  - intros [H Hs]. split; [exact H|].
    now destruct (suppressed inInput event shortcut).
Qed.

Lemma not_eligible_spec (inInput : bool) event shortcut :
  eligible inInput event shortcut = false <-> ~ fires inInput event shortcut.
Proof.
  rewrite <- eligible_spec.
  destruct (eligible inInput event shortcut); split; congruence.
Qed.

(** The loop, one descriptor at a time. *)
Lemma scan_step (inInput : bool) event shortcut shortcuts :
  scan inInput event (shortcut :: shortcuts)
  = if eligible inInput event shortcut
    then match preventDefault shortcut with
         | Some false => []
         | _ => [PreventDefault]
         end ++ [Invoke (handler shortcut)]
    else scan inInput event shortcuts.
Proof.
  simpl. unfold eligible.
  destruct (matchesKey event shortcut && matchesModifier event shortcut);
    [|reflexivity].
  now destruct (suppressed inInput event shortcut).
Qed.

Lemma scan_first_fires (inInput : bool) event shortcuts :
  (exists before shortcut after,
     shortcuts = before ++ shortcut :: after
     /\ fires inInput event shortcut
     /\ (forall earlier, In earlier before -> ~ fires inInput event earlier)
     /\ scan inInput event shortcuts
        = match preventDefault shortcut with
          | Some false => []
          | _ => [PreventDefault]
          end ++ [Invoke (handler shortcut)])
  \/ ((forall shortcut, In shortcut shortcuts -> ~ fires inInput event shortcut)
      /\ scan inInput event shortcuts = []).
Proof.
  induction shortcuts as [|sc rest IH].
  - right. split; [intros x [] | reflexivity].
  - rewrite scan_step. destruct (eligible inInput event sc) eqn:E.
    + left. exists [], sc, rest. split; [reflexivity|].
      split; [now apply eligible_spec|]. split; [intros x []|reflexivity].
    + apply not_eligible_spec in E.
      destruct IH as [(before & s & after & -> & Hs & Hb & Ht)|[Hn Ht]].
      * left. exists (sc :: before), s, after. split; [reflexivity|].
        split; [exact Hs|]. split; [|exact Ht].
        intros x [<-|Hx]; [exact E | now apply Hb].
      * right. split; [|exact Ht].
        intros x [<-|Hx]; [exact E | now apply Hn].
Qed.

End Rule.

End RuleFacts.

Section Keyboard.

Import Shortcuts ShortcutFacts MatchingRule RuleFacts.

Variable Handler : Type.

(** C8, as the code has it.  The tests of the loop are those of the
    matching rule: the key is compared without regard to case; an unset
    modifier flag puts no constraint on that modifier and a flag that is set
    asks for that state; a descriptor that asks for ctrl or for meta is
    satisfied by either key being held.  The handler invoked, at most one
    per event, is that of the first descriptor in list order that satisfies
    the rule and is not held back by the input-field guard; when the focus
    is not in an input field that is the first descriptor that satisfies the
    rule. *)
Theorem shortcut_matching_rule :
  (* the tests of the loop are the constraints of the rule *)
  (forall event (shortcut : KeyboardShortcut Handler),
     matchesKey event shortcut = true <-> same_key event shortcut)
  /\ (forall event (shortcut : KeyboardShortcut Handler),
        matchesModifier event shortcut = true <-> modifiers_allow event shortcut)
  /\ (forall inInput event (shortcut : KeyboardShortcut Handler),
        suppressed inInput event shortcut = true
        <-> held_back inInput event shortcut)
  (* the case of the event's key is immaterial to the whole dispatch *)
  /\ (forall inInput k k' c s a m (shortcuts : list (KeyboardShortcut Handler)),
        toLowerCase k = toLowerCase k' ->
        scan inInput (mkEvent k c s a m) shortcuts
        = scan inInput (mkEvent k' c s a m) shortcuts)
  (* the first descriptor that satisfies the rule and is not held back *)
  /\ (forall activeElement (shortcuts : list (KeyboardShortcut Handler)) event,
        (exists before shortcut after,
           shortcuts = before ++ shortcut :: after
           /\ fires (isInputField activeElement) event shortcut
           /\ (forall earlier, In earlier before ->
                               ~ fires (isInputField activeElement) event earlier)
           /\ handleKeyDown activeElement shortcuts event
              = match preventDefault shortcut with
                | Some false => []
                | _ => [PreventDefault]
                end ++ [Invoke (handler shortcut)])
        \/ ((forall shortcut, In shortcut shortcuts ->
                              ~ fires (isInputField activeElement) event shortcut)
            /\ handleKeyDown activeElement shortcuts event = []))
  (* outside an input field nothing is held back *)
  /\ (forall event (shortcut : KeyboardShortcut Handler),
        fires false event shortcut <-> satisfies event shortcut)
  (* at most one handler per event *)
  /\ (forall activeElement (shortcuts : list (KeyboardShortcut Handler)) event,
        length (invoked (handleKeyDown activeElement shortcuts event)) <= 1)
  (* what counts as an input field *)
  /\ (forall activeElement,
        isInputField activeElement = true <-> in_input_field activeElement).
Proof.
  repeat match goal with |- _ /\ _ => split end;
    try (intros; apply isInputField_spec).
  - intros. apply matchesKey_spec.
  - intros. apply matchesModifier_spec.
  - intros. apply suppressed_spec.
  - intros. now apply scan_key_case.
  - intros. unfold handleKeyDown. apply scan_first_fires.
  - intros event shortcut. unfold fires, held_back. split.
    + now intros [H _].
    + intros H. split; [exact H|]. intros [E _]. discriminate.
  - intros. apply invoked_at_most_once.
Qed.

(** C9, as the code has it.  While the focus is in an input field, a
    handler is invoked only for a matching shortcut whose key is written
    exactly [Escape] or when the event has ctrl or meta held; with neither
    held, every shortcut whose key is not exactly [Escape] is suppressed. *)
Theorem input_field_gate :
  (forall activeElement (shortcuts : list (KeyboardShortcut Handler)) event h,
     isInputField activeElement = true ->
     In h (invoked (handleKeyDown activeElement shortcuts event)) ->
     exists shortcut,
       In shortcut shortcuts /\ handler shortcut = h
       /\ matchesKey event shortcut = true
       /\ matchesModifier event shortcut = true
       /\ (key shortcut = "Escape" \/ ctrlKey event = true \/ metaKey event = true))
  /\ (forall activeElement (shortcuts : list (KeyboardShortcut Handler)) event,
        isInputField activeElement = true ->
        ctrlKey event = false -> metaKey event = false ->
        (forall shortcut, In shortcut shortcuts -> key shortcut <> "Escape") ->
        handleKeyDown activeElement shortcuts event = []).
Proof.
  split.
  - intros ae shortcuts event h Hin Hh.
    unfold handleKeyDown in Hh. rewrite scan_first_eligible, Hin in Hh.
    destruct (find (eligible true event) shortcuts) as [sc|] eqn:E; [|destruct Hh].
    destruct Hh as [<-|[]].
    apply find_eligible_in in E as (Hsc & Hk & Hm & Hs).
    exists sc. repeat split; try assumption.
    unfold suppressed, cmdOrCtrl in Hs. simpl in Hs.
    destruct (String.eqb (key sc) "Escape") eqn:Ek.
    + left. now apply String.eqb_eq.
    + right. simpl in Hs. destruct (ctrlKey event); [now left|].
      destruct (metaKey event); [now right | discriminate].
  - intros ae shortcuts event Hin Hc Hm Hkeys.
    unfold handleKeyDown. rewrite Hin.
    induction shortcuts as [|sc rest IH]; simpl; [reflexivity|].
    assert (Hs : suppressed true event sc = true).
    { unfold suppressed, cmdOrCtrl. rewrite Hc, Hm. simpl.
      destruct (String.eqb (key sc) "Escape") eqn:Ek; [|reflexivity].
      apply String.eqb_eq in Ek. now apply Hkeys in Ek; [|left]. }
    rewrite Hs.
    rewrite IH by (intros x Hx; apply Hkeys; now right).
    now destruct (matchesKey event sc && matchesModifier event sc).
Qed.

(** C10, as the code has it.  A match suppressed by the input-field guard
    does not end the dispatch: the loop goes on to the remaining
    descriptors.  A later descriptor can then be invoked only if its key is
    written exactly [Escape] (the suppressed one spelling the same key in
    another case), since the guard's ctrl/meta test depends on the event
    alone. *)
Theorem suppressed_match_continues_scan :
  (forall inInput event (shortcut : KeyboardShortcut Handler) rest,
     matchesKey event shortcut && matchesModifier event shortcut = true ->
     suppressed inInput event shortcut = true ->
     scan inInput event (shortcut :: rest) = scan inInput event rest)
  /\ (forall inInput event (shortcut : KeyboardShortcut Handler) rest (h : Handler),
        suppressed inInput event shortcut = true ->
        In h (invoked (scan inInput event rest)) ->
        exists later,
          In later rest /\ handler later = h /\ key later = "Escape"
          /\ matchesKey event later = true /\ matchesModifier event later = true)
  /\ (forall h1 h2 : Handler,
        let first := mkShortcut "escape" None None None None "close" h1 None in
        let second := mkShortcut "Escape" None None None None "close" h2 None in
        let event := mkEvent "Escape" false false false false in
        matchesKey event first && matchesModifier event first = true
        /\ suppressed true event first = true
        /\ invoked (scan true event [first; second]) = [h2]).
Proof.
  split; [|split].
  - intros inInput event sc rest Hm Hs. simpl. now rewrite Hm, Hs.
  - intros inInput event sc rest h Hs Hh.
    apply suppressed_no_cmdOrCtrl in Hs as (Hi & _ & Hc).
    rewrite scan_first_eligible in Hh.
    destruct (find (eligible inInput event) rest) as [later|] eqn:E; [|destruct Hh].
    destruct Hh as [<-|[]].
    apply find_eligible_in in E as (Hin & Hk & Hm & Hs').
    exists later. repeat split; try assumption.
    unfold suppressed in Hs'. rewrite Hi, Hc in Hs'. simpl in Hs'.
    destruct (String.eqb (key later) "Escape") eqn:Ek; [|discriminate].
    now apply String.eqb_eq.
  - intros h1 h2. repeat split.
Qed.

End Keyboard.

(** C8 at the shortcut [k] for the events [K] and [j], and at the shortcut
    written with the small letter U+00E9 for the event with the capital
    U+00C9. *)
Lemma shortcut_matching_rule_witness :
  let palette :=
    Shortcuts.mkShortcut "k" None None None None "palette" "openPalette" None in
  let accent :=
    Shortcuts.mkShortcut (String (ascii_of_nat 233) "") None None None None
      "accent" "onAccent" None in
  Shortcuts.matchesKey (Shortcuts.mkEvent "K" false false false false) palette
  = true
  /\ Shortcuts.matchesKey (Shortcuts.mkEvent "j" false false false false) palette
     <> true
  /\ Shortcuts.matchesKey
       (Shortcuts.mkEvent (String (ascii_of_nat 201) "") false false false false)
       accent
     = true
  /\ Shortcuts.matchesModifier (Shortcuts.mkEvent "k" false true false false)
       (Shortcuts.mkShortcut "k" None (Some false) None None "plain" "onPlain" None)
     <> true.
Proof.
  intros palette accent.
  destruct (shortcut_matching_rule string) as (HK & HM & _).
  split; [|split; [|split]].
  - apply HK. reflexivity.
  - intros H. apply HK in H. discriminate H.
  - apply HK. reflexivity.
  - intros H. apply HM in H. destruct H as ([H|H] & _); discriminate H.
Defined.

(** C8 as stated fails inside an input field: the first descriptor that
    satisfies all constraints of the rule is passed over by the guard and
    the handler of a later one is invoked. *)
Lemma first_match_is_passed_over_in_input_field :
  let first :=
    Shortcuts.mkShortcut "escape" None None None None "first" "h1" None in
  let second :=
    Shortcuts.mkShortcut "Escape" None None None None "second" "h2" None in
  let event := Shortcuts.mkEvent "Escape" false false false false in
  MatchingRule.satisfies event first
  /\ Shortcuts.invoked
       (Shortcuts.handleKeyDown (Some (Shortcuts.mkElement "INPUT" None))
          [first; second] event)
     = ["h2"].
Proof.
  intros first second event. split; [|reflexivity].
  split; [reflexivity|].
  split; [now left|]. split; [now left|].
  right. split; [|split; now left].
  intros [H|H]; discriminate H.
Qed.

(** C9 at a plain key typed into an [INPUT]. *)
Lemma input_field_gate_witness :
  Shortcuts.handleKeyDown (Some (Shortcuts.mkElement "INPUT" None))
    [Shortcuts.mkShortcut "k" None None None None "palette" "openPalette" None]
    (Shortcuts.mkEvent "k" false false false false)
  = [].
Proof.
  apply (proj2 (input_field_gate string)); try reflexivity.
  intros shortcut [<-|[]]. discriminate.
Defined.

(** C9 as stated fails: a plain-letter shortcut, which asks for neither ctrl
    nor meta, is invoked inside an [INPUT] when the key arrives with ctrl
    held. *)
Lemma plain_shortcut_fires_in_input_with_ctrl_held :
  let shortcut :=
    Shortcuts.mkShortcut "k" None None None None "palette" "openPalette" None in
  Shortcuts.truthy (Shortcuts.ctrl shortcut) = false
  /\ Shortcuts.truthy (Shortcuts.meta shortcut) = false
  /\ Shortcuts.isInputField (Some (Shortcuts.mkElement "INPUT" None)) = true
  /\ Shortcuts.handleKeyDown (Some (Shortcuts.mkElement "INPUT" None)) [shortcut]
       (Shortcuts.mkEvent "k" true false false false)
     = [Shortcuts.PreventDefault; Shortcuts.Invoke "openPalette"].
Proof. repeat split. Qed.

(** C10 at the two spellings of the Escape shortcut. *)
Lemma suppressed_match_continues_scan_witness :
  let first := Shortcuts.mkShortcut "escape" None None None None "close" "h1" None in
  let second := Shortcuts.mkShortcut "Escape" None None None None "close" "h2" None in
  let event := Shortcuts.mkEvent "Escape" false false false false in
  Shortcuts.scan true event [first; second] = Shortcuts.scan true event [second].
Proof.
  apply (proj1 (suppressed_match_continues_scan string)); reflexivity.
Defined.

(** C10 as stated fails in its example: after a suppressed match no
    descriptor can be invoked through ctrl or meta, because a match is
    suppressed only when the event has neither held, and a descriptor that
    asks for ctrl or meta matches only when one is held. *)
Lemma no_ctrl_meta_shortcut_after_suppressed_match :
  ~ (exists (inInput : bool) (event : Shortcuts.KeyboardEvent)
            (first later : Shortcuts.KeyboardShortcut string),
        Shortcuts.suppressed inInput event first = true
        /\ (Shortcuts.cmdOrCtrl event = true
            \/ (Shortcuts.truthy (Shortcuts.ctrl later)
                || Shortcuts.truthy (Shortcuts.meta later) = true
                /\ Shortcuts.matchesModifier event later = true))).
Proof.
  intros (inInput & event & first & later & Hs & H).
  apply ShortcutFacts.suppressed_no_cmdOrCtrl in Hs as (_ & _ & Hc).
  destruct H as [H|[Hr Hm]].
  - congruence.
  - pose proof (ShortcutFacts.requesting_needs_cmdOrCtrl string event later Hr Hm).
    congruence.
Qed.


(** * Further properties of the code *)

(** ** [handleSendMessage]: a line is decoded on its own, then applied *)

Module EventFacts.

Import StreamingChatUI Events LineFacts.

Section Lines.

Variable JSON_parse : string -> option JS.value.
Variable Number_toString : string -> string.
Variable showThinking : bool.
Variable onFileModified : bool.

Abbreviation step := (step JSON_parse Number_toString showThinking onFileModified).
Abbreviation steps := (steps JSON_parse Number_toString showThinking onFileModified).
Abbreviation decode := (decode JSON_parse Number_toString).
Abbreviation apply := (apply showThinking onFileModified).

Lemma step_decode (line : string) (st : Locals) :
  step line st = apply (decode line) st.
Proof.
  unfold StreamingChatUI.step, StreamingChatUI.processLine, Events.decode.
  destruct (startsWith line "data: "); [|reflexivity].
  unfold StreamingChatUI.dispatch, parseJSON.
  destruct (JSON_parse (slice 6 line)) as [data|]; [|reflexivity].
  destruct data as [| |b|lit|s|elems|fields]; try reflexivity.
  run_line. fold (JS.prop fields "type").
  destruct (JS.is_str (JS.prop fields "type") "thinking").
  { fold (JS.prop fields "content").
    destruct (JS.ToString Number_toString (JS.prop fields "content")); reflexivity. }
  destruct (JS.is_str (JS.prop fields "type") "content").
  { fold (JS.prop fields "content").
    destruct (JS.ToString Number_toString (JS.prop fields "content")); reflexivity. }
  destruct (JS.is_str (JS.prop fields "type") "tool_call").
  { fold (JS.prop fields "tool_name") (JS.prop fields "tool_args").
    destruct (JS.ToString Number_toString (JS.prop fields "tool_name")); reflexivity. }
  destruct (JS.is_str (JS.prop fields "type") "tool_result").
  { fold (JS.prop fields "tool_name") (JS.prop fields "tool_args")
         (JS.prop fields "result").
    simpl.
    destruct (JS.is_str (JS.prop fields "tool_name") "write_file"
              || JS.is_str (JS.prop fields "tool_name") "edit_file");
      [destruct onFileModified|]; reflexivity. }
  destruct (JS.is_str (JS.prop fields "type") "done").
  { simpl. unfold StreamingChatUI.finalize.
    destruct (nonempty (thinkingBuffer st) && showThinking),
             (nonempty (contentBuffer st)); reflexivity. }
  destruct (JS.is_str (JS.prop fields "type") "error").
  { fold (JS.prop fields "error").
    destruct (JS.new_Error Number_toString (JS.prop fields "error")); reflexivity. }
  reflexivity.
Qed.

End Lines.

End EventFacts.

(** ** [handleSendMessage]: what a run does and never does *)

Module RunFacts.

Import StreamingChatUI Events EventFacts LoopFacts LineFacts SplitFacts.

Section Runs.

Variable JSON_parse : string -> option JS.value.
Variable Number_toString : string -> string.
Variable showThinking : bool.
Variable onFileModified : bool.

Abbreviation step := (step JSON_parse Number_toString showThinking onFileModified).
Abbreviation steps := (steps JSON_parse Number_toString showThinking onFileModified).
Abbreviation decode := (decode JSON_parse Number_toString).
Abbreviation apply := (apply showThinking onFileModified).

(** Every call made while the lines are handled is made by one of them. *)
Lemma steps_In (lines : list string) (st : Locals) (e : Effect) :
  In e (snd (steps lines st)) ->
  exists line st', In line lines /\ In e (snd (step line st')).
Proof.
  revert st. induction lines as [|line rest IH]; intros st; simpl; [intros []|].
  destruct (step line st) as [s1 o1] eqn:E1.
  destruct (steps rest s1) as [s2 o2] eqn:E2. simpl.
  intros H. apply in_app_or in H as [H|H].
  - exists line, st. rewrite E1. split; [now left | exact H].
  - destruct (IH s1) as (l & st' & Hl & He); [now rewrite E2|].
    exists l, st'. split; [now right | exact He].
Qed.

Lemma finalize_In (thinkingText contentText : string) (e : Effect) :
  In e (finalize showThinking thinkingText contentText) ->
  e = SetMessages AppendThinking \/ e = SetMessages AppendAssistant
  \/ e = SetCurrentThinking "" \/ e = SetCurrentContent "".
Proof using.
  unfold finalize.
  destruct (nonempty thinkingText && showThinking), (nonempty contentText);
    simpl; intros H;
    repeat (destruct H as [<-|H]; [auto 6|]); destruct H.
Qed.

Lemma decode_done (line : string) :
  decode line = DoneEvent ->
  exists fields,
    startsWith line "data: " = true
    /\ JSON_parse (slice 6 line) = Some (JS.Obj fields)
    /\ JS.is_str (JS.prop fields "type") "done" = true.
Proof.
  unfold Events.decode.
  destruct (startsWith line "data: "); [|discriminate].
  destruct (JSON_parse (slice 6 line)) as [[| |b|lit|s|elems|fields]|];
    try discriminate.
  destruct (JS.is_str (JS.prop fields "type") "thinking"); [discriminate|].
  destruct (JS.is_str (JS.prop fields "type") "content"); [discriminate|].
  destruct (JS.is_str (JS.prop fields "type") "tool_call").
  { destruct (JS.ToString Number_toString (JS.prop fields "tool_name")); discriminate. }
  destruct (JS.is_str (JS.prop fields "type") "tool_result"); [discriminate|].
  destruct (JS.is_str (JS.prop fields "type") "done") eqn:E.
  - intros _. now exists fields.
  - destruct (JS.is_str (JS.prop fields "type") "error"); [|discriminate].
    destruct (JS.new_Error Number_toString (JS.prop fields "error")); discriminate.
Qed.

Lemma decode_tool_result (line : string) (name args result : JS.value) :
  decode line = ToolResultEvent name args result ->
  exists fields,
    startsWith line "data: " = true
    /\ JSON_parse (slice 6 line) = Some (JS.Obj fields)
    /\ JS.is_str (JS.prop fields "type") "tool_result" = true
    /\ name = JS.prop fields "tool_name"
    /\ args = JS.prop fields "tool_args"
    /\ result = JS.prop fields "result".
Proof.
  unfold Events.decode.
  destruct (startsWith line "data: "); [|discriminate].
  destruct (JSON_parse (slice 6 line)) as [[| |b|lit|s|elems|fields]|];
    try discriminate.
  destruct (JS.is_str (JS.prop fields "type") "thinking"); [discriminate|].
  destruct (JS.is_str (JS.prop fields "type") "content"); [discriminate|].
  destruct (JS.is_str (JS.prop fields "type") "tool_call").
  { destruct (JS.ToString Number_toString (JS.prop fields "tool_name")); discriminate. }
  destruct (JS.is_str (JS.prop fields "type") "tool_result") eqn:E.
  - intros [= <- <- <-]. exists fields. repeat split; assumption.
  - destruct (JS.is_str (JS.prop fields "type") "done"); [discriminate|].
    destruct (JS.is_str (JS.prop fields "type") "error"); [|discriminate].
    destruct (JS.new_Error Number_toString (JS.prop fields "error")); discriminate.
Qed.

(** The calls one line can make. *)
Lemma apply_In (d : Decoded) (st : Locals) (e : Effect) :
  In e (snd (apply d st)) ->
  (exists x, e = log x)
  \/ (exists s, e = SetCurrentThinking s)
  \/ (exists s, e = SetCurrentContent s)
  \/ (exists m, e = SetMessages (Append m) /\ role m = tool)
  \/ (exists name args result,
        d = ToolResultEvent name args result
        /\ (e = SetMessages (StoreToolResult result)
            \/ (e = OnFileModified (JS.get_opt args "file_path")
                /\ onFileModified = true
                /\ JS.is_str name "write_file" || JS.is_str name "edit_file" = true)))
  \/ (d = DoneEvent
      /\ (e = SetMessages AppendThinking \/ e = SetMessages AppendAssistant)).
Proof using.
  destruct d as [|x|[x|s]|[x|s]|name args label|name args result|]; simpl.
  - intros [].
  - intros [<-|[]]. left. now eexists.
  - intros [<-|[]]. left. now eexists.
  - intros [<-|[]]. right. left. now eexists.
  - intros [<-|[]]. left. now eexists.
  - intros [<-|[]]. right. right. left. now eexists.
  - intros [<-|[]]. right. right. right. left. eexists. split; reflexivity.
  - intros [<-|H].
    + right. right. right. right. left. exists name, args, result.
      split; [reflexivity | now left].
    + right. right. right. right. left. exists name, args, result.
      split; [reflexivity|]. right.
      destruct (JS.is_str name "write_file" || JS.is_str name "edit_file");
        [|destruct H].
      destruct onFileModified; [|destruct H].
      destruct H as [<-|[]]. repeat split.
  - intros H. apply finalize_In in H as [-> | [-> | [-> | ->]]].
    + right. right. right. right. right. split; [reflexivity | now left].
    + right. right. right. right. right. split; [reflexivity | now right].
    + right. left. now eexists.
    + right. right. left. now eexists.
Qed.

Lemma steps_filter_data (lines : list string) (st : Locals) :
  steps (filter (fun line => startsWith line "data: ") lines) st = steps lines st.
Proof.
  revert st. induction lines as [|line rest IH]; intros st; simpl; [reflexivity|].
  destruct (startsWith line "data: ") eqn:E; simpl.
  - destruct (step line st) as [s1 o1]. now rewrite IH.
  - rewrite step_decode. unfold Events.decode. rewrite E. simpl.
    rewrite IH. now destruct (steps rest st).
Qed.

End Runs.

End RunFacts.

Section HandlerProperties.

Import StreamingChatUI Events EventFacts RunFacts LoopFacts LineFacts SplitFacts.

Variable JSON_parse : string -> option JS.value.
Variable Number_toString : string -> string.
Variable showThinking : bool.
Variable onFileModified : bool.

Abbreviation handleSendMessage :=
  (handleSendMessage JSON_parse Number_toString showThinking onFileModified).
Abbreviation processLine :=
  (StreamingChatUI.processLine JSON_parse Number_toString showThinking onFileModified).
Abbreviation step :=
  (StreamingChatUI.step JSON_parse Number_toString showThinking onFileModified).
Abbreviation steps :=
  (StreamingChatUI.steps JSON_parse Number_toString showThinking onFileModified).
Abbreviation deltas := (StreamingChatUI.deltas JSON_parse Number_toString).
Abbreviation decode := (Events.decode JSON_parse Number_toString).
Abbreviation apply := (Events.apply showThinking onFileModified).

Lemma processLine_step (line : string) (st : Locals) :
  processLine line st = (step line st, inr tt).
Proof.
  pose proof (processLine_returns JSON_parse Number_toString showThinking
                onFileModified line st) as H.
  unfold StreamingChatUI.step.
  destruct (processLine line st) as [p r]. simpl in *. now subst r.
Qed.

Lemma line_effect_not_SetIsStreaming (line : string) (st : Locals) (e : Effect) :
  In e (snd (step line st)) -> forall b, e <> SetIsStreaming b.
Proof.
  rewrite step_decode. intros H b.
  apply apply_In in H
    as [(x & ->)|[(s & ->)|[(s & ->)|[(m & -> & _)|[(n & a & r & _ & H)|(_ & H)]]]]];
    unfold log; try discriminate.
  - destruct H as [->|(-> & _)]; discriminate.
  - destruct H as [->| ->]; discriminate.
Qed.

(** From the read loop on, the streaming flag is touched once: it is
    switched off by the last call. *)
Lemma loop_clears_flag_last (chunks : list string) (ending : Ending) :
  exists trace,
    handleSendMessage chunks ending = trace ++ [SetIsStreaming false]
    /\ forall b, ~ In (SetIsStreaming b) trace.
Proof.
  rewrite handleSendMessage_lines.
  set (lines := complete_lines (concat_chunks chunks)).
  assert (Hlines : forall b, ~ In (SetIsStreaming b) (snd (steps lines initial))).
  { intros b H. apply steps_In in H as (line & st' & _ & H).
    now apply (line_effect_not_SetIsStreaming line st' _ H b). }
  destruct ending as [|message].
  - exists (snd (steps lines initial)). split; [reflexivity | exact Hlines].
  - exists (snd (steps lines initial)
            ++ [ConsoleError "Streaming error:" (JS.Error message);
                SetMessages
                  (Append (mkMessage assistant ("Error: " ++ message) None))]).
    split; [now rewrite <- app_assoc|].
    intros b H. apply in_app_or in H as [H|[H|[H|[]]]];
      [now apply (Hlines b) | discriminate | discriminate].
Qed.

(** X6.  Lines that do not start with [data: ] (blank lines, comments,
    other fields of the event-stream format) change nothing: a stream and
    the same stream without them give the same trace. *)
Theorem lines_without_data_prefix_are_ignored
    (chunks chunks' : list string) (ending : Ending) :
  complete_lines (concat_chunks chunks')
  = filter (fun line => startsWith line "data: ")
           (complete_lines (concat_chunks chunks)) ->
  handleSendMessage chunks' ending = handleSendMessage chunks ending.
Proof.
  intros H. rewrite !handleSendMessage_lines, H.
  now rewrite steps_filter_data.
Qed.

(** X7.  A payload that parses to a JSON value other than an object or
    [null], or to an object whose [type] is none of the six handled, is
    dropped without any call and without a log; the payload [null] is
    logged as a [TypeError] by the per-line [catch]. *)
Theorem unhandled_payloads_are_dropped_silently :
  (forall line st v,
     startsWith line "data: " = true ->
     JSON_parse (slice 6 line) = Some v ->
     (exists b, v = JS.Bool b) \/ (exists lit, v = JS.Num lit)
     \/ (exists s, v = JS.Str s) \/ (exists elems, v = JS.Arr elems) ->
     processLine line st = (st, [], inr tt))
  /\ (forall line st fields,
        startsWith line "data: " = true ->
        JSON_parse (slice 6 line) = Some (JS.Obj fields) ->
        JS.is_str (JS.prop fields "type") "thinking" = false ->
        JS.is_str (JS.prop fields "type") "content" = false ->
        JS.is_str (JS.prop fields "type") "tool_call" = false ->
        JS.is_str (JS.prop fields "type") "tool_result" = false ->
        JS.is_str (JS.prop fields "type") "done" = false ->
        JS.is_str (JS.prop fields "type") "error" = false ->
        processLine line st = (st, [], inr tt))
  /\ (forall line st,
        startsWith line "data: " = true ->
        JSON_parse (slice 6 line) = Some JS.Null ->
        processLine line st
        = (st, [ConsoleError "Error parsing SSE data:" JS.TypeError], inr tt)).
Proof.
  split; [|split].
  - intros line st v Hd Hp Hv. rewrite processLine_step, step_decode.
    unfold Events.decode. rewrite Hd, Hp.
    destruct Hv as [(b & ->)|[(lit & ->)|[(s & ->)|(elems & ->)]]]; reflexivity.
  - intros line st fields Hd Hp H1 H2 H3 H4 H5 H6.
    rewrite processLine_step, step_decode.
    unfold Events.decode. now rewrite Hd, Hp, H1, H2, H3, H4, H5, H6.
  - intros line st Hd Hp. rewrite processLine_step, step_decode.
    unfold Events.decode. now rewrite Hd, Hp.
Qed.

(** X8.  Only a [done] event finalizes: when no complete line of the
    stream is a [done] event, no thinking or assistant message is queued,
    however much text was streamed and however the transport ends. *)
Theorem nothing_is_finalized_without_done
    (chunks : list string) (ending : Ending) :
  (forall line fields,
     In line (complete_lines (concat_chunks chunks)) ->
     startsWith line "data: " = true ->
     JSON_parse (slice 6 line) = Some (JS.Obj fields) ->
     JS.is_str (JS.prop fields "type") "done" = false) ->
  ~ In (SetMessages AppendAssistant) (handleSendMessage chunks ending)
  /\ ~ In (SetMessages AppendThinking) (handleSendMessage chunks ending).
Proof.
  intros Hnone.
  assert (H : forall e,
             e = SetMessages AppendAssistant \/ e = SetMessages AppendThinking ->
             ~ In e (handleSendMessage chunks ending)).
  { intros e He Hin. rewrite handleSendMessage_lines in Hin.
    apply in_app_or in Hin as [Hin|Hin].
    - apply steps_In in Hin as (line & st' & Hline & Hin).
      rewrite step_decode in Hin.
      apply apply_In in Hin
        as [(x & ->)|[(s & ->)|[(s & ->)|[(m & -> & _)|[(n & a & r & _ & H)|(Hd & _)]]]]].
      + destruct He; discriminate.
      + destruct He; discriminate.
      + destruct He; discriminate.
      + destruct He; discriminate.
      + destruct H as [->|(-> & _)]; destruct He; discriminate.
      + apply decode_done in Hd as (fields & Hs & Hp & Ht).
        rewrite (Hnone line fields Hline Hs Hp) in Ht. discriminate.
    - destruct ending; simpl in Hin.
      + destruct Hin as [<-|[]]. destruct He; discriminate.
      + destruct Hin as [<-|[<-|[<-|[]]]]; destruct He; discriminate. }
  split; apply H; [now left | now right].
Qed.

(** X9.  A read that is rejected leaves what was decoded before it
    untouched and adds one console log and one assistant message holding
    [Error: ] and the rejection's message, before the streaming flag is
    switched off. *)
Theorem rejected_read_adds_one_error_message
    (chunks : list string) (message : string) :
  handleSendMessage chunks (Rejected message)
  = removelast (handleSendMessage chunks Eof)
    ++ [ConsoleError "Streaming error:" (JS.Error message);
        SetMessages (Append (mkMessage assistant ("Error: " ++ message) None));
        SetIsStreaming false].
Proof.
  rewrite !handleSendMessage_lines. now rewrite removelast_last.
Qed.

(** X10.  The text shown live is cumulative over the whole run: after any
    lines, [done] events included, a [content] event displays the deltas
    of all content events so far followed by its own, and a [thinking]
    event likewise. *)
Theorem live_text_is_cumulative
    (before : list string) (line : string) (fields : list (string * JS.value))
    (text : string) :
  startsWith line "data: " = true ->
  JSON_parse (slice 6 line) = Some (JS.Obj fields) ->
  JS.ToString Number_toString (JS.prop fields "content") = inr text ->
  (JS.is_str (JS.prop fields "type") "content" = true ->
   snd (steps (before ++ [line]) initial)
   = snd (steps before initial)
     ++ [SetCurrentContent (deltas "content" before ++ text)])
  /\ (JS.is_str (JS.prop fields "type") "thinking" = true ->
      snd (steps (before ++ [line]) initial)
      = snd (steps before initial)
        ++ [SetCurrentThinking (deltas "thinking" before ++ text)]).
Proof.
  intros Hd Hp Ht.
  destruct (steps_buffers JSON_parse Number_toString showThinking onFileModified
              before initial) as [Hth Hco]. simpl in Hth, Hco.
  split; intros Hty; rewrite steps_app;
    destruct (steps before initial) as [s1 o1]; cbn [fst snd] in *;
    cbn [StreamingChatUI.steps]; rewrite step_decode; unfold Events.decode;
    rewrite Hd, Hp.
  - rewrite (is_str_other _ _ "thinking" Hty eq_refl), Hty, Ht. simpl.
    now rewrite Hco.
  - rewrite Hty, Ht. simpl. now rewrite Hth.
Qed.

(** X11.  The callback [onFileModified] is called only for a [tool_result]
    event that names [write_file] or [edit_file], and its argument is the
    [file_path] of the [tool_args] of that same event ([undefined] when the
    event carries none). *)
Theorem onFileModified_only_for_file_writes
    (chunks : list string) (ending : Ending) (path : JS.value) :
  In (OnFileModified path) (handleSendMessage chunks ending) ->
  onFileModified = true
  /\ exists line fields,
       In line (complete_lines (concat_chunks chunks))
       /\ startsWith line "data: " = true
       /\ JSON_parse (slice 6 line) = Some (JS.Obj fields)
       /\ JS.is_str (JS.prop fields "type") "tool_result" = true
       /\ JS.is_str (JS.prop fields "tool_name") "write_file"
          || JS.is_str (JS.prop fields "tool_name") "edit_file" = true
       /\ path = JS.get_opt (JS.prop fields "tool_args") "file_path".
Proof.
  intros Hin. rewrite handleSendMessage_lines in Hin.
  apply in_app_or in Hin as [Hin|Hin].
  - apply steps_In in Hin as (line & st' & Hline & Hin).
    rewrite step_decode in Hin.
    apply apply_In in Hin
      as [(x & H)|[(s & H)|[(s & H)|[(m & H & _)|[(n & a & r & Hd & H)|(_ & H)]]]]];
      try discriminate.
    + destruct H as [H|(H & Hcb & Hname)]; [discriminate|].
      injection H as ->.
      apply decode_tool_result in Hd as (fields & Hs & Hp & Ht & -> & -> & _).
      split; [exact Hcb|]. exists line, fields. repeat split; assumption.
    + destruct H; discriminate.
  - destruct ending; simpl in Hin.
    + destruct Hin as [H|[]]. discriminate.
    + destruct Hin as [H|[H|[H|[]]]]; discriminate.
Qed.

End HandlerProperties.

(** X12.  The badge of a tool message follows the truthiness of the stored
    result: once the result updater has run on the last tool message, the
    spinner is shown exactly when the result is falsy (absent, [null],
    [false], the empty string, zero) and the completion mark exactly when
    it is truthy. *)
Theorem falsy_tool_result_keeps_spinner
    (Number_is_zero : string -> bool) (now : StreamingChatUI.Locals)
    (r : JS.value) (before after : list StreamingChatUI.Message)
    (m : StreamingChatUI.Message) (tc : StreamingChatUI.ToolCall) :
  StreamingChatUI.is_tool (StreamingChatUI.role m) = true ->
  StreamingChatUI.toolCall m = Some tc ->
  forallb (fun x => negb (StreamingChatUI.is_tool (StreamingChatUI.role x))) after
  = true ->
  exists m',
    StreamingChatUI.run_updater now (StreamingChatUI.StoreToolResult r)
      (before ++ m :: after)
    = before ++ m' :: after
    /\ StreamingChatUI.role m' = StreamingChatUI.role m
    /\ StreamingChatUI.content m' = StreamingChatUI.content m
    /\ ToolBadge.showsSpinner Number_is_zero m'
       = negb (ToolBadge.truthy Number_is_zero r)
    /\ ToolBadge.showsComplete Number_is_zero m'
       = ToolBadge.truthy Number_is_zero r.
Proof.
  intros Hm Htc Hafter.
  exists (StreamingChatUI.with_result r m). split.
  - simpl. now apply UpdaterFacts.tool_result_updater_last.
  - unfold ToolBadge.showsSpinner, ToolBadge.showsComplete,
      ToolBadge.optional_result, StreamingChatUI.with_result.
    rewrite Htc. simpl. repeat split.
Qed.

Section HandlerInstances.

Import JSString StreamingChatUI Concrete.

(** X6 on a stream with a comment line, a blank line and an [event:]
    field between its two [data: ] lines. *)
Lemma lines_without_data_prefix_are_ignored_witness :
  Concrete.handleSendMessage true false
    [content_line "a"; done_line] Eof
  = Concrete.handleSendMessage true false
      [(": ping" ++ nl)%string; content_line "a"; nl;
       ("event: message" ++ nl)%string; done_line] Eof.
Proof.
  refine (lines_without_data_prefix_are_ignored
            JSON.parse Concrete.number_text true false
            [(": ping" ++ nl)%string; content_line "a"; nl;
             ("event: message" ++ nl)%string; done_line]
            [content_line "a"; done_line] Eof _).
  vm_compute. reflexivity.
Defined.

(** X7 at an array payload, an object of an unknown type and [null]. *)
Lemma unhandled_payloads_are_dropped_silently_witness :
  Concrete.processLine true false (data "[1,2]") initial = (initial, [], inr tt)
  /\ Concrete.processLine true false (data (jsq "{'type':'ping'}")) initial
     = (initial, [], inr tt)
  /\ Concrete.processLine true false (data "null") initial
     = (initial, [ConsoleError "Error parsing SSE data:" JS.TypeError], inr tt).
Proof.
  destruct (unhandled_payloads_are_dropped_silently
              JSON.parse Concrete.number_text true false) as (H1 & H2 & H3).
  split; [|split].
  - apply (H1 (data "[1,2]") initial (JS.Arr [JS.Num "1"; JS.Num "2"]));
      [vm_compute; reflexivity | vm_compute; reflexivity|].
    right. right. right. eexists. reflexivity.
  - apply (H2 (data (jsq "{'type':'ping'}")) initial [("type", JS.Str "ping")]);
      vm_compute; reflexivity.
  - apply (H3 (data "null") initial); vm_compute; reflexivity.
Defined.

(** X8 on a stream that ends after one content line. *)
Lemma nothing_is_finalized_without_done_witness :
  ~ In (SetMessages AppendAssistant)
       (Concrete.handleSendMessage true false [content_line "a"] Eof)
  /\ ~ In (SetMessages AppendThinking)
          (Concrete.handleSendMessage true false [content_line "a"] Eof).
Proof.
  apply (nothing_is_finalized_without_done
           JSON.parse Concrete.number_text true false [content_line "a"] Eof).
  intros line fields Hin _ Hp.
  vm_compute in Hin. destruct Hin as [<-|[]].
  vm_compute in Hp. injection Hp as <-. vm_compute. reflexivity.
Defined.

(** X10 at a second content line. *)
Lemma live_text_is_cumulative_witness :
  snd (StreamingChatUI.steps JSON.parse Concrete.number_text true false
         [data (jsq "{'type':'content','content':'a'}");
          data (jsq "{'type':'content','content':'b'}")] initial)
  = [SetCurrentContent "a"; SetCurrentContent "ab"].
Proof.
  exact (proj1 (live_text_is_cumulative
                  JSON.parse Concrete.number_text true false
                  [data (jsq "{'type':'content','content':'a'}")]
                  (data (jsq "{'type':'content','content':'b'}"))
                  [("type", JS.Str "content"); ("content", JS.Str "b")] "b"
                  eq_refl eq_refl eq_refl) eq_refl).
Defined.

(** X11 on a stream whose only line reports a [write_file] result. *)
Lemma onFileModified_only_for_file_writes_witness :
  let line :=
    data (jsq "{'type':'tool_result','tool_name':'write_file','tool_args':{'file_path':'src/a.ts'},'result':'ok'}") in
  true = true
  /\ exists line' fields,
       In line' (complete_lines (concat_chunks [(line ++ nl)%string]))
       /\ startsWith line' "data: " = true
       /\ JSON.parse (slice 6 line') = Some (JS.Obj fields)
       /\ JS.is_str (JS.prop fields "type") "tool_result" = true
       /\ JS.is_str (JS.prop fields "tool_name") "write_file"
          || JS.is_str (JS.prop fields "tool_name") "edit_file" = true
       /\ JS.Str "src/a.ts" = JS.get_opt (JS.prop fields "tool_args") "file_path".
Proof.
  intros line.
  apply (onFileModified_only_for_file_writes
           JSON.parse Concrete.number_text true true
           [(line ++ nl)%string] Eof (JS.Str "src/a.ts")).
  vm_compute. right. left. reflexivity.
Defined.

(** X12 at a tool message followed by an assistant message, for the results
    [false] and [{ok: true}]. *)
Lemma falsy_tool_result_keeps_spinner_witness :
  let is_zero := fun lit : string => String.eqb lit "0" in
  let call := mkToolCall (JS.Str "read_file") JS.Undefined JS.Undefined in
  let m := mkMessage tool "Executing: read_file" (Some call) in
  exists m',
    run_updater initial (StoreToolResult (JS.Bool false))
      ([] ++ m :: [mkMessage assistant "ok" None])
    = [] ++ m' :: [mkMessage assistant "ok" None]
    /\ role m' = role m
    /\ content m' = content m
    /\ ToolBadge.showsSpinner is_zero m' = negb (ToolBadge.truthy is_zero (JS.Bool false))
    /\ ToolBadge.showsComplete is_zero m' = ToolBadge.truthy is_zero (JS.Bool false).
Proof.
  exact (falsy_tool_result_keeps_spinner
           (fun lit : string => String.eqb lit "0") initial (JS.Bool false)
           [] [mkMessage assistant "ok" None]
           (mkMessage tool "Executing: read_file"
              (Some (mkToolCall (JS.Str "read_file") JS.Undefined JS.Undefined)))
           (mkToolCall (JS.Str "read_file") JS.Undefined JS.Undefined)
           eq_refl eq_refl eq_refl).
Defined.

End HandlerInstances.

(** ** [handleSendMessage] from its first line *)

Module SendFacts.

Import JSString StreamingChatUI SendMessage.

Lemma trimStart_blank (s : string) : blank (trimStart s) = blank s.
Proof.
  induction s as [|c s IH]; simpl; [reflexivity|].
  destruct (is_space c) eqn:E; simpl; [exact IH | now rewrite E].
Qed.

Lemma trimEnd_empty (s : string) : trimEnd s = "" <-> blank s = true.
Proof.
  induction s as [|c s IH]; simpl; [tauto|].
  destruct (trimEnd s) as [|d t] eqn:E.
  - destruct (is_space c); simpl.
    + split; [intros _; now apply IH | reflexivity].
    + split; discriminate.
  - split; [discriminate|].
    intros H. apply andb_prop in H as [_ H]. apply IH in H. discriminate.
Qed.

Lemma trim_empty (s : string) : trim s = "" <-> blank s = true.
Proof. unfold trim. rewrite trimEnd_empty. now rewrite trimStart_blank. Qed.

Lemma nonempty_trim (s : string) : nonempty (trim s) = negb (blank s).
Proof.
  unfold nonempty. destruct (blank s) eqn:E.
  - apply trim_empty in E. now rewrite E.
  - destruct (String.eqb (trim s) "") eqn:E'; [|reflexivity].
    apply String.eqb_eq, trim_empty in E'. congruence.
Qed.

Lemma filter_none {A : Type} (p : A -> bool) (l : list A) :
  (forall x, In x l -> p x = false) -> filter p l = [].
Proof.
  induction l as [|x l IH]; simpl; intros H; [reflexivity|].
  rewrite (H x (or_introl eq_refl)). apply IH. intros y Hy. apply H. now right.
Qed.

Lemma existsb_none {A : Type} (p : A -> bool) (l : list A) :
  (forall x, In x l -> p x = false) -> existsb p l = false.
Proof.
  induction l as [|x l IH]; simpl; intros H; [reflexivity|].
  rewrite (H x (or_introl eq_refl)). apply IH. intros y Hy. apply H. now right.
Qed.

Lemma messages_after_app (now : Locals) (t1 t2 : list Effect) (msgs : list Message) :
  messages_after now (t1 ++ t2) msgs
  = messages_after now t2 (messages_after now t1 msgs).
Proof. unfold messages_after. apply fold_left_app. Qed.

End SendFacts.

Section SendProperties.

Import JSString StreamingChatUI SendMessage SendFacts Events EventFacts RunFacts
       LoopFacts.

Variable JSON_parse : string -> option JS.value.
Variable Number_toString : string -> string.
Variable showThinking : bool.
Variable onFileModified : bool.

Abbreviation send :=
  (SendMessage.handleSendMessage
     JSON_parse Number_toString showThinking onFileModified).
Abbreviation loop :=
  (StreamingChatUI.handleSendMessage
     JSON_parse Number_toString showThinking onFileModified).
Abbreviation steps :=
  (StreamingChatUI.steps JSON_parse Number_toString showThinking onFileModified).

Abbreviation answered :=
  (SendMessage.answered JSON_parse Number_toString showThinking onFileModified).

Lemma send_accepted (input : string) (messages : list Message)
    (response : Response) :
  blank input = false ->
  send input false messages response
  = [UI (SetMessages (Append (mkMessage user (trim input) None)));
     SetInput "";
     UI (SetIsStreaming true);
     UI (SetCurrentThinking "");
     UI (SetCurrentContent "");
     Fetch (map (fun m => (request_role (role m), content m))
                (messages ++ [mkMessage user (trim input) None]))]
    ++ map UI (answered response).
Proof.
  intros H. unfold SendMessage.handleSendMessage.
  now rewrite nonempty_trim, H.
Qed.

(** The only messages the lines of a stream append are tool messages. *)
Lemma line_appends_tool_only (lines : list string) (st : Locals) (m : Message) :
  In (SetMessages (Append m)) (snd (steps lines st)) -> role m = tool.
Proof.
  intros H. apply steps_In in H as (line & st' & _ & H).
  rewrite step_decode in H.
  apply apply_In in H
    as [(x & H)|[(s & H)|[(s & H)|[(m' & H & Hr)|[(n & a & r & _ & H)|(_ & H)]]]]];
    try discriminate.
  - now injection H as ->.
  - destruct H as [H|(H & _)]; discriminate.
  - destruct H; discriminate.
Qed.

Lemma answered_ends (response : Response) :
  exists trace,
    answered response = trace ++ [SetIsStreaming false]
    /\ forall b, ~ In (SetIsStreaming b) trace.
Proof.
  assert (F : forall message,
             exists trace,
               failed message = trace ++ [SetIsStreaming false]
               /\ forall b, ~ In (SetIsStreaming b) trace).
  { intros message.
    exists [ConsoleError "Streaming error:" (JS.Error message);
            SetMessages (Append (mkMessage assistant ("Error: " ++ message) None))].
    split; [reflexivity|]. intros b [H|[H|[]]]; discriminate. }
  destruct response as [message|status| |chunks ending]; simpl; try apply F.
  apply loop_clears_flag_last.
Qed.

(** X1.  An input that is blank once trimmed, or a send while a response is
    streaming, does nothing at all: no message, no request.  Every other
    send makes calls. *)
Theorem blank_input_or_streaming_sends_nothing
    (input : string) (isStreaming : bool) (messages : list Message)
    (response : Response) :
  send input isStreaming messages response = []
  <-> blank input = true \/ isStreaming = true.
Proof.
  split.
  - destruct isStreaming; [now right|].
    destruct (blank input) eqn:E; [now left|].
    rewrite (send_accepted _ _ _ E). discriminate.
  - unfold SendMessage.handleSendMessage. rewrite nonempty_trim.
    intros [-> | ->]; [reflexivity|]. now rewrite orb_true_r.
Qed.

(** X2.  An accepted send switches the streaming flag on once, before the
    request, and off once, as its very last call, whatever [fetch] answers
    and however the stream goes. *)
Theorem streaming_flag_set_once_and_cleared_last
    (input : string) (messages : list Message) (response : Response) :
  blank input = false ->
  exists before after,
    send input false messages response
    = before ++ [UI (SetIsStreaming true)] ++ after ++ [UI (SetIsStreaming false)]
    /\ existsb sets_streaming before = false
    /\ existsb sets_streaming after = false
    /\ (exists body, In (Fetch body) after).
Proof.
  intros H. rewrite (send_accepted _ _ _ H).
  destruct (answered_ends response) as (trace & -> & Htrace).
  exists [UI (SetMessages (Append (mkMessage user (trim input) None))); SetInput ""].
  exists ([UI (SetCurrentThinking ""); UI (SetCurrentContent "");
           Fetch (map (fun m => (request_role (role m), content m))
                      (messages ++ [mkMessage user (trim input) None]))]
          ++ map UI trace).
  split; [|split; [|split]].
  - rewrite (map_app UI trace). reflexivity.
  - reflexivity.
  - simpl. apply existsb_none. intros c Hc.
    apply in_map_iff in Hc as (e & <- & He).
    destruct e; try reflexivity. now destruct (Htrace b).
  - eexists. right. right. left. reflexivity.
Qed.

(** X3.  An error message is shown exactly when the transport fails: when
    [fetch] rejects, the status is not ok, there is no body or a read
    rejects, the handler appends one assistant message holding [Error: ] and
    the message of the failure; when the stream ends normally it appends no
    assistant message of its own making, whatever the lines held (an
    [error] event included). *)
Theorem error_message_iff_transport_failure
    (input : string) (messages : list Message) (response : Response) :
  blank input = false ->
  filter appends_assistant (send input false messages response)
  = match failure response with
    | Some message =>
        [UI (SetMessages
               (Append (mkMessage assistant ("Error: " ++ message) None)))]
    | None => []
    end.
Proof.
  intros H. rewrite (send_accepted _ _ _ H). rewrite filter_app. simpl.
  assert (L : forall lines,
             filter appends_assistant (map UI (snd (steps lines initial))) = []).
  { intros lines. apply filter_none. intros c Hc.
    apply in_map_iff in Hc as (e & <- & He).
    destruct e as [| |[m| | |]| | |]; try reflexivity. simpl.
    now rewrite (line_appends_tool_only _ _ _ He). }
  destruct response as [message|status| |chunks [|message]]; simpl;
    try reflexivity.
  - rewrite handleSendMessage_lines, map_app, filter_app, L. reflexivity.
  - rewrite handleSendMessage_lines, map_app, filter_app, L. reflexivity.
Qed.

Lemma ui_map_UI (trace : list Effect) : ui (map UI trace) = trace.
Proof. induction trace as [|e t IH]; simpl; [reflexivity | now rewrite IH]. Qed.

Lemma requests_map_UI (trace : list Effect) : requests (map UI trace) = [].
Proof. induction trace as [|e t IH]; simpl; [reflexivity | exact IH]. Qed.

Lemma answered_failure (response : Response) (message : string) :
  failure response = Some message ->
  exists trace,
    answered response
    = trace ++ [ConsoleError "Streaming error:" (JS.Error message);
                SetMessages
                  (Append (mkMessage assistant ("Error: " ++ message) None));
                SetIsStreaming false].
Proof.
  destruct response as [m|status| |chunks [|m]]; simpl; intros [= <-];
    try (now exists []).
  rewrite handleSendMessage_lines. now eexists.
Qed.

(** X4.  The text of a failure goes back to the model: once React has run
    the updaters of a failed send, the next accepted send makes one request,
    and the turn before the new input in it is an [assistant] message whose
    content is [Error: ] and the message of the failure. *)
Theorem error_text_is_sent_back_as_assistant_turn
    (now : Locals) (input input' : string) (messages : list Message)
    (response response' : Response) (message : string) :
  blank input = false ->
  blank input' = false ->
  failure response = Some message ->
  exists earlier,
    requests
      (send input' false
         (messages_after now (ui (send input false messages response)) messages)
         response')
    = [earlier ++ [("assistant", ("Error: " ++ message)%string);
                   ("user", trim input')]].
Proof.
  intros H H' Hf.
  rewrite (send_accepted input _ _ H). simpl ui. rewrite ui_map_UI.
  destruct (answered_failure _ _ Hf) as (trace & ->).
  set (prior := SetMessages (Append (mkMessage user (trim input) None))
                :: SetIsStreaming true :: SetCurrentThinking ""
                :: SetCurrentContent "" :: trace).
  change (SetMessages (Append (mkMessage user (trim input) None))
          :: SetIsStreaming true :: SetCurrentThinking ""
          :: SetCurrentContent "" :: trace ++ ?t) with (prior ++ t).
  rewrite messages_after_app. simpl messages_after at 1.
  rewrite (send_accepted input' _ _ H'). simpl requests.
  rewrite requests_map_UI.
  exists (map (fun m => (request_role (role m), content m))
              (messages_after now prior messages)).
  now rewrite !map_app, <- app_assoc.
Qed.

End SendProperties.

Section SendInstances.

Import JSString StreamingChatUI SendMessage Concrete.

(** X2 at a send answered by a stream of one content line and [done]. *)
Lemma streaming_flag_set_once_and_cleared_last_witness :
  exists before after,
    SendMessage.handleSendMessage JSON.parse Concrete.number_text true false
      " hi " false [] (Body [content_line "a"; done_line] Eof)
    = before ++ [UI (SetIsStreaming true)] ++ after ++ [UI (SetIsStreaming false)]
    /\ existsb sets_streaming before = false
    /\ existsb sets_streaming after = false
    /\ (exists body, In (Fetch body) after).
Proof.
  apply (streaming_flag_set_once_and_cleared_last
           JSON.parse Concrete.number_text true false
           " hi " [] (Body [content_line "a"; done_line] Eof)).
  reflexivity.
Defined.

(** X3 at a stream that carries an [error] event and ends normally, and at
    a response whose status is 500. *)
Lemma error_message_iff_transport_failure_witness :
  filter appends_assistant
    (SendMessage.handleSendMessage JSON.parse Concrete.number_text true false
       "hi" false []
       (Body [sse (jsq "{'type':'error','error':'boom'}")] Eof))
  = []
  /\ filter appends_assistant
       (SendMessage.handleSendMessage JSON.parse Concrete.number_text true false
          "hi" false [] (NotOk "500"))
     = [UI (SetMessages
              (Append (mkMessage assistant "Error: HTTP error! status: 500" None)))].
Proof.
  split.
  - apply (error_message_iff_transport_failure
             JSON.parse Concrete.number_text true false "hi" []
             (Body [sse (jsq "{'type':'error','error':'boom'}")] Eof)).
    reflexivity.
  - apply (error_message_iff_transport_failure
             JSON.parse Concrete.number_text true false "hi" [] (NotOk "500")).
    reflexivity.
Defined.

(** X4 at a send that finds the server down, followed by a second send. *)
Lemma error_text_is_sent_back_as_assistant_turn_witness :
  exists earlier,
    requests
      (SendMessage.handleSendMessage JSON.parse Concrete.number_text true false
         "again" false
         (messages_after initial
            (ui (SendMessage.handleSendMessage
                   JSON.parse Concrete.number_text true false
                   "hi" false [] (FetchRejected "Failed to fetch")))
            [])
         (Body [] Eof))
    = [earlier ++ [("assistant", "Error: Failed to fetch"); ("user", "again")]].
Proof.
  apply (error_text_is_sent_back_as_assistant_turn
           JSON.parse Concrete.number_text true false initial
           "hi" "again" [] (FetchRejected "Failed to fetch") (Body [] Eof)
           "Failed to fetch"); reflexivity.
Defined.

End SendInstances.

(** ** [chatApi.streamMessage]: the callbacks of a run *)

Module CallbackFacts.

Import JSString ChatApi StreamFacts SplitFacts Payload.

Lemma processLine_return (line : string) (out : list Callback) :
  processLine line = (out, Return) -> exists t, out = [t] /\ is_terminal t.
Proof.
  unfold processLine.
  destruct (startsWith line "data: "); [|discriminate].
  destruct (String.eqb (slice 6 line) "[DONE]").
  - intros [= <-]. exists OnComplete. split; [reflexivity | now left].
  - destruct (startsWith (slice 6 line) "[ERROR]"); [|discriminate].
    intros [= <-]. eexists. split; [reflexivity|]. right. now eexists.
Qed.

Lemma forLines_return (lines : list string) (out : list Callback) :
  forLines lines = (out, Return) ->
  exists chunks t, out = chunks ++ [t] /\ Forall is_chunk chunks /\ is_terminal t.
Proof.
  revert out. induction lines as [|line rest IH]; simpl; intros out.
  - discriminate.
  - destruct (processLine line) as [o1 [|]] eqn:E1.
    + destruct (forLines rest) as [o2 f2]. intros [= <- ->].
      destruct (IH o2 eq_refl) as (chunks & t & -> & Hc & Ht).
      exists (o1 ++ chunks), t. rewrite app_assoc. split; [reflexivity|].
      split; [|exact Ht]. apply Forall_app. split; [|exact Hc].
      now apply processLine_continue with (line := line).
    + intros [= <-]. apply processLine_return in E1 as (t & -> & Ht).
      exists [], t. split; [reflexivity|]. split; [constructor | exact Ht].
Qed.

Lemma split_nonempty (s : string) : split LF s <> [].
Proof.
  destruct s as [|c s]; simpl; [discriminate|].
  destruct (Ascii.eqb c LF); [discriminate|].
  destruct (split LF s); discriminate.
Qed.

(** Splitting a text at one of its line feeds splits its lines. *)
Lemma split_at_LF (a b : string) :
  split LF (a ++ String LF b) = split LF a ++ split LF b.
Proof.
  induction a as [|c a IH]; simpl.
  - reflexivity.
  - destruct (Ascii.eqb c LF); [now rewrite IH|].
    rewrite IH. pose proof (split_nonempty a) as Hne.
    destruct (split LF a) as [|seg segs]; [contradiction | reflexivity].
Qed.

Lemma forLines_app (l1 l2 : list string) :
  forLines (l1 ++ l2)
  = match forLines l1 with
    | (out, Return) => (out, Return)
    | (out, Continue) => let (out', flow) := forLines l2 in (out ++ out', flow)
    end.
Proof.
  induction l1 as [|line l1 IH]; simpl.
  - now destruct (forLines l2).
  - destruct (processLine line) as [o1 [|]]; [|reflexivity].
    rewrite IH. destruct (forLines l1) as [o2 [|]]; [|reflexivity].
    destruct (forLines l2) as [o3 f3]. now rewrite app_assoc.
Qed.

Lemma streamMessage_two_chunks (c1 c2 : string) (rest : list string)
    (ending : Ending) :
  streamMessage (c1 :: c2 :: rest) ending
  = streamMessage ((c1 ++ String LF c2)%string :: rest) ending.
Proof.
  simpl. rewrite split_at_LF, forLines_app.
  destruct (forLines (split LF c1)) as [o1 [|]]; [|reflexivity].
  destruct (forLines (split LF c2)) as [o2 [|]]; [|reflexivity].
  now rewrite app_assoc.
Qed.

Lemma data_no_LF (p : string) : no_LF p = true -> no_LF (Concrete.data p) = true.
Proof. intros H. unfold Concrete.data. simpl. exact H. Qed.

Lemma startsWith_refl_app (p s : string) : startsWith (p ++ s) p = true.
Proof.
  unfold startsWith. induction p as [|c p IH]; simpl.
  - now destruct s.
  - destruct (ascii_dec c c) as [_|N]; [exact IH | now destruct N].
Qed.

Lemma processLine_ordinary (p : string) :
  ordinary p = true -> processLine (Concrete.data p) = ([OnChunk p], Continue).
Proof.
  unfold ordinary. intros H.
  apply andb_prop in H as [H H3]. apply andb_prop in H as [_ H2].
  apply negb_true_iff in H2, H3.
  unfold processLine, Concrete.data.
  rewrite startsWith_refl_app.
  change (slice 6 ("data: " ++ p)) with p. now rewrite H2, H3.
Qed.

Lemma forLines_ordinary (ps : list string) (rest : list string) :
  forallb ordinary ps = true ->
  forLines (map Concrete.data ps ++ rest)
  = let (out, flow) := forLines rest in (map OnChunk ps ++ out, flow).
Proof.
  induction ps as [|p ps IH]; simpl; intros H.
  - now destruct (forLines rest).
  - apply andb_prop in H as [Hp Hps].
    rewrite (processLine_ordinary p Hp), (IH Hps).
    now destruct (forLines rest).
Qed.

Lemma ordinary_no_LF (ps : list string) :
  forallb ordinary ps = true -> forallb no_LF (map Concrete.data ps) = true.
Proof.
  induction ps as [|p ps IH]; simpl; intros H; [reflexivity|].
  apply andb_prop in H as [Hp Hps]. rewrite (IH Hps), andb_true_r.
  unfold ordinary in Hp. apply andb_prop in Hp as [Hp _].
  apply andb_prop in Hp as [Hp _]. exact Hp.
Qed.

End CallbackFacts.

Section StreamProperties.

Import JSString ChatApi StreamFacts SplitFacts Payload CallbackFacts.

(** X13.  Exactly one of [onComplete] and [onError] is called, exactly
    once, and it is the last callback of the run; every callback before it
    is [onChunk].  This holds for every sequence of chunks and both ways
    the transport can end. *)
Theorem streamMessage_ends_with_one_terminal_callback
    (chunks : list string) (ending : Ending) :
  exists delivered last,
    streamMessage chunks ending = delivered ++ [last]
    /\ Forall (fun cb => exists data, cb = OnChunk data) delivered
    /\ (last = OnComplete \/ exists message, last = OnError message).
Proof.
  induction chunks as [|chunk rest (delivered & last & E & Hd & Hl)]; simpl.
  - exists []. destruct ending as [|message].
    + exists OnComplete. split; [reflexivity|]. split; [constructor | now left].
    + exists (OnError message). split; [reflexivity|].
      split; [constructor|]. right. now eexists.
  - destruct (forLines (split LF chunk)) as [out [|]] eqn:Ef.
    + exists (out ++ delivered), last. rewrite E, app_assoc.
      split; [reflexivity|]. split; [|exact Hl].
      apply Forall_app. split; [|exact Hd].
      now apply forLines_continue with (lines := split LF chunk).
    + apply forLines_return in Ef as (cs & t & -> & Hc & Ht).
      exists cs, t. split; [reflexivity|]. split; assumption.
Qed.

(** X14.  [streamMessage] treats the end of every chunk as the end of a
    line: a run over several chunks makes the callbacks of a run over the
    one chunk that joins them with line feeds. *)
Theorem chunk_boundary_acts_as_line_feed
    (chunk : string) (rest : list string) (ending : Ending) :
  streamMessage (chunk :: rest) ending
  = streamMessage [String.concat nl (chunk :: rest)] ending.
Proof.
  revert chunk. induction rest as [|c rest IH]; intros chunk.
  - reflexivity.
  - rewrite streamMessage_two_chunks, IH. f_equal. f_equal.
    destruct rest as [|c' rest]; simpl.
    + reflexivity.
    + now rewrite append_assoc.
Qed.

(** X15.  When every chunk is made of whole [data: ] lines with ordinary
    payloads, each payload is handed to [onChunk] once, in order, and
    [onComplete] follows at the end of the transport. *)
Theorem whole_line_chunks_deliver_every_payload (payloads : list (list string)) :
  forallb (forallb ordinary) payloads = true ->
  streamMessage (map lines_of payloads) Eof
  = map OnChunk (concat payloads) ++ [OnComplete].
Proof.
  induction payloads as [|ps rest IH]; simpl; intros H; [reflexivity|].
  apply andb_prop in H as [Hps Hrest].
  unfold lines_of at 1.
  rewrite <- (append_empty_r (terminated (map Concrete.data ps))).
  rewrite split_terminated; [|now apply ordinary_no_LF | reflexivity].
  rewrite (forLines_ordinary ps [""] Hps). simpl.
  rewrite (IH Hrest), map_app, app_nil_r. now rewrite app_assoc.
Qed.

(** X16.  A sentinel line ends the run on the spot: the payloads before
    it in the chunk are delivered, the terminal callback is made, and
    neither the rest of the chunk, nor later chunks, nor the way the
    transport ends adds a callback.  The message of [onError] is the
    payload less its first eight code units, so the code unit that follows
    [[ERROR]] is dropped whatever it is. *)
Theorem streamMessage_stops_at_sentinel
    (before after : list string) (rest : list string) (ending : Ending) :
  forallb ordinary before = true ->
  forallb no_LF after = true ->
  streamMessage
    (terminated (map Concrete.data before ++ "data: [DONE]" :: after) :: rest)
    ending
  = map OnChunk before ++ [OnComplete]
  /\ forall message,
       no_LF message = true ->
       streamMessage
         (terminated (map Concrete.data before
                      ++ ("data: [ERROR]" ++ message)%string :: after) :: rest)
         ending
       = map OnChunk before ++ [OnError (slice 1 message)].
Proof.
  intros Hb Ha. split; [|intros message Hm];
    cbn [streamMessage];
    match goal with
    | |- context [split LF (terminated ?ls)] =>
        rewrite <- (append_empty_r (terminated ls))
    end;
    (rewrite split_terminated;
     [|rewrite forallb_app, (ordinary_no_LF _ Hb); simpl;
       try rewrite Hm; now rewrite Ha | reflexivity]);
    rewrite <- app_assoc, (forLines_ordinary before _ Hb).
  - reflexivity.
  - cbn [forLines app]. unfold processLine.
    change (startsWith ("data: [ERROR]" ++ message) "data: ") with true.
    cbn iota.
    change (slice 6 ("data: [ERROR]" ++ message)) with ("[ERROR]" ++ message)%string.
    replace (String.eqb ("[ERROR]" ++ message) "[DONE]") with false
      by (simpl; reflexivity).
    rewrite (startsWith_refl_app "[ERROR]" message).
    reflexivity.
Qed.

End StreamProperties.

Section StreamInstances.

Import JSString ChatApi Payload.

(** X15 at two chunks of two and one lines. *)
Lemma whole_line_chunks_deliver_every_payload_witness :
  streamMessage
    [("data: Hel" ++ nl ++ "data: lo" ++ nl)%string; ("data: !" ++ nl)%string] Eof
  = [OnChunk "Hel"; OnChunk "lo"; OnChunk "!"; OnComplete].
Proof.
  apply (whole_line_chunks_deliver_every_payload [["Hel"; "lo"]; ["!"]]).
  reflexivity.
Defined.

(** X16 at a chunk with a payload, a sentinel and a further line, followed
    by another chunk and a rejected read. *)
Lemma streamMessage_stops_at_sentinel_witness :
  streamMessage
    [("data: a" ++ nl ++ "data: [DONE]" ++ nl ++ "data: b" ++ nl)%string;
     ("data: c" ++ nl)%string] (Rejected "reset")
  = [OnChunk "a"; OnComplete]
  /\ streamMessage
       [("data: a" ++ nl ++ "data: [ERROR]boom" ++ nl ++ "data: b" ++ nl)%string;
        ("data: c" ++ nl)%string] (Rejected "reset")
     = [OnChunk "a"; OnError "oom"].
Proof.
  destruct (streamMessage_stops_at_sentinel
              ["a"] ["data: b"] [("data: c" ++ nl)%string] (Rejected "reset")
              eq_refl eq_refl) as [H1 H2].
  split; [exact H1 | exact (H2 "boom" eq_refl)].
Defined.

End StreamInstances.

(** ** [useKeyboardShortcuts]: lists of shortcuts *)

Module ListFacts.

Import Shortcuts ShortcutFacts.

Section Lists.

Variable Handler : Type.
Implicit Types (shortcut : KeyboardShortcut Handler)
               (shortcuts : list (KeyboardShortcut Handler)).

Lemma scan_cons (inInput : bool) (event : KeyboardEvent) shortcut shortcuts :
  scan inInput event (shortcut :: shortcuts)
  = if eligible inInput event shortcut
    then match preventDefault shortcut with
         | Some false => []
         | _ => [PreventDefault]
         end ++ [Invoke (handler shortcut)]
    else scan inInput event shortcuts.
Proof.
  simpl. unfold eligible.
  destruct (matchesKey event shortcut && matchesModifier event shortcut);
    [|reflexivity].
  now destruct (suppressed inInput event shortcut).
Qed.

Lemma scan_app (inInput : bool) (event : KeyboardEvent)
    (l1 l2 : list (KeyboardShortcut Handler)) :
  scan inInput event (l1 ++ l2)
  = if existsb (eligible inInput event) l1
    then scan inInput event l1
    else scan inInput event l2.
Proof.
  induction l1 as [|sc l1 IH]; [reflexivity|].
  rewrite <- app_comm_cons, !scan_cons. cbn [existsb].
  destruct (eligible inInput event sc); [reflexivity | exact IH].
Qed.

End Lists.

End ListFacts.

Section ShortcutLists.

Import JSString Shortcuts ShortcutFacts ListFacts.

Variable Handler : Type.

(** X17.  [event.preventDefault()] is called only for a key press that
    runs a handler, directly before the handler and unless its shortcut
    says [preventDefault: false]: a key press that runs no handler (no
    match, or every match suppressed in an input field) is left to the
    browser. *)
Theorem preventDefault_only_before_a_handler
    (inInput : bool) (event : KeyboardEvent)
    (shortcuts : list (KeyboardShortcut Handler)) :
  scan inInput event shortcuts = []
  \/ exists shortcut,
       In shortcut shortcuts
       /\ eligible inInput event shortcut = true
       /\ scan inInput event shortcuts
          = match preventDefault shortcut with
            | Some false => []
            | _ => [PreventDefault]
            end ++ [Invoke (handler shortcut)].
Proof.
  induction shortcuts as [|sc rest IH]; [now left|].
  rewrite scan_cons. destruct (eligible inInput event sc) eqn:E.
  - right. exists sc. split; [now left|]. split; [exact E | reflexivity].
  - destruct IH as [IH|(s & Hin & He & Hs)]; [now left|].
    right. exists s. split; [now right|]. split; assumption.
Qed.

(** X18.  A shortcut that, for a given event, passes the tests of the
    loop only when an earlier shortcut of the list does, plays no part for
    that event: the list without it makes the same calls. *)
Theorem shadowed_shortcut_never_fires
    (inInput : bool) (event : KeyboardEvent)
    (before after : list (KeyboardShortcut Handler))
    (shortcut : KeyboardShortcut Handler) :
  (eligible inInput event shortcut = true ->
   existsb (eligible inInput event) before = true) ->
  scan inInput event (before ++ shortcut :: after)
  = scan inInput event (before ++ after).
Proof.
  intros H. rewrite !scan_app, scan_cons.
  destruct (existsb (eligible inInput event) before); [reflexivity|].
  destruct (eligible inInput event shortcut); [|reflexivity].
  now discriminate H.
Qed.

End ShortcutLists.

Section CallerShortcuts.

Import JSString Shortcuts ShortcutFacts ListFacts.

(** X19.  In [UndoRedoPanel] the second shortcut never fires: every
    [z] key press with ctrl or meta held runs [handleUndo], with or
    without shift, whatever has the focus, and no key press runs
    [handleRedo]. *)
Theorem redo_shortcut_is_shadowed_by_undo
    (activeElement : option Element) (event : KeyboardEvent) :
  invoked (handleKeyDown activeElement UndoRedoPanel.shortcuts event)
  = if String.eqb (toLowerCase (ev_key event)) "z" && cmdOrCtrl event
    then [UndoRedoPanel.handleUndo]
    else [].
Proof.
  unfold handleKeyDown. generalize (isInputField activeElement). intros inInput.
  rewrite scan_first_eligible.
  destruct event as [k c s a m].
  unfold UndoRedoPanel.shortcuts, find, eligible, matchesKey, matchesModifier,
    suppressed, cmdOrCtrl; cbn -[toLowerCase].
  change (toLowerCase "z") with "z".
  destruct (String.eqb (toLowerCase k) "z"); [|reflexivity].
  destruct inInput, c, s, a, m; reflexivity.
Qed.

(** X20.  In [App], [Escape] runs the handler that closes the modals
    whatever has the focus and whichever modifiers are held; [k] and [/]
    run their handlers exactly when ctrl or meta is held, inside input
    fields too; no other key press runs a handler. *)
Theorem app_shortcuts_dispatch
    (activeElement : option Element) (event : KeyboardEvent) :
  invoked (handleKeyDown activeElement App.shortcuts event)
  = if String.eqb (toLowerCase (ev_key event)) "k" && cmdOrCtrl event
    then [App.openCommandPalette]
    else if String.eqb (toLowerCase (ev_key event)) "/" && cmdOrCtrl event
    then [App.toggleChat]
    else if String.eqb (toLowerCase (ev_key event)) "escape"
    then [App.closeModals]
    else [].
Proof.
  unfold handleKeyDown. generalize (isInputField activeElement). intros inInput.
  rewrite scan_first_eligible.
  destruct event as [k c s a m].
  unfold App.shortcuts, find, eligible, matchesKey, matchesModifier,
    suppressed, cmdOrCtrl; cbn -[toLowerCase].
  change (toLowerCase "k") with "k". change (toLowerCase "/") with "/".
  change (toLowerCase "Escape") with "escape".
  destruct (String.eqb (toLowerCase k) "k") eqn:Ek.
  - destruct inInput, c, s, a, m; cbn; try reflexivity;
      apply String.eqb_eq in Ek; rewrite Ek; reflexivity.
  - destruct (String.eqb (toLowerCase k) "/") eqn:Es.
    + destruct inInput, c, s, a, m; cbn; try reflexivity;
        apply String.eqb_eq in Es; rewrite Es; reflexivity.
    + destruct (String.eqb (toLowerCase k) "escape");
        destruct inInput, c, s, a, m; reflexivity.
Qed.

(** X18 at the two shortcuts of [UndoRedoPanel] and the key press
    Ctrl+Shift+Z. *)
Lemma shadowed_shortcut_never_fires_witness :
  scan false (mkEvent "Z" true true false false) UndoRedoPanel.shortcuts
  = scan false (mkEvent "Z" true true false false)
      [mkShortcut "z" (Some true) None None None "Undo"
         UndoRedoPanel.handleUndo None].
Proof.
  apply (shadowed_shortcut_never_fires UndoRedoPanel.Handler
           false (mkEvent "Z" true true false false)
           [mkShortcut "z" (Some true) None None None "Undo"
              UndoRedoPanel.handleUndo None]
           []
           (mkShortcut "z" (Some true) (Some true) None None "Redo"
              UndoRedoPanel.handleRedo None)).
  intros _. reflexivity.
Defined.

End CallerShortcuts.

(** ** [CommandPalette] *)

Module PaletteFacts.

Import JSString SplitFacts CommandPalette.

Lemma prefix_spec (t s : string) :
  String.prefix t s = true <-> exists b, s = (t ++ b)%string.
Proof.
  revert s. induction t as [|c t IH]; intros s.
  - split; [intros _; now exists s | intros _; now destruct s].
  - destruct s as [|d s]; simpl.
    + split; [discriminate | intros (b & H); discriminate].
    + destruct (ascii_dec c d) as [->|N].
      * rewrite IH. split; intros (b & H); exists b; congruence.
      * split; [discriminate | intros (b & H); congruence].
Qed.

Lemma includes_spec (s t : string) :
  includes s t = true <-> exists a b, s = (a ++ t ++ b)%string.
Proof.
  induction s as [|c s IH].
  - cbn [includes]. rewrite orb_false_r, prefix_spec. split.
    + intros (b & H). now exists "", b.
    + intros ([|x a] & b & H); [now exists b | discriminate].
  - cbn [includes]. rewrite orb_true_iff, prefix_spec, IH. split.
    + intros [(b & H)|(a & b & H)].
      * now exists "", b.
      * exists (String c a), b. simpl. now rewrite H.
    + intros ([|x a] & b & H).
      * left. now exists b.
      * right. exists a, b. simpl in H. congruence.
Qed.

Lemma includes_trans (x s' s : string) :
  includes x s' = true -> includes s' s = true -> includes x s = true.
Proof.
  rewrite !includes_spec. intros (a & b & ->) (a' & b' & ->).
  exists (a ++ a')%string, (b' ++ b)%string.
  now rewrite !append_assoc.
Qed.

Lemma includes_empty (s : string) : includes s "" = true.
Proof. apply includes_spec. now exists "", s. Qed.

Lemma toLowerCase_app (a b : string) :
  toLowerCase (a ++ b) = (toLowerCase a ++ toLowerCase b)%string.
Proof. induction a as [|c a IH]; simpl; [reflexivity | now rewrite IH]. Qed.

Lemma filter_refine {A : Type} (p q : A -> bool) (l : list A) :
  (forall x, q x = true -> p x = true) -> filter q l = filter q (filter p l).
Proof.
  intros H. induction l as [|x l IH]; simpl; [reflexivity|].
  destruct (q x) eqn:Eq.
  - rewrite (H x Eq). simpl. now rewrite Eq, IH.
  - destruct (p x); simpl; [now rewrite Eq|]; exact IH.
Qed.

Lemma filter_all {A : Type} (p : A -> bool) (l : list A) :
  (forall x, p x = true) -> filter p l = l.
Proof.
  intros H. induction l as [|x l IH]; simpl; [reflexivity|].
  now rewrite H, IH.
Qed.

Section Palette.

Variable Action : Type.
Implicit Types (commands : list (CommandItem Action)).

Lemma matches_refine (s s' : string) (cmd : CommandItem Action) :
  includes (toLowerCase s') (toLowerCase s) = true ->
  matches s' cmd = true -> matches s cmd = true.
Proof.
  intros H. unfold matches, optional_includes.
  rewrite !orb_true_iff. intros [[M|M]|M].
  - left. left. exact (includes_trans _ _ _ M H).
  - left. right. destruct (description cmd); [|discriminate].
    exact (includes_trans _ _ _ M H).
  - right. destruct (category cmd); [|discriminate].
    exact (includes_trans _ _ _ M H).
Qed.

Lemma step_selection_ok commands (st : State) (ev : Event) :
  stays_open ev = true ->
  selection_ok commands st -> selection_ok commands (step commands st ev).
Proof.
  unfold selection_ok. destruct ev as [key|value]; simpl.
  - intros Hk. apply andb_prop in Hk as [He Hn].
    apply negb_true_iff in He, Hn.
    unfold CommandPalette.handleKeyDown. simpl. rewrite He.
    destruct (String.eqb key "ArrowDown"); [simpl; lia|].
    destruct (String.eqb key "ArrowUp"); [simpl; lia|].
    rewrite Hn. simpl. tauto.
  - intros _ _. lia.
Qed.

Lemma run_selection_ok commands (events : list Event) (st : State) :
  forallb stays_open events = true ->
  selection_ok commands st ->
  selection_ok commands (fold_left (step commands) events st).
Proof.
  revert st. induction events as [|ev rest IH]; simpl; intros st H Hst.
  - exact Hst.
  - apply andb_prop in H as [Hev Hrest].
    apply IH; [exact Hrest | now apply step_selection_ok].
Qed.

End Palette.

End PaletteFacts.

Section PaletteProperties.

Import JSString CommandPalette PaletteFacts.

Variable Action : Type.

(** X21.  The search box only ever narrows the list: with an empty search
    every command is listed, in the order given; and when the search text
    contains an earlier search text (letter case aside), the commands
    listed are those the earlier search listed that match the new text, so
    typing more never brings back a command that was filtered out. *)
Theorem refining_the_search_only_removes_commands
    (commands : list (CommandItem Action)) :
  filteredCommands commands "" = commands
  /\ forall s s',
       includes (toLowerCase s') (toLowerCase s) = true ->
       filteredCommands commands s'
       = filteredCommands (filteredCommands commands s) s'.
Proof.
  split.
  - apply filter_all. intros cmd. unfold matches.
    change (toLowerCase "") with "". now rewrite includes_empty.
  - intros s s' H. apply filter_refine. intros cmd.
    now apply matches_refine.
Qed.

(** X22.  While the palette is open the arrow keys move the selection by
    one place and stop at the ends of the list, without wrapping around:
    [ArrowDown] on the last entry and [ArrowUp] on the first leave the
    selection where it is.  So after any typing and any key presses that
    leave the palette open the selection is on the list, and [Enter] runs
    the action of the selected listed command and closes the palette
    whenever a command is listed, and does nothing but [preventDefault]
    when none is. *)
Theorem enter_runs_the_selected_listed_command
    (commands : list (CommandItem Action)) (events : list Event) :
  forallb stays_open events = true ->
  let st := fold_left (step commands) events opened in
  let filtered := filteredCommands commands (search st) in
  let last := (Z.of_nat (length filtered) - 1)%Z in
  match filtered with
  | [] =>
      handleKeyDown true filtered (selectedIndex st) "Enter" = [PreventDefault]
      /\ selectedIndex (step commands st (KeyDown "ArrowDown")) = (-1)%Z
      /\ selectedIndex (step commands st (KeyDown "ArrowUp")) = 0%Z
  | _ :: _ =>
      (0 <= selectedIndex st <= last)%Z
      /\ (exists cmd,
            nth_error filtered (Z.to_nat (selectedIndex st)) = Some cmd
            /\ handleKeyDown true filtered (selectedIndex st) "Enter"
               = [PreventDefault; RunAction (action cmd); OnClose])
      /\ selectedIndex (step commands st (KeyDown "ArrowDown"))
         = (if (selectedIndex st =? last)%Z then last else selectedIndex st + 1)%Z
      /\ selectedIndex (step commands st (KeyDown "ArrowUp"))
         = (if (selectedIndex st =? 0)%Z then 0 else selectedIndex st - 1)%Z
  end
  /\ search (step commands st (KeyDown "ArrowDown")) = search st
  /\ search (step commands st (KeyDown "ArrowUp")) = search st.
Proof.
  intros H st filtered last.
  assert (Hok : selection_ok commands st).
  { apply run_selection_ok; [exact H|]. unfold selection_ok. simpl. lia. }
  unfold selection_ok in Hok. fold filtered in Hok.
  split; [|split; reflexivity].
  assert (Hd : selectedIndex (step commands st (KeyDown "ArrowDown"))
               = Z.min (selectedIndex st + 1) last) by reflexivity.
  assert (Hu : selectedIndex (step commands st (KeyDown "ArrowUp"))
               = Z.max (selectedIndex st - 1) 0) by reflexivity.
  rewrite Hd, Hu. subst last.
  unfold handleKeyDown, at_index. simpl.
  destruct filtered as [|c rest] eqn:E.
  - destruct Hok as [Hok|[_ Hok]]; [simpl in Hok; lia|].
    split; [|simpl; lia].
    destruct (selectedIndex st <? 0)%Z; [reflexivity|].
    now destruct (Z.to_nat (selectedIndex st)).
  - destruct Hok as [Hok|[Hn _]]; [|simpl in Hn; lia].
    split; [lia|]. split.
    + destruct (nth_error (c :: rest) (Z.to_nat (selectedIndex st)))
        as [cmd|] eqn:En.
      * exists cmd. split; [reflexivity|].
        destruct (Z.ltb_spec (selectedIndex st) 0); [lia | reflexivity].
      * apply nth_error_None in En. lia.
    + split.
      * destruct (Z.eqb_spec (selectedIndex st)
                    (Z.of_nat (length (c :: rest)) - 1)); lia.
      * destruct (Z.eqb_spec (selectedIndex st) 0); lia.
Qed.

End PaletteProperties.

Section PaletteInstances.

Import JSString CommandPalette.

(** X21 at two commands and the searches [fi] and [File]. *)
Lemma refining_the_search_only_removes_commands_witness :
  let commands :=
    [mkCommand "new-file" "Create New File" (Some "Create a new file") (Some "File") 1;
     mkCommand "toggle-ai-chat" "Toggle AI Chat" None (Some "View") 2] in
  filteredCommands commands "File"
  = filteredCommands (filteredCommands commands "fi") "File".
Proof.
  intros commands.
  apply (proj2 (refining_the_search_only_removes_commands nat commands)).
  reflexivity.
Defined.

(** X22 at a list of two commands after the keys down, down: the
    selection is on the last command, and a further down leaves it there. *)
Lemma enter_runs_the_selected_listed_command_witness :
  let commands :=
    [mkCommand "new-file" "Create New File" None (Some "File") 1;
     mkCommand "open-file" "Open File" None (Some "File") 2] in
  let st :=
    fold_left (step commands) [KeyDown "ArrowDown"; KeyDown "ArrowDown"] opened in
  let filtered := filteredCommands commands (search st) in
  let last := (Z.of_nat (length filtered) - 1)%Z in
  match filtered with
  | [] =>
      handleKeyDown true filtered (selectedIndex st) "Enter" = [PreventDefault]
      /\ selectedIndex (step commands st (KeyDown "ArrowDown")) = (-1)%Z
      /\ selectedIndex (step commands st (KeyDown "ArrowUp")) = 0%Z
  | _ :: _ =>
      (0 <= selectedIndex st <= last)%Z
      /\ (exists cmd,
            nth_error filtered (Z.to_nat (selectedIndex st)) = Some cmd
            /\ handleKeyDown true filtered (selectedIndex st) "Enter"
               = [PreventDefault; RunAction (action cmd); OnClose])
      /\ selectedIndex (step commands st (KeyDown "ArrowDown"))
         = (if (selectedIndex st =? last)%Z then last else selectedIndex st + 1)%Z
      /\ selectedIndex (step commands st (KeyDown "ArrowUp"))
         = (if (selectedIndex st =? 0)%Z then 0 else selectedIndex st - 1)%Z
  end
  /\ search (step commands st (KeyDown "ArrowDown")) = search st
  /\ search (step commands st (KeyDown "ArrowUp")) = search st.
Proof.
  exact (enter_runs_the_selected_listed_command nat
           [mkCommand "new-file" "Create New File" None (Some "File") 1;
            mkCommand "open-file" "Open File" None (Some "File") 2]
           [KeyDown "ArrowDown"; KeyDown "ArrowDown"]
           eq_refl).
Defined.

End PaletteInstances.

(** ** [useChatStore] *)

Module ChatStoreFacts.

Import ChatStore.

Lemma nth_error_replace_nth {A : Type} (i j : nat) (x : A) (l : list A) :
  nth_error (replace_nth i x l) j
  = if Nat.eqb i j then option_map (fun _ => x) (nth_error l j)
    else nth_error l j.
Proof.
  revert i j. induction l as [|y l IH]; intros [|i] [|j]; simpl;
    try reflexivity.
  - now destruct (Nat.eqb i j).
  - apply IH.
Qed.

Lemma length_replace_nth {A : Type} (i : nat) (x : A) (l : list A) :
  length (replace_nth i x l) = length l.
Proof.
  revert i. induction l as [|y l IH]; intros [|i]; simpl; try reflexivity.
  now rewrite IH.
Qed.

Lemma nth_error_snoc {A : Type} (l : list A) (x : A) (j : nat) :
  nth_error (l ++ [x]) j
  = if Nat.eqb j (length l) then Some x else nth_error l j.
Proof.
  revert j. induction l as [|y l IH]; intros [|j]; simpl; try reflexivity.
  - now destruct j.
  - apply IH.
Qed.

Lemma nth_error_lt {A : Type} (l : list A) (j : nat) (x : A) :
  nth_error l j = Some x -> j < length l.
Proof. intros H. apply nth_error_Some. congruence. Qed.

Lemma Map_get_set {V : Type} (k k' : string) (v : V) (m : JSMap.t V) :
  JSMap.get k (JSMap.set k' v m)
  = if String.eqb k' k then Some v else JSMap.get k m.
Proof.
  induction m as [|[k0 v0] m IH]; simpl.
  - reflexivity.
  - destruct (String.eqb k0 k') eqn:E0; simpl.
    + apply String.eqb_eq in E0. subst k0.
      now destruct (String.eqb k' k).
    + destruct (String.eqb k0 k) eqn:E1.
      * apply String.eqb_eq in E1. subst k0.
        now rewrite String.eqb_sym, E0.
      * exact IH.
Qed.

Lemma Map_get_delete {V : Type} (k k' : string) (m : JSMap.t V) :
  JSMap.get k (JSMap.delete k' m)
  = if String.eqb k' k then None else JSMap.get k m.
Proof.
  induction m as [|[k0 v0] m IH]; simpl.
  - now destruct (String.eqb k' k).
  - destruct (String.eqb k0 k') eqn:E0; simpl.
    + apply String.eqb_eq in E0. subst k0. rewrite IH.
      now destruct (String.eqb k' k).
    + rewrite IH. destruct (String.eqb k0 k) eqn:E1; [|reflexivity].
      apply String.eqb_eq in E1. subst k0.
      now rewrite String.eqb_sym, E0.
Qed.

Lemma Map_get_hd {V : Type} (m : JSMap.t V) (k : string) :
  hd_error (JSMap.keys m) = Some k -> JSMap.get k m <> None.
Proof.
  destruct m as [|[k0 v0] m]; simpl; [discriminate|].
  intros [= ->]. now rewrite String.eqb_refl.
Qed.

Lemma title_for_snoc (msgs : list Message) (m : Message) :
  msgs <> [] -> title_for (msgs ++ [m]) = title_for msgs.
Proof. destruct msgs; [contradiction | reflexivity]. Qed.

End ChatStoreFacts.

Module ChatStoreInvariant.

Import ChatStore ChatStoreFacts.

Lemma addMessage_found (s : Store) (k : string) (r : Ref) (c : Conversation)
    (msgs : list Message) (m : Message) :
  Map_get k (conversations (state s)) = Some r ->
  get_object (heap s) r = Some c ->
  get_array (heap s) (messages c) = Some msgs ->
  addMessage k m s = added s k r c msgs m.
Proof.
  intros Hk Hr Ha. unfold addMessage. rewrite Hk, Hr, Ha.
  unfold added, new_object, set_array, set_object. cbn [objects arrays].
  now rewrite length_replace_nth.
Qed.

Lemma addMessage_cases (s : Store) (k : string) (m : Message) :
  addMessage k m s = s
  \/ exists r c msgs,
       Map_get k (conversations (state s)) = Some r
       /\ get_object (heap s) r = Some c
       /\ get_array (heap s) (messages c) = Some msgs
       /\ addMessage k m s = added s k r c msgs m.
Proof.
  unfold addMessage.
  destruct (Map_get k (conversations (state s))) as [r|] eqn:Hk; [|now left].
  destruct (get_object (heap s) r) as [c|] eqn:Hr; [|now left].
  destruct (get_array (heap s) (messages c)) as [msgs|] eqn:Ha; [|now left].
  right. exists r, c, msgs. repeat split; try assumption.
  unfold added, new_object, set_array, set_object. cbn [objects arrays].
  now rewrite length_replace_nth.
Qed.

Section Added.

Variables (s : Store) (k : string) (r : Ref) (c : Conversation)
          (msgs : list Message) (m : Message).
Hypothesis Hr : get_object (heap s) r = Some c.
Hypothesis Ha : get_array (heap s) (messages c) = Some msgs.

Let c' : Conversation :=
  if Nat.eqb (length msgs) 0 && is_user (role m)
  then mkConversation (id c) (summary (content m)) (messages c)
  else c.

Lemma messages_c' : messages c' = messages c.
Proof. unfold c'. now destruct (Nat.eqb (length msgs) 0 && is_user (role m)). Qed.

Lemma get_object_added (x : Ref) :
  get_object (heap (added s k r c msgs m)) x
  = if Nat.eqb x (length (objects (heap s))) then Some c'
    else if Nat.eqb r x then Some c'
    else get_object (heap s) x.
Proof.
  unfold get_object, added. cbn [heap objects].
  rewrite nth_error_snoc, length_replace_nth, nth_error_replace_nth.
  fold c'.
  destruct (Nat.eqb x (length (objects (heap s)))); [reflexivity|].
  destruct (Nat.eqb r x) eqn:E; [|reflexivity].
  apply Nat.eqb_eq in E. subst x. unfold get_object in Hr. now rewrite Hr.
Qed.

Lemma get_array_added (y : Ref) :
  get_array (heap (added s k r c msgs m)) y
  = if Nat.eqb (messages c) y then Some (msgs ++ [m])
    else get_array (heap s) y.
Proof.
  unfold get_array, added. cbn [heap arrays].
  rewrite nth_error_replace_nth.
  destruct (Nat.eqb (messages c) y) eqn:E; [|reflexivity].
  apply Nat.eqb_eq in E. subst y. unfold get_array in Ha. now rewrite Ha.
Qed.

Lemma title_c' : title c = title_for msgs -> title c' = title_for (msgs ++ [m]).
Proof.
  clear Hr Ha. intros Ht. unfold c'. destruct msgs as [|m0 rest]; simpl.
  - destruct (is_user (role m)); [reflexivity | exact Ht].
  - exact Ht.
Qed.

Lemma wf_added : wf s -> wf (added s k r c msgs m).
Proof.
  intros (I1 & I2 & I3 & I4).
  assert (Hrlt : r < length (objects (heap s))) by (eapply nth_error_lt; exact Hr).
  assert (Halt : messages c < length (arrays (heap s)))
    by (eapply nth_error_lt; exact Ha).
  repeat split.
  - intros x cx. rewrite get_object_added.
    unfold added; cbn [heap arrays]. rewrite length_replace_nth.
    destruct (Nat.eqb x (length (objects (heap s))));
      [intros [= <-]; now rewrite messages_c'|].
    destruct (Nat.eqb r x); [intros [= <-]; now rewrite messages_c'|].
    apply I1.
  - intros k0 x. unfold added; cbn [state conversations heap objects].
    rewrite Map_get_set, length_app, length_replace_nth. simpl.
    destruct (String.eqb k k0); [intros [= <-]; lia|].
    intros H. apply I2 in H. lia.
  - intros x cx ms. rewrite get_object_added, get_array_added.
    destruct (Nat.eqb x (length (objects (heap s)))) eqn:E1.
    { intros [= <-]. rewrite messages_c', Nat.eqb_refl. intros [= <-].
      apply title_c'. now apply (I3 r). }
    destruct (Nat.eqb r x) eqn:E2.
    { intros [= <-]. rewrite messages_c', Nat.eqb_refl. intros [= <-].
      apply title_c'. now apply (I3 r). }
    intros Hx. destruct (Nat.eqb (messages c) (messages cx)) eqn:E3.
    + intros [= <-]. apply Nat.eqb_eq in E3. apply Nat.eqb_neq in E2.
      assert (Hne : msgs <> []).
      { intros ->. apply (I4 r x c cx E2 Hr Hx E3). exact Ha. }
      rewrite (title_for_snoc _ _ Hne). apply (I3 x); [exact Hx|].
      now rewrite <- E3.
    + now apply (I3 x).
  - intros r1 r2 c1 c2 Hne. rewrite !get_object_added, get_array_added.
    intros H1 H2 Hm.
    destruct (Nat.eqb (messages c) (messages c1)) eqn:E.
    { intros [= H]. now destruct msgs. }
    apply Nat.eqb_neq in E.
    destruct (Nat.eqb r1 (length (objects (heap s))));
      [injection H1 as <-; now rewrite messages_c' in E|].
    destruct (Nat.eqb r r1); [injection H1 as <-; now rewrite messages_c' in E|].
    rewrite Hm in E.
    destruct (Nat.eqb r2 (length (objects (heap s))));
      [injection H2 as <-; now rewrite messages_c' in E|].
    destruct (Nat.eqb r r2); [injection H2 as <-; now rewrite messages_c' in E|].
    now apply (I4 r1 r2 c1 c2).
Qed.

End Added.

Lemma wf_createConversation (fresh : string) (s : Store) :
  wf s -> wf (createConversation fresh s).
Proof.
  intros (I1 & I2 & I3 & I4).
  unfold createConversation, new_array, new_object. cbn [fst snd heap arrays objects].
  set (c0 := mkConversation fresh "New Conversation" (length (arrays (heap s)))).
  assert (G : forall x,
             get_object (mkHeap (objects (heap s) ++ [c0])
                                (arrays (heap s) ++ [[]])) x
             = if Nat.eqb x (length (objects (heap s))) then Some c0
               else get_object (heap s) x).
  { intros x. unfold get_object. cbn [objects]. apply nth_error_snoc. }
  assert (A : forall y,
             get_array (mkHeap (objects (heap s) ++ [c0])
                               (arrays (heap s) ++ [[]])) y
             = if Nat.eqb y (length (arrays (heap s))) then Some []
               else get_array (heap s) y).
  { intros y. unfold get_array. cbn [arrays]. apply nth_error_snoc. }
  repeat split; cbn [heap state conversations arrays objects].
  - intros x cx. rewrite G, length_app. simpl.
    destruct (Nat.eqb x (length (objects (heap s)))).
    + intros [= <-]. simpl. lia.
    + intros H. apply I1 in H. lia.
  - intros k0 x. rewrite Map_get_set, length_app. simpl.
    destruct (String.eqb fresh k0); [intros [= <-]; lia|].
    intros H. apply I2 in H. lia.
  - intros x cx ms. rewrite G, A.
    destruct (Nat.eqb x (length (objects (heap s)))).
    + intros [= <-]. simpl. rewrite Nat.eqb_refl. now intros [= <-].
    + intros Hx. pose proof (I1 _ _ Hx) as Hlt.
      destruct (Nat.eqb (messages cx) (length (arrays (heap s)))) eqn:E;
        [apply Nat.eqb_eq in E; lia|].
      now apply (I3 x).
  - intros r1 r2 c1 c2 Hne. rewrite !G, A. intros H1 H2 Hm.
    destruct (Nat.eqb r1 (length (objects (heap s)))) eqn:E1;
      destruct (Nat.eqb r2 (length (objects (heap s)))) eqn:E2.
    + apply Nat.eqb_eq in E1, E2. lia.
    + injection H1 as <-. simpl in Hm. apply I1 in H2. lia.
    + injection H2 as <-. simpl in Hm. apply I1 in H1. lia.
    + pose proof (I1 _ _ H1) as Hlt.
      destruct (Nat.eqb (messages c1) (length (arrays (heap s)))) eqn:E;
        [apply Nat.eqb_eq in E; lia|].
      now apply (I4 r1 r2 c1 c2).
Qed.

Lemma wf_same_heap (s : Store) (st : State) :
  (forall k r, Map_get k (conversations st) = Some r ->
               Map_get k (conversations (state s)) = Some r) ->
  wf s -> wf (mkStore (heap s) st).
Proof.
  intros H (I1 & I2 & I3 & I4). repeat split; cbn [heap state]; try assumption.
  intros k r Hk. apply (I2 k). now apply H.
Qed.

Lemma wf_act (s : Store) (a : Action) : wf s -> wf (act s a).
Proof.
  intros Hs. destruct a as [fresh|k m|k|k|b|]; simpl.
  - now apply wf_createConversation.
  - destruct (addMessage_cases s k m) as [->|(r & c & msgs & _ & Hr & Ha & ->)];
      [exact Hs | now apply wf_added].
  - now apply wf_same_heap.
  - apply wf_same_heap; [|exact Hs]. cbn [conversations]. intros k0 r.
    rewrite Map_get_delete. now destruct (String.eqb k k0).
  - now apply wf_same_heap.
  - apply wf_same_heap; [|exact Hs]. intros k0 r. discriminate.
Qed.

Lemma wf_fold (actions : list Action) (s : Store) :
  wf s -> wf (fold_left act actions s).
Proof.
  revert s. induction actions as [|a rest IH]; simpl; intros s Hs; [exact Hs|].
  apply IH. now apply wf_act.
Qed.

Lemma wf_run (actions : list Action) : wf (run actions).
Proof.
  apply wf_fold. repeat split; cbn.
  - intros [|r] c; discriminate.
  - intros k r. discriminate.
  - intros [|r] c msgs; discriminate.
  - intros [|r1] r2 c1 c2 _; discriminate.
Qed.

Lemma current_exists_act (s : Store) (a : Action) :
  selects_existing s a = true -> current_exists s -> current_exists (act s a).
Proof.
  unfold current_exists. destruct a as [fresh|k m|k|k|b|]; simpl; intros Hsel Hs.
  - rewrite Map_get_set, String.eqb_refl. discriminate.
  - destruct (addMessage_cases s k m) as [->|(r & c & msgs & Hk & _ & _ & ->)];
      [exact Hs|].
    unfold added; cbn [state currentConversationId conversations].
    destruct (currentConversationId (state s)) as [cur|]; [|exact I].
    rewrite Map_get_set. destruct (String.eqb k cur); [discriminate | exact Hs].
  - destruct (Map_get k (conversations (state s))); [discriminate | discriminate].
  - destruct (currentConversationId (state s)) as [cur|]; [|exact I].
    destruct (String.eqb cur k) eqn:E.
    + destruct (hd_error (Map_keys (Map_delete k (conversations (state s)))))
        as [first|] eqn:Eh; [|exact I].
      now apply Map_get_hd.
    + rewrite Map_get_delete, String.eqb_sym, E. exact Hs.
  - exact Hs.
  - exact I.
Qed.

End ChatStoreInvariant.

Module ChatViewFacts.

Import ChatStore ChatStoreFacts ChatStoreInvariant.

Lemma view_inv (s : Store) (k : string) (t : string) (msgs : list Message) :
  view (heap s) (state s) k = Some (t, msgs) ->
  exists r c,
    Map_get k (conversations (state s)) = Some r
    /\ get_object (heap s) r = Some c
    /\ get_array (heap s) (messages c) = Some msgs
    /\ t = title c.
Proof.
  unfold view.
  destruct (Map_get k (conversations (state s))) as [r|]; [|discriminate].
  destruct (get_object (heap s) r) as [c|] eqn:Hr; [|discriminate].
  destruct (get_array (heap s) (messages c)) as [ms|] eqn:Ha; [|discriminate].
  intros [= <- <-]. exists r, c. repeat split; assumption.
Qed.

(** What [addMessage] leaves behind, seen from the new state and from the
    state held before the call. *)
Lemma view_addMessage (s : Store) (k : string) (m : Message) (t : string)
    (msgs : list Message) :
  wf s ->
  view (heap s) (state s) k = Some (t, msgs) ->
  let s' := addMessage k m s in
  view (heap s') (state s') k = Some (title_for (msgs ++ [m]), msgs ++ [m])
  /\ view (heap s') (state s) k = Some (title_for (msgs ++ [m]), msgs ++ [m])
  /\ messages_of (heap s') (state s') k = messages_of (heap s) (state s) k.
Proof.
  intros Hwf Hv. apply view_inv in Hv as (r & c & Hk & Hr & Ha & ->).
  destruct Hwf as (_ & _ & I3 & _). pose proof (I3 r c msgs Hr Ha) as Ht.
  cbv zeta. rewrite (addMessage_found s k r c msgs m Hk Hr Ha).
  unfold view, messages_of.
  rewrite Hk.
  replace (Map_get k (conversations (state (added s k r c msgs m))))
    with (Some (length (objects (heap s))))
    by (unfold added; cbn [state conversations];
        now rewrite Map_get_set, String.eqb_refl).
  rewrite !(get_object_added s k r c msgs m Hr), Nat.eqb_refl.
  assert (Hr' : (if Nat.eqb r (length (objects (heap s)))
                 then Some (if Nat.eqb (length msgs) 0 && is_user (role m)
                            then mkConversation (id c) (summary (content m))
                                                (messages c)
                            else c)
                 else if Nat.eqb r r
                      then Some (if Nat.eqb (length msgs) 0 && is_user (role m)
                                 then mkConversation (id c) (summary (content m))
                                                     (messages c)
                                 else c)
                      else get_object (heap s) r)
                = Some (if Nat.eqb (length msgs) 0 && is_user (role m)
                        then mkConversation (id c) (summary (content m))
                                            (messages c)
                        else c)).
  { rewrite Nat.eqb_refl. now destruct (Nat.eqb r (length (objects (heap s)))). }
  rewrite Hr'. rewrite Hr. cbn [option_map].
  rewrite (messages_c' c msgs m).
  rewrite (get_array_added s k r c msgs m Ha), Nat.eqb_refl.
  rewrite (title_c' c msgs m Ht). repeat split.
Qed.

Lemma view_createConversation (fresh : string) (s : Store) :
  let s' := createConversation fresh s in
  view (heap s') (state s') fresh = Some ("New Conversation", [])
  /\ currentConversationId (state s') = Some fresh.
Proof.
  cbv zeta. unfold createConversation, new_array, new_object, view.
  cbn [heap state conversations currentConversationId arrays objects].
  rewrite Map_get_set, String.eqb_refl.
  unfold get_object, get_array. cbn [objects arrays].
  rewrite nth_error_snoc, Nat.eqb_refl. cbn [messages].
  rewrite nth_error_snoc, Nat.eqb_refl. split; reflexivity.
Qed.

Lemma current_addMessage (s : Store) (k : string) (m : Message) :
  currentConversationId (state (addMessage k m s))
  = currentConversationId (state s).
Proof.
  destruct (addMessage_cases s k m) as [->|(r & c & msgs & _ & _ & _ & ->)];
    reflexivity.
Qed.

Lemma length_substring_le (n : nat) (s : string) :
  String.length (substring 0 n s) <= n.
Proof.
  revert s. induction n as [|n IH]; intros [|c s]; simpl; try lia.
  specialize (IH s). lia.
Qed.

Lemma length_app_string (a b : string) :
  String.length (a ++ b) = String.length a + String.length b.
Proof. induction a as [|c a IH]; simpl; [reflexivity | now rewrite IH]. Qed.

Lemma length_title_for (msgs : list Message) :
  String.length (title_for msgs) <= 53.
Proof.
  destruct msgs as [|first rest]; simpl; [lia|].
  destruct (is_user (role first)); [|simpl; lia].
  unfold summary. rewrite length_app_string.
  pose proof (length_substring_le 50 (content first)).
  destruct (Nat.ltb 50 (String.length (content first))); simpl; lia.
Qed.

End ChatViewFacts.

Section ChatStoreProperties.

Import ChatStore ChatStoreFacts ChatStoreInvariant ChatViewFacts.

(** X23.  [addMessage] changes the state that was current before the
    call: after it, a component still holding that earlier state sees the
    new message and the new title in it, exactly as in the new state, and
    the [messages] array of the conversation is the same array as before,
    so a comparison of [conversation.messages] by identity sees no
    change. *)
Theorem addMessage_changes_the_state_held_before
    (actions : list Action) (id : string) (message : Message)
    (t : string) (msgs : list Message) :
  let s := run actions in
  let s' := addMessage id message s in
  view (heap s) (state s) id = Some (t, msgs) ->
  view (heap s') (state s') id
  = Some (title_for (msgs ++ [message]), msgs ++ [message])
  /\ view (heap s') (state s) id = view (heap s') (state s') id
  /\ messages_of (heap s') (state s') id = messages_of (heap s) (state s) id.
Proof.
  intros s s' Hv.
  destruct (view_addMessage s id message t msgs (wf_run actions) Hv)
    as (H1 & H2 & H3).
  fold s' in H1, H2, H3. rewrite H1, H2. repeat split. exact H3.
Qed.

(** X24.  Whatever the history of the store, the title of a conversation
    is decided by its first message alone: the first 50 code units of that
    message, followed by three dots when it is longer, if a user wrote it,
    and [New Conversation] otherwise or while there is no message.  So a
    title never exceeds 53 code units and no later message changes it. *)
Theorem title_comes_from_the_first_message
    (actions : list Action) (id : string) (t : string) (msgs : list Message) :
  view (heap (run actions)) (state (run actions)) id = Some (t, msgs) ->
  t = title_for msgs /\ String.length t <= 53.
Proof.
  intros Hv. apply view_inv in Hv as (r & c & _ & Hr & Ha & ->).
  destruct (wf_run actions) as (_ & _ & I3 & _).
  rewrite (I3 r c msgs Hr Ha). split; [reflexivity | apply length_title_for].
Qed.

(** X25.  As long as [setCurrentConversation] is only given ids of
    conversations that exist, the selected conversation exists: creating,
    adding to, deleting and clearing conversations never leave
    [currentConversationId] on a conversation that is gone. *)
Theorem selected_conversation_exists (actions : list Action) :
  well_used empty actions = true -> current_exists (run actions).
Proof.
  unfold run.
  assert (G : forall s, current_exists s -> well_used s actions = true ->
                        current_exists (fold_left act actions s)).
  { induction actions as [|a rest IH]; simpl; intros s Hs Hw; [exact Hs|].
    apply andb_prop in Hw as [Ha Hrest].
    apply IH; [now apply current_exists_act | exact Hrest]. }
  intros H. apply G; [exact I | exact H].
Qed.

End ChatStoreProperties.

Section ChatInterfaceProperties.

Import ChatStore ChatStoreFacts ChatStoreInvariant ChatViewFacts ChatInterface
       SendFacts.

(** X26.  A send with no conversation selected creates one, selects it
    and records the exchange in it: afterwards that conversation holds
    exactly the trimmed input as a user message and the reply (or [Error: ]
    and the failure's message) as an assistant message, and is titled after
    the trimmed input.  A send into an existing conversation appends the
    same two messages to it. *)
Theorem handleSend_records_the_exchange
    (actions : list Action) (input fresh : string) (reply : Reply) :
  SendMessage.blank input = false ->
  let s := run actions in
  let question := mkMessage user (SendMessage.trim input) in
  (let s' :=
     store_after (handleSend input (isLoading (state s)) false None fresh reply) s in
   isLoading (state s) = false ->
   view (heap s') (state s') fresh
   = Some (summary (SendMessage.trim input), [question; answer reply])
   /\ currentConversationId (state s') = Some fresh)
  /\ forall id t msgs,
       id <> "" ->
       isLoading (state s) = false ->
       view (heap s) (state s) id = Some (t, msgs) ->
       let s' :=
         store_after
           (handleSend input (isLoading (state s)) false (Some id) fresh reply) s in
       view (heap s') (state s') id
       = Some (title_for (msgs ++ [question; answer reply]),
               msgs ++ [question; answer reply]).
Proof.
  intros Hb s question.
  assert (Hs : wf s) by apply wf_run.
  split.
  - intros s' Hl. subst s'. unfold handleSend, store_after.
    rewrite nonempty_trim, Hb, Hl. cbn [negb orb app store_actions].
    assert (E : store_actions
                  (match reply with
                   | Replied response =>
                       [Store (AddMessage fresh (mkMessage assistant response));
                        SetIsStreaming false]
                   | Failed message =>
                       [ConsoleError message;
                        Store (AddMessage fresh
                                 (mkMessage assistant ("Error: " ++ message)));
                        SetIsStreaming false]
                   end)
                = [AddMessage fresh (answer reply)])
      by now destruct reply.
    rewrite E. cbn [fold_left act].
    destruct (view_createConversation fresh s) as [V0 C0].
    pose proof (wf_createConversation fresh s Hs) as W0.
    destruct (view_addMessage _ fresh question _ _ W0 V0) as (V1 & _ & _).
    pose proof (wf_act _ (AddMessage fresh question) W0) as W1.
    cbn [act] in W1.
    destruct (view_addMessage _ fresh (answer reply) _ _ W1 V1) as (V2 & _ & _).
    split; [exact V2|].
    now rewrite !current_addMessage.
  - intros id t msgs Hid Hl Hv s'. subst s'. unfold handleSend, store_after.
    rewrite nonempty_trim, Hb, Hl.
    assert (Hne : StreamingChatUI.nonempty id = true).
    { unfold StreamingChatUI.nonempty.
      destruct (String.eqb id "") eqn:E; [|reflexivity].
      apply String.eqb_eq in E. contradiction. }
    rewrite Hne. cbn [negb orb app store_actions].
    assert (E : store_actions
                  (match reply with
                   | Replied response =>
                       [Store (AddMessage id (mkMessage assistant response));
                        SetIsStreaming false]
                   | Failed message =>
                       [ConsoleError message;
                        Store (AddMessage id
                                 (mkMessage assistant ("Error: " ++ message)));
                        SetIsStreaming false]
                   end)
                = [AddMessage id (answer reply)])
      by now destruct reply.
    rewrite E. cbn [fold_left act].
    destruct (view_addMessage _ id question _ _ Hs Hv) as (V1 & _ & _).
    pose proof (wf_act _ (AddMessage id question) Hs) as W1.
    cbn [act] in W1.
    destruct (view_addMessage _ id (answer reply) _ _ W1 V1) as (V2 & _ & _).
    rewrite <- app_assoc in V2. exact V2.
Qed.

(** X27.  A send for a conversation id that the store does not have
    still makes the request, but records nothing: neither the input nor
    the reply is stored, and the store is left as it was. *)
Theorem handleSend_into_unknown_conversation_loses_the_exchange
    (s : ChatStore.Store) (input id fresh : string) (reply : Reply) :
  SendMessage.blank input = false ->
  isLoading (state s) = false ->
  id <> "" ->
  Map_get id (conversations (state s)) = None ->
  let calls := handleSend input (isLoading (state s)) false (Some id) fresh reply in
  In (SendMessage (SendMessage.trim input) id) calls
  /\ store_after calls s = s.
Proof.
  intros Hb Hl Hid Hk calls. subst calls. unfold handleSend, store_after.
  rewrite nonempty_trim, Hb, Hl.
  assert (Hne : StreamingChatUI.nonempty id = true).
  { unfold StreamingChatUI.nonempty.
    destruct (String.eqb id "") eqn:E; [|reflexivity].
    apply String.eqb_eq in E. contradiction. }
  rewrite Hne. cbn [negb orb app]. split.
  - right. right. right. now left.
  - assert (A : forall m, addMessage id m s = s).
    { intros m. unfold addMessage. now rewrite Hk. }
    destruct reply; cbn [store_actions fold_left act]; now rewrite !A.
Qed.

End ChatInterfaceProperties.

Section ChatStoreInstances.

Import ChatStore ChatInterface.

(** X23 at the first message of a new conversation. *)
Lemma addMessage_changes_the_state_held_before_witness :
  let s := run [CreateConversation "c1"] in
  let s' := addMessage "c1" (mkMessage user "hello") s in
  view (heap s') (state s') "c1" = Some ("hello", [mkMessage user "hello"])
  /\ view (heap s') (state s) "c1" = view (heap s') (state s') "c1"
  /\ messages_of (heap s') (state s') "c1" = messages_of (heap s) (state s) "c1".
Proof.
  intros s s'.
  apply (addMessage_changes_the_state_held_before
           [CreateConversation "c1"] "c1" (mkMessage user "hello")
           "New Conversation" []).
  reflexivity.
Defined.

(** X24 at a conversation opened by a user message of sixty code units
    and continued by the assistant. *)
Lemma title_comes_from_the_first_message_witness :
  let question :=
    "123456789012345678901234567890123456789012345678901234567890" in
  let msgs := [mkMessage user question; mkMessage assistant "ok"] in
  "12345678901234567890123456789012345678901234567890..." = title_for msgs
  /\ String.length "12345678901234567890123456789012345678901234567890..." <= 53.
Proof.
  intros question msgs.
  apply (title_comes_from_the_first_message
           [CreateConversation "c1";
            AddMessage "c1" (mkMessage user question);
            AddMessage "c1" (mkMessage assistant "ok")]
           "c1").
  reflexivity.
Defined.

(** X25 at a history that deletes the selected conversation. *)
Lemma selected_conversation_exists_witness :
  current_exists
    (run [CreateConversation "c1"; CreateConversation "c2";
          SetCurrentConversation "c1"; DeleteConversation "c1"]).
Proof.
  apply (selected_conversation_exists
           [CreateConversation "c1"; CreateConversation "c2";
            SetCurrentConversation "c1"; DeleteConversation "c1"]).
  reflexivity.
Defined.

(** X26 at a first send that the server answers. *)
Lemma handleSend_records_the_exchange_witness :
  let s := run [] in
  let s' :=
    store_after (handleSend " hi " (isLoading (state s)) false None "c1"
                   (Replied "hello")) s in
  view (heap s') (state s') "c1"
  = Some (summary (SendMessage.trim " hi "),
          [mkMessage user (SendMessage.trim " hi "); answer (Replied "hello")])
  /\ currentConversationId (state s') = Some "c1".
Proof.
  intros s s'.
  apply (proj1 (handleSend_records_the_exchange [] " hi " "c1" (Replied "hello")
                  eq_refl)).
  reflexivity.
Defined.

(** X27 at a send for a conversation that was deleted. *)
Lemma handleSend_into_unknown_conversation_loses_the_exchange_witness :
  let s := run [CreateConversation "c1"; DeleteConversation "c1"] in
  let calls :=
    handleSend "hi" (isLoading (state s)) false (Some "c1") "c2" (Replied "hello") in
  In (SendMessage (SendMessage.trim "hi") "c1") calls
  /\ store_after calls s = s.
Proof.
  intros s.
  apply (handleSend_into_unknown_conversation_loses_the_exchange
           s "hi" "c1" "c2" (Replied "hello")); try reflexivity.
  discriminate.
Defined.

End ChatStoreInstances.

(** ** [useCodeStore] *)

Module CodeStoreFacts.

Import CodeStore ChatStoreFacts.

Lemma has_set {V : Type} (k k' : string) (v : V) (m : JSMap.t V) :
  JSMap.has k (JSMap.set k' v m)
  = if String.eqb k' k then true else JSMap.has k m.
Proof.
  unfold JSMap.has. rewrite Map_get_set. now destruct (String.eqb k' k).
Qed.

Lemma has_delete {V : Type} (k k' : string) (m : JSMap.t V) :
  JSMap.has k (JSMap.delete k' m)
  = if String.eqb k' k then false else JSMap.has k m.
Proof.
  unfold JSMap.has. rewrite Map_get_delete. now destruct (String.eqb k' k).
Qed.

Lemma has_hd {V : Type} (m : JSMap.t V) (k : string) :
  hd_error (JSMap.keys m) = Some k -> JSMap.has k m = true.
Proof.
  intros H. apply Map_get_hd in H. unfold JSMap.has.
  now destruct (JSMap.get k m).
Qed.

Lemma current_is_open_act (s : State) (a : Action) :
  fits s a = true -> current_is_open s -> current_is_open (act s a).
Proof.
  unfold current_is_open.
  destruct a as [files|p c|p c|p|[p|]|p|]; simpl; intros Hf Hs.
  - destruct (currentFile s); [exact Hf | exact I].
  - now rewrite has_set, String.eqb_refl.
  - destruct (currentFile s) as [cur|]; [|exact I].
    rewrite has_set. now destruct (String.eqb p cur).
  - destruct (currentFile s) as [cur|]; [|exact I].
    destruct (String.eqb cur p) eqn:E.
    + destruct (hd_error (JSMap.keys (JSMap.delete p (openFiles s))))
        as [first|] eqn:Eh; [|exact I].
      now apply has_hd.
    + rewrite has_delete, String.eqb_sym, E. exact Hs.
  - exact Hf.
  - exact I.
  - exact Hs.
  - exact I.
Qed.

Lemma Set_has_app (x : string) (l1 l2 : list string) :
  Set_has x (l1 ++ l2) = Set_has x l1 || Set_has x l2.
Proof. apply existsb_app. Qed.

Lemma Set_has_remove (x p : string) (l : list string) :
  Set_has x (filter (fun y => negb (String.eqb y p)) l)
  = negb (String.eqb x p) && Set_has x l.
Proof.
  induction l as [|y l IH]; simpl.
  - now rewrite andb_false_r.
  - destruct (String.eqb y p) eqn:E; simpl.
    + rewrite IH. apply String.eqb_eq in E. subst y.
      destruct (String.eqb x p); [reflexivity|]. reflexivity.
    + rewrite IH. destruct (String.eqb x y) eqn:Exy; simpl.
      * apply String.eqb_eq in Exy. subst y. now rewrite E.
      * reflexivity.
Qed.

End CodeStoreFacts.

Section CodeStoreProperties.

Import CodeStore CodeStoreFacts.

(** X28.  As long as [setCurrentFile] is given open files and
    [setOpenFiles] keeps the current one, the current file is always one of
    the open files or there is none: opening, saving, closing (the current
    file included), toggling folders and clearing never leave the editor
    on a file that is closed. *)
Theorem current_file_is_open (actions : list Action) :
  well_used initial actions = true -> current_is_open (run actions).
Proof.
  unfold run.
  assert (G : forall s, current_is_open s -> well_used s actions = true ->
                        current_is_open (fold_left act actions s)).
  { induction actions as [|a rest IH]; simpl; intros s Hs Hw; [exact Hs|].
    apply andb_prop in Hw as [Ha Hrest].
    apply IH; [now apply current_is_open_act | exact Hrest]. }
  intros H. apply G; [exact I | exact H].
Qed.

(** X29.  [toggleFolder] flips the folder it is given and no other:
    afterwards that folder is expanded exactly when it was not, every other
    folder is as it was, and the open files and the current file are
    untouched.  Toggling twice therefore restores which folders are
    expanded. *)
Theorem toggleFolder_flips_one_folder (path : string) (s : State) :
  (forall x,
     Set_has x (expandedFolders (toggleFolder path s))
     = if String.eqb x path then negb (Set_has path (expandedFolders s))
       else Set_has x (expandedFolders s))
  /\ openFiles (toggleFolder path s) = openFiles s
  /\ currentFile (toggleFolder path s) = currentFile s
  /\ forall x,
       Set_has x (expandedFolders (toggleFolder path (toggleFolder path s)))
       = Set_has x (expandedFolders s).
Proof.
  assert (F : forall s x,
             Set_has x (expandedFolders (toggleFolder path s))
             = if String.eqb x path then negb (Set_has path (expandedFolders s))
               else Set_has x (expandedFolders s)).
  { intros s0 x. unfold toggleFolder. cbn [expandedFolders].
    destruct (Set_has path (expandedFolders s0)) eqn:E.
    - rewrite Set_has_remove. destruct (String.eqb x path); reflexivity.
    - rewrite Set_has_app. simpl. rewrite orb_false_r.
      destruct (String.eqb x path) eqn:Ex.
      + apply String.eqb_eq in Ex. subst x. now rewrite E.
      + now rewrite orb_false_r. }
  split; [apply F|]. split; [reflexivity|]. split; [reflexivity|].
  intros x. rewrite !F, String.eqb_refl, negb_involutive.
  destruct (String.eqb x path) eqn:Ex; [|reflexivity].
  apply String.eqb_eq in Ex. now subst x.
Qed.

(** X28 at a history that closes the current file. *)
Lemma current_file_is_open_witness :
  current_is_open
    (run [AddOpenFile "a.ts" "1"; AddOpenFile "b.ts" "2";
          UpdateFileContent "a.ts" "3"; CloseFile "b.ts"]).
Proof.
  apply (current_file_is_open
           [AddOpenFile "a.ts" "1"; AddOpenFile "b.ts" "2";
            UpdateFileContent "a.ts" "3"; CloseFile "b.ts"]).
  reflexivity.
Defined.

End CodeStoreProperties.

Section ChunkingProperties.

Import JSString StreamingChatUI SendMessage LoopFacts Concrete.

(** X5.  How the transport cuts the response into chunks is immaterial
    to [handleSendMessage]: two responses whose chunks join to the same
    text make the same calls, so a line, or a character, split across
    chunks is decoded as if it had arrived whole. *)
Theorem response_chunking_is_immaterial
    (JSON_parse : string -> option JS.value) (Number_toString : string -> string)
    (showThinking onFileModified : bool)
    (input : string) (isStreaming : bool) (messages : list Message)
    (chunks chunks' : list string) (ending : Ending) :
  concat_chunks chunks = concat_chunks chunks' ->
  SendMessage.handleSendMessage JSON_parse Number_toString showThinking
    onFileModified input isStreaming messages (Body chunks ending)
  = SendMessage.handleSendMessage JSON_parse Number_toString showThinking
      onFileModified input isStreaming messages (Body chunks' ending).
Proof.
  intros H. unfold SendMessage.handleSendMessage, answered.
  now rewrite (handleSendMessage_chunking JSON_parse Number_toString
                 showThinking onFileModified chunks chunks' ending H).
Qed.

(** X5 at a line cut in the middle of its prefix and of its payload. *)
Lemma response_chunking_is_immaterial_witness :
  SendMessage.handleSendMessage JSON.parse Concrete.number_text true false
    "hi" false []
    (Body ["da"; jsq "ta: {'type':'con"; (jsq "tent','content':'a'}" ++ nl)%string]
          Eof)
  = SendMessage.handleSendMessage JSON.parse Concrete.number_text true false
      "hi" false [] (Body [content_line "a"] Eof).
Proof.
  apply (response_chunking_is_immaterial
           JSON.parse Concrete.number_text true false "hi" false []
           ["da"; jsq "ta: {'type':'con"; (jsq "tent','content':'a'}" ++ nl)%string]
           [content_line "a"] Eof).
  reflexivity.
Defined.

End ChunkingProperties.
